(** * Gatherings: ledger and lifecycle engine

    A shallow embedding of [models.py] (the SQLAlchemy entity store and the
    derived ledger properties) and of [services.py] (the service facade),
    followed by the properties of the specification that were checked
    against it.

    Modelling conventions.
    - The four tables are lists of rows kept in primary-key order; a fresh
      integer key is one more than the largest key of the table (SQLite's
      rowid rule for an [INTEGER PRIMARY KEY] column).  A query without
      [ORDER BY] scans the table in that order, so [.first()] is the first
      matching row and [.all()] the matching rows in key order.
    - Amounts ([Float] columns) are binary64 numbers in the source.  The
      store and the operations carry them as exact rationals [Q]: what is
      proved over [Q] is the structure of the results (which rows exist,
      which member an amount is booked on, which formula a dictionary entry
      holds) and the value of scenarios whose amounts are small integers,
      on which binary64 arithmetic is exact.  The ledger properties whose
      value depends on rounding are embedded a second time over binary64
      itself, in [Binary64], with the operations of [SpecFloat].
    - The collections [Member.expenses] and [Member.payments] have no
      [order_by]: the order in which a load lists them is the database's
      choice.  [load_member] lists them in key order as one such choice;
      no statement below relies on the position of a row in them.
    - Python's [int] is [Z]; the [Integer] column of [total_members] holds
      a signed 64-bit integer.
    - A string is a sequence of characters of one byte each.  The date
      parser is modelled on ASCII identifiers, where its digit class is
      [0-9]; the statements about the identifier format are made for ASCII
      identifiers only.
    - A failure of the source is a [ValueError], apart from the
      [OverflowError] of the database driver; the error kinds below name
      the distinct messages.
    - The [created_at] columns take no part in any operation and are left
      out. *)

From Stdlib Require Import ZArith QArith Qabs List Permutation String Ascii Bool Lia Lqa.
From Stdlib Require Import DecimalString Decimal DecimalNat SpecFloat.
Import ListNotations.

Local Open Scope string_scope.
Local Open Scope Z_scope.

(** ** Errors and results *)

Inductive Error : Type :=
| InvalidId          (* "Gathering ID must start with a valid date ..." *)
| AlreadyExists      (* "Gathering with ID ... already exists" *)
| NotFound           (* "Gathering ... not found" *)
| GatheringClosed    (* "Cannot ... closed gathering ..." *)
| AlreadyClosed      (* "Gathering ... is already closed" *)
| InvalidAmount      (* "Expense amount must be positive" *)
| MemberNotFound     (* "Member ... not found in gathering ..." *)
| DuplicateName      (* "Member ... already exists in gathering ..." *)
| MemberHasActivity  (* "Cannot remove member ... who has recorded ..." *)
| MemberLost         (* "Cannot find member ... after ..." *)
| NoneDereference    (* AttributeError: attribute access on [None] *)
| ZeroDivision       (* ZeroDivisionError of [/] *)
| Overflow.          (* OverflowError: "Python int too large to convert to SQLite INTEGER" *)

Inductive result (A : Type) : Type :=
| Ok (a : A)
| Err (e : Error).

Arguments Ok {A} a.
Arguments Err {A} e.

Definition bind {A B : Type} (r : result A) (k : A -> result B) : result B :=
  match r with
  | Ok a => k a
  | Err e => Err e
  end.

Notation "x <- r ;; k" := (bind r (fun x => k))
  (at level 61, r at next level, right associativity).

(** ** Strings: [str.split], [str.join], [int], format [04d], SQL [LIKE] *)

Definition hyphen : ascii := "-"%char.

(** [s.split("-")]: always at least one component. *)
Fixpoint split_hyphen (s : string) : list string :=
  match s with
  | EmptyString => [EmptyString]
  | String c r =>
      if Ascii.eqb c hyphen then EmptyString :: split_hyphen r
      else match split_hyphen r with
           | h :: t => String c h :: t
           | [] => [String c EmptyString]
           end
  end.

(** ["-".join(gathering_id.split("-")[:3])] *)
Definition date_part (gathering_id : string) : string :=
  String.concat "-" (firstn 3 (split_hyphen gathering_id)).

Definition in_range (lo hi c : ascii) : bool :=
  (nat_of_ascii lo <=? nat_of_ascii c)%nat && (nat_of_ascii c <=? nat_of_ascii hi)%nat.

(** The digit class on ASCII text, [0-9].  On other text the parser and
    [int] also take the decimal digits of other scripts. *)
Definition is_digit : ascii -> bool := in_range "0" "9".
Definition is_char (a c : ascii) : bool := Ascii.eqb a c.

(** [int(s)] on a string of decimal digits (a leading blank is skipped, as
    [int] strips white space). *)
Definition digit_val (c : ascii) : Z := Z.of_nat (nat_of_ascii c) - 48.

Fixpoint int_acc (acc : Z) (s : string) : Z :=
  match s with
  | EmptyString => acc
  | String c r => if is_digit c then int_acc (10 * acc + digit_val c) r else int_acc acc r
  end.

Definition int (s : string) : Z := int_acc 0 s.

(** A regular-expression group as the ordered list of its alternatives, each
    a sequence of character classes.  [match_alt] matches one alternative at
    the head of the input; [match_group] tries the alternatives in order and
    moves to the next one when the continuation fails (backtracking). *)
Definition char_class := ascii -> bool.

Fixpoint match_alt (alt : list char_class) (s : string) : option (string * string) :=
  match alt with
  | [] => Some (EmptyString, s)
  | cl :: alt' =>
      match s with
      | EmptyString => None
      | String c r =>
          if cl c then
            match match_alt alt' r with
            | Some (m, rest) => Some (String c m, rest)
            | None => None
            end
          else None
      end
  end.

Fixpoint match_group {A : Type} (alts : list (list char_class)) (s : string)
  (k : string -> string -> option A) : option A :=
  match alts with
  | [] => None
  | alt :: alts' =>
      match match_alt alt s with
      | Some (m, rest) =>
          match k m rest with
          | Some a => Some a
          | None => match_group alts' s k
          end
      | None => match_group alts' s k
      end
  end.

Definition match_lit {A : Type} (a : ascii) (s : string) (k : string -> option A) : option A :=
  match s with
  | String c r => if Ascii.eqb c a then k r else None
  | EmptyString => None
  end.

(** The groups that [_strptime] substitutes for [%Y], [%m] and [%d]:
    [\d\d\d\d], [1[0-2]|0[1-9]|[1-9]] and [3[0-1]|[1-2]\d|0[1-9]|[1-9]| [1-9]]. *)
Definition re_Y : list (list char_class) :=
  [[is_digit; is_digit; is_digit; is_digit]].

Definition re_m : list (list char_class) :=
  [[is_char "1"; in_range "0" "2"]; [is_char "0"; in_range "1" "9"]; [in_range "1" "9"]].

Definition re_d : list (list char_class) :=
  [[is_char "3"; in_range "0" "1"]; [in_range "1" "2"; is_digit];
   [is_char "0"; in_range "1" "9"]; [in_range "1" "9"]; [is_char " "; in_range "1" "9"]].

(** [format_regex.match(data_string)] for the format ["%Y-%m-%d"]: the three
    groups and the unmatched remainder. *)
Definition format_regex_match (s : string) : option (string * string * string * string) :=
  match_group re_Y s (fun Y r1 =>
  match_lit hyphen r1 (fun r2 =>
  match_group re_m r2 (fun m r3 =>
  match_lit hyphen r3 (fun r4 =>
  match_group re_d r4 (fun d r5 => Some (Y, m, d, r5)))))).

(** [datetime.date(year, month, day)] accepts years 1..9999 and days that
    exist in the month. *)
Definition is_leap (y : Z) : bool :=
  (y mod 4 =? 0) && (negb (y mod 100 =? 0) || (y mod 400 =? 0)).

Definition days_in_month (y m : Z) : Z :=
  if m =? 2 then (if is_leap y then 29 else 28)
  else if (m =? 4) || (m =? 6) || (m =? 9) || (m =? 11) then 30
  else 31.

Definition valid_date (y m d : Z) : bool :=
  (1 <=? y) && (y <=? 9999) && (1 <=? m) && (m <=? 12) && (1 <=? d) && (d <=? days_in_month y m).

(** [datetime.strptime(s, "%Y-%m-%d")]: [None] stands for its [ValueError]
    (no match, unconverted data, or a date that does not exist). *)
Definition strptime (s : string) : option (Z * Z * Z) :=
  match format_regex_match s with
  | None => None
  | Some (Y, m, d, rest) =>
      match rest with
      | String _ _ => None
      | EmptyString =>
          let year := int Y in
          let month := int m in
          let day := int d in
          if valid_date year month day then Some (year, month, day) else None
      end
  end.

(** [f"member{i:04d}"] *)
Definition zfill4 (s : string) : string :=
  String.concat "" (repeat "0" (4 - String.length s)) ++ s.

Definition format_04d (i : nat) : string :=
  zfill4 (NilEmpty.string_of_uint (Nat.to_uint i)).

Definition placeholder_name (i : nat) : string := "member" ++ format_04d i.

(** SQLite's [name LIKE 'member%']: the literal part is compared without
    regard to ASCII case, [%] matches any (possibly empty) remainder. *)
Definition ascii_lower (c : ascii) : ascii :=
  if in_range "A" "Z" c then ascii_of_nat (nat_of_ascii c + 32) else c.

Fixpoint like_prefix (p s : string) : bool :=
  match p with
  | EmptyString => true
  | String a p' =>
      match s with
      | EmptyString => false
      | String c s' => Ascii.eqb (ascii_lower a) (ascii_lower c) && like_prefix p' s'
      end
  end.

Definition like_member (name : string) : bool := like_prefix "member" name.

(** ** Numbers: [sum] and true division *)

(** [sum(xs)]: a left fold of [+] from [0], without the rounding of the
    source (see [Binary64.sum]). *)
Definition sum (xs : list Q) : Q := fold_left Qplus xs 0%Q.

(** [a / n] raises [ZeroDivisionError] when [n == 0]; the quotient is the
    exact one, not rounded (see [Binary64.div]). *)
Definition truediv (a : Q) (n : Z) : result Q :=
  if n =? 0 then Err ZeroDivision else Ok (a / inject_Z n)%Q.

(** ** Entities *)

Inductive GatheringStatus : Type := OPEN | CLOSED.

Definition GatheringStatus_eqb (a b : GatheringStatus) : bool :=
  match a, b with
  | OPEN, OPEN | CLOSED, CLOSED => true
  | _, _ => false
  end.

Module Expense.
Record t : Type := mk { id : Z; member_id : Z; amount : Q }.
End Expense.

Module Payment.
Record t : Type := mk { id : Z; member_id : Z; amount : Q }.
End Payment.

(** A [Member] object with its two relationships loaded. *)
Module Member.
Record t : Type := mk {
  id : Z;
  name : string;
  gathering_id : string;
  expenses : list Expense.t;
  payments : list Payment.t
}.

Definition total_expenses (self : t) : Q :=
  sum (map Expense.amount (expenses self)).

Definition total_payments (self : t) : Q :=
  sum (map Payment.amount (payments self)).
End Member.

(** A [Gathering] object with its members loaded. *)
Module Gathering.
Record t : Type := mk {
  id : string;
  total_members : Z;
  status : GatheringStatus;
  members : list Member.t
}.

Definition total_expenses (self : t) : Q :=
  sum (map (fun member => sum (map Expense.amount (Member.expenses member))) (members self)).

Definition total_payments (self : t) : Q :=
  sum (map (fun member => sum (map Payment.amount (Member.payments member))) (members self)).

Definition expense_per_member (self : t) : result Q :=
  if total_members self =? 0 then Ok 0%Q
  else
    let total_expenses :=
      sum (map (fun member => sum (map Expense.amount (Member.expenses member))) (members self)) in
    truediv total_expenses (total_members self).
End Gathering.

(** [Member.balance]; the owning gathering ([self.gathering]) is passed
    explicitly. *)
Definition member_balance (m : Member.t) (g : Gathering.t) : result Q :=
  expense_per_member <- Gathering.expense_per_member g ;;
  Ok (Member.total_expenses m + Member.total_payments m - expense_per_member)%Q.

(** [Member.status], on the exact balance: the source compares the rounded
    one. *)
Definition member_status (m : Member.t) (g : Gathering.t) : result string :=
  balance <- member_balance m g ;;
  if Qlt_le_dec (Qabs balance) (1 # 100) then Ok "settled"
  else if Qlt_le_dec 0 balance then Ok "is owed money"
  else Ok "owes money".

(** ** The ledger over binary64

    The amounts of a loaded gathering are Python floats, and the properties
    above add, subtract and divide them in binary64, rounding to nearest
    (ties to even).  [Binary64] repeats those properties on the numbers the
    code computes with; the operations are those of [SpecFloat] at
    precision 53.  [sum] adds from left to right starting from [0]; an
    [int] operand ([0] for an empty collection, [total_members]) is
    converted to the nearest float first, as Python does.  Since Python
    3.12 [sum] also carries the rounding errors of its additions along and
    adds them at the end: the two agree whenever no addition rounds. *)

Module Binary64.

Definition float : Type := spec_float.

Definition zero : float := S754_zero false.

(** [float(n)] *)
Definition of_int (n : Z) : float := binary_normalize 53 1024 n 0 false.

Definition add : float -> float -> float := SFadd 53 1024.
Definition sub : float -> float -> float := SFsub 53 1024.
Definition div : float -> float -> float := SFdiv 53 1024.

(** Neither an infinity nor a NaN. *)
Definition is_finite (x : float) : bool :=
  match x with
  | S754_zero _ | S754_finite _ _ _ => true
  | _ => false
  end.

(** The number that a finite float stands for. *)
Definition to_Q (x : float) : Q :=
  match x with
  | S754_finite s m e => (inject_Z (if s then Zneg m else Zpos m) * Qpower (2 # 1) e)%Q
  | _ => 0%Q
  end.

(** [sum(xs)] *)
Definition sum (xs : list float) : float := fold_left add xs zero.

(** What the properties read of a loaded member and of a loaded gathering:
    the amounts of the expenses and of the payments, in the order of the
    loaded collections, and [total_members]. *)
Record Member : Type := mkMember {
  expenses : list float;
  payments : list float
}.

Record Gathering : Type := mkGathering {
  total_members : Z;
  members : list Member
}.

(** [Member.total_expenses], [Member.total_payments] *)
Definition member_total_expenses (self : Member) : float := sum (expenses self).

Definition member_total_payments (self : Member) : float := sum (payments self).

(** [Gathering.total_expenses], [Gathering.total_payments] *)
Definition total_expenses (self : Gathering) : float :=
  sum (map (fun member => sum (expenses member)) (members self)).

Definition total_payments (self : Gathering) : float :=
  sum (map (fun member => sum (payments member)) (members self)).

(** [Gathering.expense_per_member] *)
Definition expense_per_member (self : Gathering) : float :=
  if total_members self =? 0 then zero
  else
    let total_expenses :=
      sum (map (fun member => sum (expenses member)) (members self)) in
    div total_expenses (of_int (total_members self)).

(** [Member.balance] *)
Definition balance (self : Member) (gathering : Gathering) : float :=
  sub (add (member_total_expenses self) (member_total_payments self))
      (expense_per_member gathering).


(** An operation that returns the exact result: the operands and the
    result are finite and no rounding takes place. *)
Definition exact_add (x y : float) : bool :=
  is_finite x && is_finite y && is_finite (add x y)
  && Qeq_bool (to_Q (add x y)) (to_Q x + to_Q y).

Definition exact_sub (x y : float) : bool :=
  is_finite x && is_finite y && is_finite (sub x y)
  && Qeq_bool (to_Q (sub x y)) (to_Q x - to_Q y).

Definition exact_div (x : float) (n : Z) : bool :=
  is_finite x && is_finite (of_int n) && Qeq_bool (to_Q (of_int n)) (inject_Z n)
  && is_finite (div x (of_int n))
  && Qeq_bool (to_Q (div x (of_int n))) (to_Q x / inject_Z n).

Fixpoint exact_sum_from (so_far : float) (xs : list float) : bool :=
  match xs with
  | [] => true
  | x :: rest => exact_add so_far x && exact_sum_from (add so_far x) rest
  end.

Definition exact_sum (xs : list float) : bool := exact_sum_from zero xs.

(** No operation rounds in the share, in the balances, in their sum and in
    the total of the payments.  (The totals of the single members may have
    been rounded: they are taken as they are.) *)
Definition exact_share (g : Gathering) : bool :=
  (total_members g =? 0)
  || (exact_sum (map (fun member => sum (expenses member)) (members g))
      && exact_div (sum (map (fun member => sum (expenses member)) (members g)))
                   (total_members g)).

Definition exact_balance (g : Gathering) (m : Member) : bool :=
  exact_add (member_total_expenses m) (member_total_payments m)
  && exact_sub (add (member_total_expenses m) (member_total_payments m))
               (expense_per_member g).

Definition exact (g : Gathering) : bool :=
  exact_share g
  && forallb (exact_balance g) (members g)
  && exact_sum (map (fun m => balance m g) (members g))
  && exact_sum (map (fun member => sum (payments member)) (members g)).

End Binary64.



(** ** The store *)

Module MemberRow.
Record t : Type := mk { id : Z; name : string; gathering_id : string }.
End MemberRow.

Module GatheringRow.
Record t : Type := mk { id : string; total_members : Z; status : GatheringStatus }.
End GatheringRow.

Record Store : Type := mkStore {
  gatherings : list GatheringRow.t;
  members : list MemberRow.t;
  expenses : list Expense.t;
  payments : list Payment.t
}.

Definition empty_store : Store := mkStore [] [] [] [].

(** The key given to a row inserted into a table whose keys are [ids]. *)
Definition next_id (ids : list Z) : Z := fold_right Z.max 0 ids + 1.

(** [session.query(Gathering).filter_by(id=gathering_id).first()] *)
Definition query_gathering (db : Store) (gathering_id : string) : option GatheringRow.t :=
  find (fun g => String.eqb (GatheringRow.id g) gathering_id) (gatherings db).

(** [session.query(Member).filter_by(gathering_id=..., name=...).first()] *)
Definition query_member (db : Store) (gathering_id member_name : string) : option MemberRow.t :=
  find (fun m => String.eqb (MemberRow.gathering_id m) gathering_id
                 && String.eqb (MemberRow.name m) member_name) (members db).

(** [session.query(Member).filter(Member.gathering_id == gathering_id,
    Member.name.like("member%")).all()] *)
Definition query_unnamed_members (db : Store) (gathering_id : string) : list MemberRow.t :=
  filter (fun m => String.eqb (MemberRow.gathering_id m) gathering_id
                   && like_member (MemberRow.name m)) (members db).

(** The rows behind the relationships [Gathering.members], [Member.expenses]
    and [Member.payments]. *)
Definition members_of (db : Store) (gathering_id : string) : list MemberRow.t :=
  filter (fun m => String.eqb (MemberRow.gathering_id m) gathering_id) (members db).

Definition expenses_of (db : Store) (member_id : Z) : list Expense.t :=
  filter (fun e => Expense.member_id e =? member_id) (expenses db).

Definition payments_of (db : Store) (member_id : Z) : list Payment.t :=
  filter (fun p => Payment.member_id p =? member_id) (payments db).

(** A member with its two collections loaded.  The source gives the
    collections no order; they are listed here by key. *)
Definition load_member (db : Store) (m : MemberRow.t) : Member.t :=
  Member.mk (MemberRow.id m) (MemberRow.name m) (MemberRow.gathering_id m)
            (expenses_of db (MemberRow.id m)) (payments_of db (MemberRow.id m)).

(** [DatabaseManager.get_gathering]: the gathering with every relationship
    loaded, or [None]. *)
Definition get_gathering (db : Store) (gathering_id : string) : option Gathering.t :=
  match query_gathering db gathering_id with
  | None => None
  | Some g =>
      Some (Gathering.mk (GatheringRow.id g) (GatheringRow.total_members g) (GatheringRow.status g)
              (map (load_member db) (members_of db (GatheringRow.id g))))
  end.

(** [for m in updated_gathering.members: if m.name == member_name: ...] *)
Definition find_member (g : Gathering.t) (member_name : string) : option Member.t :=
  find (fun m => String.eqb (Member.name m) member_name) (Gathering.members g).

(** ** [DatabaseManager]: the operations

    Each operation maps the store to the store it leaves behind and to what
    the call returns or raises.  A failure raised before [session.commit()]
    is rolled back: the store is returned as it was. *)

(** The rows written by [for i in range(1, total_members + 1)]. *)
Definition placeholders (first_id : Z) (gathering_id : string) (total_members : Z)
  : list MemberRow.t :=
  map (fun i => MemberRow.mk (first_id + Z.of_nat i - 1) (placeholder_name i) gathering_id)
      (seq 1 (Z.to_nat total_members)).

(** The values that the [Integer] column takes: at [session.commit()] the
    driver raises [OverflowError] for any other [int]. *)
Definition fits_integer (n : Z) : bool :=
  (-9223372036854775808 <=? n) && (n <=? 9223372036854775807).

Definition create_gathering (db : Store) (gathering_id : string) (total_members : Z)
  : Store * result (option Gathering.t) :=
  match strptime (date_part gathering_id) with
  | None => (db, Err InvalidId)
  | Some _ =>
      match query_gathering db gathering_id with
      | Some _ => (db, Err AlreadyExists)
      | None =>
          let gathering := GatheringRow.mk gathering_id total_members OPEN in
          let db' := mkStore (gatherings db ++ [gathering])
                             (members db ++ placeholders (next_id (map MemberRow.id (members db)))
                                                         gathering_id total_members)
                             (expenses db) (payments db) in
          if fits_integer total_members then (db', Ok (get_gathering db' gathering_id))
          else (db, Err Overflow)
      end
  end.

(** [UPDATE gatherings SET ... WHERE id = gathering_id] *)
Definition update_gathering (db : Store) (gathering_id : string)
  (f : GatheringRow.t -> GatheringRow.t) : list GatheringRow.t :=
  map (fun g => if String.eqb (GatheringRow.id g) gathering_id then f g else g) (gatherings db).

(** [UPDATE members SET name = new_name WHERE id = member_id] *)
Definition update_member_name (db : Store) (member_id : Z) (new_name : string) : list MemberRow.t :=
  map (fun m => if MemberRow.id m =? member_id
                then MemberRow.mk (MemberRow.id m) new_name (MemberRow.gathering_id m)
                else m) (members db).

Definition set_total_members (n : Z) (g : GatheringRow.t) : GatheringRow.t :=
  GatheringRow.mk (GatheringRow.id g) n (GatheringRow.status g).

Definition set_status (s : GatheringStatus) (g : GatheringRow.t) : GatheringRow.t :=
  GatheringRow.mk (GatheringRow.id g) (GatheringRow.total_members g) s.

Definition add_member (db : Store) (gathering_id member_name : string)
  : Store * result MemberRow.t :=
  match query_gathering db gathering_id with
  | None => (db, Err NotFound)
  | Some gathering =>
      if GatheringStatus_eqb (GatheringRow.status gathering) CLOSED then (db, Err GatheringClosed)
      else
        match query_member db gathering_id member_name with
        | Some _ => (db, Err DuplicateName)
        | None =>
            let member := MemberRow.mk (next_id (map MemberRow.id (members db)))
                                       member_name gathering_id in
            (mkStore (update_gathering db (GatheringRow.id gathering)
                        (set_total_members (GatheringRow.total_members gathering + 1)))
                     (members db ++ [member]) (expenses db) (payments db),
             Ok member)
        end
  end.

(** [session.delete(member)] with the cascade of its two relationships. *)
Definition delete_member (db : Store) (member_id : Z) : Store :=
  mkStore (gatherings db)
          (filter (fun m => negb (MemberRow.id m =? member_id)) (members db))
          (filter (fun e => negb (Expense.member_id e =? member_id)) (expenses db))
          (filter (fun p => negb (Payment.member_id p =? member_id)) (payments db)).

Definition remove_member (db : Store) (gathering_id member_name : string)
  : Store * result unit :=
  match query_gathering db gathering_id with
  | None => (db, Err NotFound)
  | Some gathering =>
      if GatheringStatus_eqb (GatheringRow.status gathering) CLOSED then (db, Err GatheringClosed)
      else
        match query_member db gathering_id member_name with
        | None => (db, Err MemberNotFound)
        | Some member =>
            let expenses_count := List.length (expenses_of db (MemberRow.id member)) in
            if (0 <? expenses_count)%nat then (db, Err MemberHasActivity)
            else
              let payments_count := List.length (payments_of db (MemberRow.id member)) in
              if (0 <? payments_count)%nat then (db, Err MemberHasActivity)
              else
                let db1 := delete_member db (MemberRow.id member) in
                (mkStore (update_gathering db1 (GatheringRow.id gathering)
                            (set_total_members (GatheringRow.total_members gathering - 1)))
                         (members db1) (expenses db1) (payments db1),
                 Ok tt)
        end
  end.

(** The tail shared by [add_expense] and [record_payment]: reload the
    gathering from the committed store and look the member up by name. *)
Definition reload (db : Store) (gathering_id member_name : string)
  : result (Gathering.t * Member.t) :=
  match get_gathering db gathering_id with
  | None => Err NoneDereference
  | Some updated_gathering =>
      match find_member updated_gathering member_name with
      | None => Err MemberLost
      | Some updated_member => Ok (updated_gathering, updated_member)
      end
  end.

Definition add_expense (db : Store) (gathering_id member_name : string) (amount : Q)
  : Store * result (Gathering.t * Member.t) :=
  if Qle_bool amount 0 then (db, Err InvalidAmount)
  else
    match query_gathering db gathering_id with
    | None => (db, Err NotFound)
    | Some gathering =>
        if GatheringStatus_eqb (GatheringRow.status gathering) CLOSED then (db, Err GatheringClosed)
        else
          let resolved :=
            match query_member db gathering_id member_name with
            | Some member => Ok (members db, member)
            | None =>
                match query_unnamed_members db gathering_id with
                | [] => Err MemberNotFound
                | member :: _ =>
                    Ok (update_member_name db (MemberRow.id member) member_name, member)
                end
            end in
          match resolved with
          | Err e => (db, Err e)
          | Ok (members', member) =>
              let expense := Expense.mk (next_id (map Expense.id (expenses db)))
                                        (MemberRow.id member) amount in
              let db' := mkStore (gatherings db) members' (expenses db ++ [expense]) (payments db) in
              (db', reload db' gathering_id member_name)
          end
    end.

Definition record_payment (db : Store) (gathering_id member_name : string) (amount : Q)
  : Store * result (Gathering.t * Member.t) :=
  match query_gathering db gathering_id with
  | None => (db, Err NotFound)
  | Some gathering =>
      if GatheringStatus_eqb (GatheringRow.status gathering) CLOSED then (db, Err GatheringClosed)
      else
        match query_member db gathering_id member_name with
        | None => (db, Err MemberNotFound)
        | Some member =>
            let payment := Payment.mk (next_id (map Payment.id (payments db)))
                                      (MemberRow.id member) amount in
            let db' := mkStore (gatherings db) (members db) (expenses db) (payments db ++ [payment]) in
            (db', reload db' gathering_id member_name)
        end
  end.

Definition rename_member (db : Store) (gathering_id old_name new_name : string)
  : Store * result Member.t :=
  match query_gathering db gathering_id with
  | None => (db, Err NotFound)
  | Some gathering =>
      if GatheringStatus_eqb (GatheringRow.status gathering) CLOSED then (db, Err GatheringClosed)
      else
        match query_member db gathering_id old_name with
        | None => (db, Err MemberNotFound)
        | Some member =>
            match query_member db gathering_id new_name with
            | Some _ => (db, Err DuplicateName)
            | None =>
                let db' := mkStore (gatherings db)
                                   (update_member_name db (MemberRow.id member) new_name)
                                   (expenses db) (payments db) in
                (db', match reload db' gathering_id new_name with
                      | Ok (_, m) => Ok m
                      | Err e => Err e
                      end)
            end
        end
  end.

Definition close_gathering (db : Store) (gathering_id : string)
  : Store * result (option Gathering.t) :=
  match query_gathering db gathering_id with
  | None => (db, Err NotFound)
  | Some gathering =>
      if GatheringStatus_eqb (GatheringRow.status gathering) CLOSED then (db, Err AlreadyClosed)
      else
        let db' := mkStore (update_gathering db (GatheringRow.id gathering) (set_status CLOSED))
                           (members db) (expenses db) (payments db) in
        (db', Ok (get_gathering db' gathering_id))
  end.

(** [session.delete(gathering)]: the cascade removes the members of the
    gathering and, through them, their expenses and payments. *)
Definition delete_gathering (db : Store) (gathering_id : string) (force : bool)
  : Store * result unit :=
  match query_gathering db gathering_id with
  | None => (db, Err NotFound)
  | Some gathering =>
      if GatheringStatus_eqb (GatheringRow.status gathering) CLOSED && negb force
      then (db, Err GatheringClosed)
      else
        let db1 := fold_left (fun d m => delete_member d (MemberRow.id m))
                             (members_of db (GatheringRow.id gathering)) db in
        (mkStore (filter (fun g => negb (String.eqb (GatheringRow.id g) (GatheringRow.id gathering)))
                         (gatherings db1))
                 (members db1) (expenses db1) (payments db1),
         Ok tt)
  end.

(** ** [GatheringService] *)

(** A [dict] keyed by strings: assignment replaces the value of a key that
    is present and appends a new key otherwise. *)
Definition dict (V : Type) : Type := list (string * V).

Fixpoint dict_set {V : Type} (d : dict V) (k : string) (v : V) : dict V :=
  match d with
  | [] => [(k, v)]
  | (k', v') :: r => if String.eqb k' k then (k, v) :: r else (k', v') :: dict_set r k v
  end.

Fixpoint dict_get {V : Type} (d : dict V) (k : string) : option V :=
  match d with
  | [] => None
  | (k', v') :: r => if String.eqb k' k then Some v' else dict_get r k
  end.

(** The body of [calculate_reimbursements] once the gathering is loaded. *)
Definition reimbursements (gathering : Gathering.t) : result (dict Q) :=
  expense_per_member <- Gathering.expense_per_member gathering ;;
  Ok (fold_left
        (fun reimbursements member =>
           let to_pay := (expense_per_member - Member.total_expenses member
                          + Member.total_payments member)%Q in
           dict_set reimbursements (Member.name member) to_pay)
        (Gathering.members gathering) []).

Definition calculate_reimbursements (db : Store) (gathering_id : string) : result (dict Q) :=
  match get_gathering db gathering_id with
  | None => Err NotFound
  | Some gathering => reimbursements gathering
  end.

(** ** Sequences of calls *)

Inductive Call : Type :=
| CreateGathering (gathering_id : string) (total_members : Z)
| AddMember (gathering_id member_name : string)
| RemoveMember (gathering_id member_name : string)
| AddExpense (gathering_id member_name : string) (amount : Q)
| RecordPayment (gathering_id member_name : string) (amount : Q)
| RenameMember (gathering_id old_name new_name : string)
| CloseGathering (gathering_id : string)
| DeleteGathering (gathering_id : string) (force : bool).

(** The store left behind by one call, whether it returned or raised. *)
Definition step (db : Store) (c : Call) : Store :=
  match c with
  | CreateGathering g n => fst (create_gathering db g n)
  | AddMember g m => fst (add_member db g m)
  | RemoveMember g m => fst (remove_member db g m)
  | AddExpense g m a => fst (add_expense db g m a)
  | RecordPayment g m a => fst (record_payment db g m a)
  | RenameMember g o n => fst (rename_member db g o n)
  | CloseGathering g => fst (close_gathering db g)
  | DeleteGathering g f => fst (delete_gathering db g f)
  end.

Definition run (calls : list Call) (db : Store) : Store := fold_left step calls db.

(** ** Properties of the specification, as definitions *)



(** "[reimbursements(g)[m] == -member_balance(m, g)]" for one member. *)
Definition reimbursement_negates_balance (g : Gathering.t) (m : Member.t) : Prop :=
  exists d to_pay balance,
    reimbursements g = Ok d /\ dict_get d (Member.name m) = Some to_pay /\
    member_balance m g = Ok balance /\ (to_pay == - balance)%Q.



(** The invariant of the data model: [total_members] of every gathering is
    the number of member rows attached to it. *)
Definition counts_in_sync (db : Store) : Prop :=
  forall g, In g (gatherings db) ->
    GatheringRow.total_members g
    = Z.of_nat (List.length (members_of db (GatheringRow.id g))).

(** Referential integrity of [members.gathering_id], and uniqueness of the
    primary key of [members]. *)
Definition references_ok (db : Store) : Prop :=
  forall m, In m (members db) -> query_gathering db (MemberRow.gathering_id m) <> None.

Definition keys_unique (db : Store) : Prop :=
  NoDup (map MemberRow.id (members db)).

Record store_ok (db : Store) : Prop := {
  ok_counts : counts_in_sync db;
  ok_references : references_ok db;
  ok_keys : keys_unique db
}.

(** A call whose member count, if it has one, is not negative. *)
Definition nonnegative_count (c : Call) : Prop :=
  match c with
  | CreateGathering _ n => 0 <= n
  | _ => True
  end.

(** The reading of the resolver by numeric suffix: among the members of the
    gathering whose name is prefixed [member], the one whose suffix, read as
    a number, is lowest. *)
Definition numeric_suffix (name : string) : Z :=
  int (substring 6 (String.length name - 6) name).

Definition lowest_suffix_placeholder (db : Store) (gathering_id : string) : option MemberRow.t :=
  fold_left
    (fun best m =>
       match best with
       | None => Some m
       | Some b => if numeric_suffix (MemberRow.name m) <? numeric_suffix (MemberRow.name b)
                   then Some m else Some b
       end)
    (filter (fun m => String.prefix "member" (MemberRow.name m)) (members_of db gathering_id))
    None.

(** "The placeholder with the lowest numeric suffix is renamed in place to
    [member_name]": after the call, the row carrying [member_name] is the row
    that carried the lowest suffix before it. *)
Definition renames_lowest_suffix (db : Store) (gathering_id member_name : string) (amount : Q)
  : Prop :=
  forall p, lowest_suffix_placeholder db gathering_id = Some p ->
    option_map MemberRow.id
      (query_member (fst (add_expense db gathering_id member_name amount))
                    gathering_id member_name)
    = Some (MemberRow.id p).

(** The identifier format of the specification, read to the letter: four
    digits, hyphen, two digits, hyphen, two digits, hyphen, any suffix, the
    digits naming a date that exists. *)
Definition conforming_id (s : string) : bool :=
  match s with
  | String y1 (String y2 (String y3 (String y4 (String h1
      (String m1 (String m2 (String h2 (String d1 (String d2 (String h3 suffix)))))))))) =>
      is_digit y1 && is_digit y2 && is_digit y3 && is_digit y4
      && Ascii.eqb h1 hyphen
      && is_digit m1 && is_digit m2
      && Ascii.eqb h2 hyphen
      && is_digit d1 && is_digit d2
      && Ascii.eqb h3 hyphen
      && valid_date (int (String y1 (String y2 (String y3 (String y4 EmptyString)))))
                    (int (String m1 (String m2 EmptyString)))
                    (int (String d1 (String d2 EmptyString)))
  | _ => false
  end.

(** "[create_gathering] fails with InvalidId exactly when the id does not
    conform." *)
Definition invalid_id_iff_not_conforming (db : Store) (gathering_id : string) (n : Z) : Prop :=
  snd (create_gathering db gathering_id n) = Err InvalidId <-> conforming_id gathering_id = false.

(** The spellings that [strptime] accepts for each of the three components. *)
Definition year_form (s : string) : bool :=
  match s with
  | String a (String b (String c (String d EmptyString))) =>
      is_digit a && is_digit b && is_digit c && is_digit d
  | _ => false
  end.

Definition month_forms : list string :=
  ["10"; "11"; "12";
   "01"; "02"; "03"; "04"; "05"; "06"; "07"; "08"; "09";
   "1"; "2"; "3"; "4"; "5"; "6"; "7"; "8"; "9"].

Definition day_forms : list string :=
  ["30"; "31";
   "10"; "11"; "12"; "13"; "14"; "15"; "16"; "17"; "18"; "19";
   "20"; "21"; "22"; "23"; "24"; "25"; "26"; "27"; "28"; "29";
   "01"; "02"; "03"; "04"; "05"; "06"; "07"; "08"; "09";
   "1"; "2"; "3"; "4"; "5"; "6"; "7"; "8"; "9";
   " 1"; " 2"; " 3"; " 4"; " 5"; " 6"; " 7"; " 8"; " 9"].

Definition mem_string (s : string) (l : list string) : bool :=
  existsb (String.eqb s) l.

(** An identifier made of ASCII characters. *)
Fixpoint ascii_only (s : string) : bool :=
  match s with
  | EmptyString => true
  | String c r => (nat_of_ascii c <? 128)%nat && ascii_only r
  end.

(** The date prefix as the code reads it: the first three hyphen-separated
    components, in one of the accepted spellings, naming a date that exists. *)
Definition date_prefix_ok (gathering_id : string) : bool :=
  match split_hyphen gathering_id with
  | Y :: m :: d :: _ =>
      year_form Y && mem_string m month_forms && mem_string d day_forms
      && valid_date (int Y) (int m) (int d)
  | _ => false
  end.

(** ** Stores used as concrete inputs *)

Definition is_ok {A : Type} (r : result A) : bool :=
  match r with
  | Ok _ => true
  | Err _ => false
  end.

Definition friendsbeer : string := "2025-03-01-friendsbeer".

Definition dinner : string := "2025-03-01-dinner".

(** Two members; Roy pays 100 for the group, the other member then pays
    the share of 50 into the pool. *)
Definition dinner_store : Store :=
  run [CreateGathering dinner 2; AddExpense dinner "Roy" 100;
       RecordPayment dinner "member0002" 50] empty_store.

(** One member who has paid 10 into the pool, nothing spent. *)
Definition prepaid_store : Store :=
  run [CreateGathering dinner 1; RecordPayment dinner "member0001" 10] empty_store.

Definition prepaid_gathering : Gathering.t :=
  Gathering.mk dinner 1 OPEN
    [Member.mk 1 "member0001" dinner [] [Payment.mk 1 1 10]].






(** A gathering of two, closed. *)
Definition closed_store : Store :=
  run [CreateGathering dinner 2; CloseGathering dinner] empty_store.

(** "Each of the five mutating operations fails with GatheringClosed and
    leaves the state unchanged", whatever the other arguments. *)
Definition guarded_when_closed (db : Store) (gathering_id : string) : Prop :=
  (forall name amount, add_expense db gathering_id name amount = (db, Err GatheringClosed))
  /\ (forall name amount, record_payment db gathering_id name amount = (db, Err GatheringClosed))
  /\ (forall old_name new_name,
        rename_member db gathering_id old_name new_name = (db, Err GatheringClosed))
  /\ (forall name, add_member db gathering_id name = (db, Err GatheringClosed))
  /\ (forall name, remove_member db gathering_id name = (db, Err GatheringClosed)).

(** A gathering of two, open, untouched. *)
Definition open_store : Store := run [CreateGathering dinner 2] empty_store.

(** A gathering of two whose first placeholder was removed and added again:
    the rows are [member0002] (key 2) and [member0001] (key 3). *)
Definition reordered_store : Store :=
  run [CreateGathering dinner 2; RemoveMember dinner "member0001";
       AddMember dinner "member0001"] empty_store.

(** An empty gathering to which one member with a chosen name was added. *)
Definition staff_store : Store :=
  run [CreateGathering dinner 0; AddMember dinner "membership-secretary"] empty_store.

(** The store that [add_expense] commits: [members'] for the [members]
    table and one more row in [expenses]. *)
Definition with_expense (db : Store) (members' : list MemberRow.t) (member_id : Z) (amount : Q)
  : Store :=
  mkStore (gatherings db) members'
          (expenses db ++ [Expense.mk (next_id (map Expense.id (expenses db))) member_id amount])
          (payments db).

(** A component of [split("-")] holds no hyphen. *)
Fixpoint hyphen_free (s : string) : bool :=
  match s with
  | EmptyString => true
  | String c r => negb (Ascii.eqb c hyphen) && hyphen_free r
  end.

(** Every character, in code order. *)
Definition all_ascii : list ascii := map ascii_of_nat (seq 0 256).

(** ** The rest of the facade *)

(** [DatabaseManager.list_gatherings]: the rows of [gatherings]. *)
Definition list_gatherings (db : Store) : list GatheringRow.t := gatherings db.

(** [GatheringService.add_member]: the member that was added and the
    gathering reloaded after it. *)
Definition service_add_member (db : Store) (gathering_id member_name : string)
  : Store * result (option Gathering.t * MemberRow.t) :=
  match add_member db gathering_id member_name with
  | (db', Ok member) => (db', Ok (get_gathering db' gathering_id, member))
  | (db', Err e) => (db', Err e)
  end.

(** [GatheringService.remove_member]: the gathering reloaded after the
    removal. *)
Definition service_remove_member (db : Store) (gathering_id member_name : string)
  : Store * result (option Gathering.t) :=
  match remove_member db gathering_id member_name with
  | (db', Ok _) => (db', Ok (get_gathering db' gathering_id))
  | (db', Err e) => (db', Err e)
  end.

(** [GatheringService.get_payment_summary]: the totals and, per member name,
    expenses, payments, balance and status. *)
Module Summary.
Record entry : Type := mkEntry {
  expenses : Q;
  paid : Q;
  balance : Q;
  status : string
}.

Record t : Type := mk {
  total_expenses : Q;
  expense_per_member : Q;
  members : dict entry
}.
End Summary.

Definition summary_entry (g : Gathering.t) (member : Member.t) : result Summary.entry :=
  balance <- member_balance member g ;;
  status <- member_status member g ;;
  Ok (Summary.mkEntry (Member.total_expenses member) (Member.total_payments member)
                      balance status).

Fixpoint summary_members (g : Gathering.t) (ms : list Member.t) (acc : dict Summary.entry)
  : result (dict Summary.entry) :=
  match ms with
  | [] => Ok acc
  | member :: rest =>
      e <- summary_entry g member ;;
      summary_members g rest (dict_set acc (Member.name member) e)
  end.

Definition get_payment_summary (db : Store) (gathering_id : string) : result Summary.t :=
  match get_gathering db gathering_id with
  | None => Err NotFound
  | Some gathering =>
      expense_per_member <- Gathering.expense_per_member gathering ;;
      members <- summary_members gathering (Gathering.members gathering) [] ;;
      Ok (Summary.mk (Gathering.total_expenses gathering) expense_per_member members)
  end.

(** What a call raised, if it raised. *)
Definition failure {A : Type} (r : result A) : option Error :=
  match r with
  | Ok _ => None
  | Err e => Some e
  end.

Definition call_failure (db : Store) (c : Call) : option Error :=
  match c with
  | CreateGathering g n => failure (snd (create_gathering db g n))
  | AddMember g m => failure (snd (add_member db g m))
  | RemoveMember g m => failure (snd (remove_member db g m))
  | AddExpense g m a => failure (snd (add_expense db g m a))
  | RecordPayment g m a => failure (snd (record_payment db g m a))
  | RenameMember g o n => failure (snd (rename_member db g o n))
  | CloseGathering g => failure (snd (close_gathering db g))
  | DeleteGathering g f => failure (snd (delete_gathering db g f))
  end.

(** ** Further invariants of the tables *)

(** Names are unique within a gathering. *)
Definition names_unique (db : Store) : Prop :=
  forall gathering_id, NoDup (map MemberRow.name (members_of db gathering_id)).

(** Every expense and every payment belongs to a member that exists. *)
Definition expenses_owned (db : Store) : Prop :=
  forall e, In e (expenses db) ->
    exists m, In m (members db) /\ MemberRow.id m = Expense.member_id e.

Definition payments_owned (db : Store) : Prop :=
  forall p, In p (payments db) ->
    exists m, In m (members db) /\ MemberRow.id m = Payment.member_id p.

Record tables_ok (db : Store) : Prop := {
  tb_references : references_ok db;
  tb_keys : keys_unique db;
  tb_names : names_unique db;
  tb_expenses : expenses_owned db;
  tb_payments : payments_owned db
}.

(** The errors that no caller can provoke: the look-ups after a commit and
    the division. *)
Definition internal_error (e : Error) : bool :=
  match e with
  | MemberLost | NoneDereference | ZeroDivision => true
  | _ => false
  end.

(** One row under [update_member_name]. *)
Definition rename_row (k : Z) (new_name : string) (m : MemberRow.t) : MemberRow.t :=
  if MemberRow.id m =? k
  then MemberRow.mk (MemberRow.id m) new_name (MemberRow.gathering_id m) else m.
(** No two rows of [gatherings] share an id: the primary key. *)
Definition gathering_ids_unique (db : Store) : Prop :=
  NoDup (map GatheringRow.id (gatherings db)).


(** * Verified properties *)

(** ** The ledger *)

Section Sums.





End Sums.


Lemma expense_per_member_zero (g : Gathering.t) :
  Gathering.total_members g = 0 -> Gathering.expense_per_member g = Ok 0%Q.
Proof.
  intros H. unfold Gathering.expense_per_member. rewrite H. reflexivity.
Qed.

Lemma expense_per_member_nonzero (g : Gathering.t) :
  Gathering.total_members g <> 0 ->
  Gathering.expense_per_member g
  = Ok (Gathering.total_expenses g / inject_Z (Gathering.total_members g))%Q.
Proof.
  intros H. unfold Gathering.expense_per_member, truediv.
  destruct (Z.eqb_spec (Gathering.total_members g) 0) as [E|_]; [contradiction|].
  reflexivity.
Qed.



Lemma expense_per_member_total (g : Gathering.t) :
  exists e, Gathering.expense_per_member g = Ok e.
Proof.
  destruct (Z.eq_dec (Gathering.total_members g) 0) as [E|E].
  - eexists. apply (expense_per_member_zero g E).
  - eexists. apply (expense_per_member_nonzero g E).
Qed.

(** What the two views add up to: twice the member's payments. *)
Lemma to_pay_plus_balance (g : Gathering.t) (m : Member.t) (e b : Q) :
  Gathering.expense_per_member g = Ok e ->
  member_balance m g = Ok b ->
  (e - Member.total_expenses m + Member.total_payments m + b
   == 2 * Member.total_payments m)%Q.
Proof.
  intros He Hb. unfold member_balance in Hb. rewrite He in Hb. simpl in Hb.
  injection Hb as <-. ring.
Qed.

(** *** Balances over binary64 *)











(** C1 (evaluation at the failing input). Two members, Roy has spent 100 and
    the other member has paid the share of 50 into the pool.  That member's
    balance is 0, yet [calculate_reimbursements] reports 100 still to pay:
    the reimbursement is not the negated balance. *)
Theorem reimbursement_after_payment :
  exists g m d to_pay balance,
    get_gathering dinner_store dinner = Some g
    /\ find_member g "member0002" = Some m
    /\ (Member.total_payments m == 50)%Q
    /\ member_balance m g = Ok balance /\ (balance == 0)%Q
    /\ calculate_reimbursements dinner_store dinner = Ok d
    /\ dict_get d "member0002" = Some to_pay /\ (to_pay == 100)%Q
    /\ ~ reimbursement_negates_balance g m.
Proof.
  do 5 eexists.
  split; [vm_compute; reflexivity|].
  split; [vm_compute; reflexivity|].
  split; [vm_compute; reflexivity|].
  split; [vm_compute; reflexivity|].
  split; [vm_compute; reflexivity|].
  split; [vm_compute; reflexivity|].
  split; [vm_compute; reflexivity|].
  split; [vm_compute; reflexivity|].
  intros [d [t [b [Hd [Ht [Hb Heq]]]]]].
  vm_compute in Hd. injection Hd as <-.
  vm_compute in Ht. injection Ht as <-.
  vm_compute in Hb. injection Hb as <-.
  vm_compute in Heq. discriminate.
Qed.

(** Where the two views do agree: a member without payments. *)
Lemma to_pay_negates_balance_without_payments (g : Gathering.t) (m : Member.t) (e b : Q) :
  Gathering.expense_per_member g = Ok e ->
  member_balance m g = Ok b ->
  Member.payments m = [] ->
  (e - Member.total_expenses m + Member.total_payments m == - b)%Q.
Proof.
  intros He Hb Hp.
  pose proof (to_pay_plus_balance g m e b He Hb) as H.
  assert (Hz : Member.total_payments m = 0%Q).
  { unfold Member.total_payments. rewrite Hp. reflexivity. }
  rewrite Hz in *. lra.
Qed.

(** C6. Scenario A: a gathering of five, then expenses of 50, 100 and 50
    naming Roy, David and Felix.  Every call returns; the first expense
    renames [member0001] to Roy in place; total expenses are 200, the share
    is 40, and the reimbursements are -10, -60, -10 for Roy, David and Felix
    and +40 for each of the two remaining placeholders. *)
Theorem scenario_A :
  let r1 := create_gathering empty_store friendsbeer 5 in
  let r2 := add_expense (fst r1) friendsbeer "Roy" 50 in
  let r3 := add_expense (fst r2) friendsbeer "David" 100 in
  let r4 := add_expense (fst r3) friendsbeer "Felix" 50 in
  is_ok (snd r1) = true /\ is_ok (snd r2) = true
  /\ is_ok (snd r3) = true /\ is_ok (snd r4) = true
  /\ map MemberRow.name (members (fst r1))
     = ["member0001"; "member0002"; "member0003"; "member0004"; "member0005"]
  /\ map MemberRow.name (members (fst r2))
     = ["Roy"; "member0002"; "member0003"; "member0004"; "member0005"]
  /\ exists g e d,
       get_gathering (fst r4) friendsbeer = Some g
       /\ (Gathering.total_expenses g == 200)%Q
       /\ Gathering.expense_per_member g = Ok e /\ (e == 40)%Q
       /\ calculate_reimbursements (fst r4) friendsbeer = Ok d
       /\ map fst d = ["Roy"; "David"; "Felix"; "member0004"; "member0005"]
       /\ Forall2 Qeq (map snd d) [-10; -60; -10; 40; 40]%Q.
Proof.
  cbv zeta.
  repeat (split; [vm_compute; reflexivity|]).
  do 3 eexists.
  repeat (split; [vm_compute; reflexivity|]).
  vm_compute map. repeat constructor.
Qed.


(** ** Queries *)

Section ListFacts.

Context {A B : Type}.

Lemma find_map (p : B -> bool) (f : A -> B) (l : list A) :
  find p (map f l) = option_map f (find (fun x => p (f x)) l).
Proof.
  induction l as [|x l IH]; simpl; [reflexivity|].
  destruct (p (f x)); [reflexivity|exact IH].
Qed.

Lemma find_filter (p q : A -> bool) (l : list A) :
  find q (filter p l) = find (fun x => p x && q x) l.
Proof.
  induction l as [|x l IH]; simpl; [reflexivity|].
  destruct (p x); simpl; [|exact IH].
  destruct (q x); [reflexivity|exact IH].
Qed.

Lemma find_ext (p q : A -> bool) (l : list A) :
  (forall x, In x l -> p x = q x) -> find p l = find q l.
Proof.
  induction l as [|x l IH]; simpl; intros H; [reflexivity|].
  rewrite (H x (or_introl eq_refl)).
  destruct (q x); [reflexivity|]. apply IH. intros y Hy. apply H. right. exact Hy.
Qed.

Lemma filter_negb_none (p : A -> bool) (l : list A) :
  filter p l = [] -> filter (fun x => negb (p x)) l = l.
Proof.
  induction l as [|x l IH]; simpl; [reflexivity|].
  destruct (p x); simpl; [discriminate|].
  intros H. rewrite (IH H). reflexivity.
Qed.

End ListFacts.

Lemma query_gathering_some (db : Store) (gid : string) (g : GatheringRow.t) :
  query_gathering db gid = Some g -> In g (gatherings db) /\ GatheringRow.id g = gid.
Proof.
  intros H. apply find_some in H. destruct H as [Hin Heq].
  split; [exact Hin|]. apply String.eqb_eq. exact Heq.
Qed.

Lemma query_member_some (db : Store) (gid name : string) (m : MemberRow.t) :
  query_member db gid name = Some m ->
  In m (members db) /\ MemberRow.gathering_id m = gid /\ MemberRow.name m = name.
Proof.
  intros H. apply find_some in H. destruct H as [Hin Heq].
  apply andb_true_iff in Heq. destruct Heq as [H1 H2].
  apply String.eqb_eq in H1. apply String.eqb_eq in H2. auto.
Qed.

Lemma positive_amount (amount : Q) : (0 < amount)%Q -> Qle_bool amount 0 = false.
Proof.
  intros H. destruct (Qle_bool amount 0) eqn:E; [|reflexivity].
  apply Qle_bool_iff in E. exfalso. apply (Qlt_not_le _ _ H E).
Qed.

(** The member looked up by name in the reloaded gathering is the row that
    the store holds under that name. *)
Lemma reload_ok (db : Store) (gid name : string) (g : GatheringRow.t) (m : MemberRow.t) :
  query_gathering db gid = Some g ->
  query_member db gid name = Some m ->
  exists G, get_gathering db gid = Some G
            /\ reload db gid name = Ok (G, load_member db m).
Proof.
  intros Hg Hm. unfold reload, get_gathering. rewrite Hg.
  destruct (query_gathering_some _ _ _ Hg) as [_ Hid].
  eexists. split; [reflexivity|].
  unfold find_member. simpl Gathering.members.
  rewrite find_map. simpl Member.name. unfold members_of. rewrite find_filter.
  rewrite Hid. unfold query_member in Hm. rewrite Hm. reflexivity.
Qed.

(** ** The lifecycle guard *)

(** C7 (as amended). On a closed gathering [record_payment],
    [rename_member], [add_member] and [remove_member] fail with
    GatheringClosed, and so does [add_expense] when the amount is positive;
    [add_expense] with an amount that is not positive fails with
    InvalidAmount, the amount being checked first.  In every case the store
    is left as it was. *)
Theorem closed_gathering_is_guarded (db : Store) (gid : string) (g : GatheringRow.t) :
  query_gathering db gid = Some g ->
  GatheringRow.status g = CLOSED ->
  (forall name amount, (0 < amount)%Q ->
     add_expense db gid name amount = (db, Err GatheringClosed))
  /\ (forall name amount, (amount <= 0)%Q ->
        add_expense db gid name amount = (db, Err InvalidAmount))
  /\ (forall name amount, record_payment db gid name amount = (db, Err GatheringClosed))
  /\ (forall old_name new_name,
        rename_member db gid old_name new_name = (db, Err GatheringClosed))
  /\ (forall name, add_member db gid name = (db, Err GatheringClosed))
  /\ (forall name, remove_member db gid name = (db, Err GatheringClosed)).
Proof.
  intros Hg Hc.
  repeat split; intros.
  - unfold add_expense. rewrite (positive_amount _ H), Hg, Hc. reflexivity.
  - unfold add_expense. apply Qle_bool_iff in H. rewrite H. reflexivity.
  - unfold record_payment. rewrite Hg, Hc. reflexivity.
  - unfold rename_member. rewrite Hg, Hc. reflexivity.
  - unfold add_member. rewrite Hg, Hc. reflexivity.
  - unfold remove_member. rewrite Hg, Hc. reflexivity.
Qed.

Lemma closed_gathering_is_guarded_witness :
  add_expense closed_store dinner "Roy" 50 = (closed_store, Err GatheringClosed)
  /\ add_expense closed_store dinner "Roy" 0 = (closed_store, Err InvalidAmount)
  /\ record_payment closed_store dinner "member0001" 50 = (closed_store, Err GatheringClosed).
Proof.
  pose proof (closed_gathering_is_guarded closed_store dinner
                (GatheringRow.mk dinner 2 CLOSED) eq_refl eq_refl) as H.
  split; [|split].
  - apply (proj1 H). reflexivity.
  - apply (proj1 (proj2 H)). discriminate.
  - apply (proj1 (proj2 (proj2 H))).
Defined.

(** C7 (counterexample). On a closed gathering, [add_expense] with amount 0
    fails with InvalidAmount, not with GatheringClosed. *)
Lemma closed_guard_is_not_first :
  query_gathering closed_store dinner = Some (GatheringRow.mk dinner 2 CLOSED)
  /\ ~ guarded_when_closed closed_store dinner.
Proof.
  split; [vm_compute; reflexivity|].
  intros [H _]. specialize (H "Roy" 0%Q).
  vm_compute in H. discriminate.
Qed.

(** ** Row updates *)

Lemma query_after_update_same (db : Store) (gid : string) (g : GatheringRow.t)
  (F : GatheringRow.t -> GatheringRow.t) :
  (forall x, GatheringRow.id (F x) = GatheringRow.id x) ->
  query_gathering db gid = Some g ->
  find (fun x => String.eqb (GatheringRow.id x) gid) (update_gathering db gid F) = Some (F g).
Proof.
  intros HF Hg. unfold update_gathering. rewrite find_map.
  rewrite (find_ext _ (fun x => String.eqb (GatheringRow.id x) gid)).
  - unfold query_gathering in Hg. rewrite Hg. simpl.
    destruct (query_gathering_some _ _ _ Hg) as [_ Hid].
    rewrite Hid, String.eqb_refl. reflexivity.
  - intros x _. destruct (String.eqb (GatheringRow.id x) gid) eqn:E; [|exact E].
    rewrite HF. exact E.
Qed.

Lemma query_after_update_other (db : Store) (gid gid' : string)
  (F : GatheringRow.t -> GatheringRow.t) :
  (forall x, GatheringRow.id (F x) = GatheringRow.id x) ->
  gid' <> gid ->
  find (fun x => String.eqb (GatheringRow.id x) gid') (update_gathering db gid F)
  = query_gathering db gid'.
Proof.
  intros HF Hne. unfold update_gathering, query_gathering. rewrite find_map.
  rewrite (find_ext _ (fun x => String.eqb (GatheringRow.id x) gid')).
  - destruct (find _ (gatherings db)) as [x|] eqn:E; [|reflexivity]. simpl.
    apply find_some in E. destruct E as [_ E]. apply String.eqb_eq in E.
    destruct (String.eqb_spec (GatheringRow.id x) gid) as [E'|_]; [|reflexivity].
    congruence.
  - intros x _. destruct (String.eqb (GatheringRow.id x) gid); [|reflexivity].
    rewrite HF. reflexivity.
Qed.

Lemma filter_key_absent (l : list MemberRow.t) (k : Z) :
  ~ In k (map MemberRow.id l) ->
  filter (fun x => negb (MemberRow.id x =? k)) l = l.
Proof.
  induction l as [|x l IH]; simpl; intros H; [reflexivity|].
  destruct (Z.eqb_spec (MemberRow.id x) k) as [E|E]; simpl.
  - exfalso. apply H. left. exact E.
  - rewrite IH; [reflexivity|]. intros Hin. apply H. right. exact Hin.
Qed.

(** Deleting by a unique key removes one row and nothing else. *)
Lemma filter_key_unique (l : list MemberRow.t) (m : MemberRow.t) :
  NoDup (map MemberRow.id l) -> In m l ->
  exists l1 l2, l = (l1 ++ m :: l2)%list
                /\ filter (fun x => negb (MemberRow.id x =? MemberRow.id m)) l = (l1 ++ l2)%list.
Proof.
  induction l as [|x l IH]; simpl; intros Hnd Hin; [contradiction|].
  inversion Hnd as [|? ? Hx Hl]; subst.
  destruct Hin as [->|Hin].
  - exists [], l. rewrite Z.eqb_refl. simpl.
    split; [reflexivity|]. apply filter_key_absent. exact Hx.
  - destruct (IH Hl Hin) as [l1 [l2 [E1 E2]]].
    exists (x :: l1), l2.
    destruct (Z.eqb_spec (MemberRow.id x) (MemberRow.id m)) as [E|E]; simpl.
    + exfalso. apply Hx. rewrite E. apply in_map. exact Hin.
    + rewrite E1 at 1. rewrite E2. split; reflexivity.
Qed.

Lemma no_rows_count {A : Type} (l : list A) : (0 <? List.length l)%nat = false <-> l = [].
Proof.
  destruct l; simpl; split; intros H; try reflexivity; discriminate.
Qed.

(** ** [remove_member] *)



(** ** [add_expense]: resolving the member *)

Lemma add_expense_existing (db : Store) (gid name : string) (amount : Q)
  (g : GatheringRow.t) (m : MemberRow.t) :
  query_gathering db gid = Some g ->
  GatheringRow.status g = OPEN ->
  (0 < amount)%Q ->
  query_member db gid name = Some m ->
  let db' := with_expense db (members db) (MemberRow.id m) amount in
  exists G, get_gathering db' gid = Some G
            /\ add_expense db gid name amount = (db', Ok (G, load_member db' m)).
Proof.
  intros Hg Ho Ha Hm db'.
  destruct (reload_ok db' gid name g m Hg Hm) as [G [HG Hr]].
  exists G. split; [exact HG|].
  unfold add_expense. rewrite (positive_amount _ Ha), Hg, Ho, Hm. simpl.
  fold (with_expense db (members db) (MemberRow.id m) amount). fold db'.
  rewrite Hr. reflexivity.
Qed.

Lemma unnamed_member_in (db : Store) (gid : string) (p : MemberRow.t) (rest : list MemberRow.t) :
  query_unnamed_members db gid = p :: rest ->
  In p (members db) /\ MemberRow.gathering_id p = gid /\ like_member (MemberRow.name p) = true.
Proof.
  intros H.
  assert (Hin : In p (query_unnamed_members db gid)) by (rewrite H; left; reflexivity).
  unfold query_unnamed_members in Hin. apply filter_In in Hin.
  destruct Hin as [Hin Hp]. apply andb_true_iff in Hp. destruct Hp as [H1 H2].
  apply String.eqb_eq in H1. auto.
Qed.

(** After the rename, the row found under the new name is the renamed row. *)
Lemma query_member_renamed (db : Store) (gid name : string) (p : MemberRow.t) :
  query_member db gid name = None ->
  In p (members db) ->
  MemberRow.gathering_id p = gid ->
  find (fun m => String.eqb (MemberRow.gathering_id m) gid
                 && String.eqb (MemberRow.name m) name)
       (update_member_name db (MemberRow.id p) name)
  = Some (MemberRow.mk (MemberRow.id p) name gid).
Proof.
  intros Hnone Hin Hgid. unfold update_member_name. rewrite find_map.
  set (P := fun x : MemberRow.t => _ && _).
  assert (HP : forall x, In x (members db) ->
                P x = (MemberRow.id x =? MemberRow.id p)
                      && String.eqb (MemberRow.gathering_id x) gid).
  { intros x Hx. unfold P.
    destruct (Z.eqb_spec (MemberRow.id x) (MemberRow.id p)) as [E|E]; simpl.
    - rewrite String.eqb_refl. apply andb_true_r.
    - apply (find_none _ _ Hnone x Hx). }
  destruct (find P (members db)) as [r|] eqn:Er.
  - apply find_some in Er. destruct Er as [Hr HPr].
    rewrite (HP r Hr) in HPr. apply andb_true_iff in HPr. destruct HPr as [H1 H2].
    apply Z.eqb_eq in H1. apply String.eqb_eq in H2.
    simpl. rewrite H1, Z.eqb_refl, H2. reflexivity.
  - exfalso. pose proof (find_none _ _ Er p Hin) as H.
    rewrite (HP p Hin), Z.eqb_refl, Hgid, String.eqb_refl in H. discriminate.
Qed.

Lemma add_expense_rename (db : Store) (gid name : string) (amount : Q)
  (g : GatheringRow.t) (p : MemberRow.t) (rest : list MemberRow.t) :
  query_gathering db gid = Some g ->
  GatheringRow.status g = OPEN ->
  (0 < amount)%Q ->
  query_member db gid name = None ->
  query_unnamed_members db gid = p :: rest ->
  let db' := with_expense db (update_member_name db (MemberRow.id p) name)
                          (MemberRow.id p) amount in
  exists G, get_gathering db' gid = Some G
            /\ add_expense db gid name amount
               = (db', Ok (G, load_member db' (MemberRow.mk (MemberRow.id p) name gid))).
Proof.
  intros Hg Ho Ha Hm Hu db'.
  destruct (unnamed_member_in _ _ _ _ Hu) as [Hin [Hgid _]].
  pose proof (query_member_renamed db gid name p Hm Hin Hgid) as Hq.
  destruct (reload_ok db' gid name g _ Hg Hq) as [G [HG Hr]].
  exists G. split; [exact HG|].
  unfold add_expense. rewrite (positive_amount _ Ha), Hg, Ho, Hm, Hu. simpl.
  fold (with_expense db (update_member_name db (MemberRow.id p) name) (MemberRow.id p) amount).
  fold db'. rewrite Hr. reflexivity.
Qed.

Lemma add_expense_unresolved (db : Store) (gid name : string) (amount : Q) (g : GatheringRow.t) :
  query_gathering db gid = Some g ->
  GatheringRow.status g = OPEN ->
  (0 < amount)%Q ->
  query_member db gid name = None ->
  query_unnamed_members db gid = [] ->
  add_expense db gid name amount = (db, Err MemberNotFound).
Proof.
  intros Hg Ho Ha Hm Hu.
  unfold add_expense. rewrite (positive_amount _ Ha), Hg, Ho, Hm, Hu. reflexivity.
Qed.

Lemma expenses_of_with_expense (db : Store) (ms : list MemberRow.t) (k : Z) (amount : Q) :
  expenses_of (with_expense db ms k amount) k
  = (expenses_of db k
     ++ [Expense.mk (next_id (map Expense.id (expenses db))) k amount])%list.
Proof.
  unfold expenses_of, with_expense. simpl. rewrite filter_app. simpl.
  rewrite Z.eqb_refl. reflexivity.
Qed.

Section FirstMatch.

Context {A : Type} (P : A -> bool).

Lemma find_first (before after : list A) (a : A) :
  P a = true -> (forall x, In x before -> P x = false) ->
  find P (before ++ a :: after) = Some a.
Proof.
  intros Ha Hb. induction before as [|x before IH]; cbn [List.app find].
  - rewrite Ha. reflexivity.
  - rewrite (Hb x (or_introl eq_refl)). apply IH.
    intros y Hy. apply Hb. right. exact Hy.
Qed.

Lemma filter_first (before after : list A) (a : A) :
  P a = true -> (forall x, In x before -> P x = false) ->
  filter P (before ++ a :: after) = a :: filter P after.
Proof.
  intros Ha Hb. induction before as [|x before IH]; cbn [List.app filter].
  - rewrite Ha. reflexivity.
  - rewrite (Hb x (or_introl eq_refl)). apply IH.
    intros y Hy. apply Hb. right. exact Hy.
Qed.

Lemma find_nowhere (l : list A) :
  (forall x, In x l -> P x = false) -> find P l = None.
Proof.
  intros H. induction l as [|x l IH]; cbn [find]; [reflexivity|].
  rewrite (H x (or_introl eq_refl)). apply IH.
  intros y Hy. apply H. right. exact Hy.
Qed.

End FirstMatch.

(** The two tests of the resolver, on a row. *)
Lemma named_row (gid name : string) (x : MemberRow.t) :
  String.eqb (MemberRow.gathering_id x) gid && String.eqb (MemberRow.name x) name = true
  <-> MemberRow.gathering_id x = gid /\ MemberRow.name x = name.
Proof.
  rewrite andb_true_iff, !String.eqb_eq. reflexivity.
Qed.

Lemma unnamed_row (gid : string) (x : MemberRow.t) :
  String.eqb (MemberRow.gathering_id x) gid && like_member (MemberRow.name x) = true
  <-> MemberRow.gathering_id x = gid /\ like_member (MemberRow.name x) = true.
Proof.
  rewrite andb_true_iff, String.eqb_eq. reflexivity.
Qed.

Lemma not_true_false (b : bool) : ~ b = true -> b = false.
Proof. destruct b; [intros H; exfalso; apply H; reflexivity|reflexivity]. Qed.

(** Renaming by a key that one row holds changes that row only. *)
Lemma update_member_name_at (db : Store) (before after : list MemberRow.t)
  (p : MemberRow.t) (new_name : string) :
  keys_unique db ->
  members db = (before ++ p :: after)%list ->
  update_member_name db (MemberRow.id p) new_name
  = (before ++ MemberRow.mk (MemberRow.id p) new_name (MemberRow.gathering_id p) :: after)%list.
Proof.
  unfold keys_unique, update_member_name. intros Hk E. rewrite E in Hk |- *.
  rewrite map_app in Hk. cbn [map] in Hk.
  pose proof (NoDup_remove_2 _ _ _ Hk) as Hfresh.
  rewrite map_app. cbn [map]. rewrite Z.eqb_refl.
  assert (Hsame : forall l, (forall x, In x l -> MemberRow.id x <> MemberRow.id p) ->
            map (fun m => if MemberRow.id m =? MemberRow.id p
                          then MemberRow.mk (MemberRow.id m) new_name (MemberRow.gathering_id m)
                          else m) l = l).
  { induction l as [|x l IH]; intros H; cbn [map]; [reflexivity|].
    destruct (Z.eqb_spec (MemberRow.id x) (MemberRow.id p)) as [Ex|_].
    - exfalso. apply (H x (or_introl eq_refl)). exact Ex.
    - rewrite IH; [reflexivity|]. intros y Hy. apply H. right. exact Hy. }
  rewrite (Hsame before), (Hsame after); [reflexivity| |].
  - intros x Hx Ex. apply Hfresh. apply in_app_iff. right.
    rewrite <- Ex. apply in_map. exact Hx.
  - intros x Hx Ex. apply Hfresh. apply in_app_iff. left.
    rewrite <- Ex. apply in_map. exact Hx.
Qed.

(** C4 (as amended). On an open gathering and with a positive amount,
    [add_expense] books the expense on the first row of the gathering that
    carries exactly that name, when there is one, and changes no other row.
    Otherwise it takes the first row of the members table, in the order of
    the table, that belongs to the gathering and whose name matches
    [member%]: that row, and no other, gets [member_name] as its name, and
    the expense is booked on it.  Otherwise it fails with MemberNotFound
    and leaves the store as it was.  The member returned carries the name,
    the key of that row and, in some order, its earlier expenses and the
    new one. *)
Theorem add_expense_resolves_member (db : Store) (gid name : string) (amount : Q)
  (g : GatheringRow.t) :
  keys_unique db ->
  query_gathering db gid = Some g ->
  GatheringRow.status g = OPEN ->
  (0 < amount)%Q ->
  let expense k := Expense.mk (next_id (map Expense.id (expenses db))) k amount in
  let named x := MemberRow.gathering_id x = gid /\ MemberRow.name x = name in
  let unnamed x := MemberRow.gathering_id x = gid /\ like_member (MemberRow.name x) = true in
  (forall before m after,
     members db = (before ++ m :: after)%list ->
     named m -> (forall x, In x before -> ~ named x) ->
     exists G M,
       add_expense db gid name amount
       = (mkStore (gatherings db) (members db)
                  (expenses db ++ [expense (MemberRow.id m)]) (payments db),
          Ok (G, M))
       /\ Member.id M = MemberRow.id m /\ Member.name M = name
       /\ Permutation (Member.expenses M)
                      (expense (MemberRow.id m) :: expenses_of db (MemberRow.id m)))
  /\ (forall before p after,
        members db = (before ++ p :: after)%list ->
        (forall x, In x (members db) -> ~ named x) ->
        unnamed p -> (forall x, In x before -> ~ unnamed x) ->
        exists G M,
          add_expense db gid name amount
          = (mkStore (gatherings db)
                     (before ++ MemberRow.mk (MemberRow.id p) name gid :: after)
                     (expenses db ++ [expense (MemberRow.id p)]) (payments db),
             Ok (G, M))
          /\ Member.id M = MemberRow.id p /\ Member.name M = name
          /\ Permutation (Member.expenses M)
                         (expense (MemberRow.id p) :: expenses_of db (MemberRow.id p)))
  /\ ((forall x, In x (members db) -> ~ named x /\ ~ unnamed x) ->
      add_expense db gid name amount = (db, Err MemberNotFound)).
Proof.
  intros Hk Hg Ho Ha expense named unnamed.
  split; [|split].
  - intros before m after E Hm Hfirst.
    assert (Hq : query_member db gid name = Some m).
    { unfold query_member. rewrite E. apply find_first.
      - apply named_row. exact Hm.
      - intros x Hx. apply not_true_false. intros H. apply (Hfirst x Hx).
        apply named_row. exact H. }
    destruct (add_expense_existing db gid name amount g m Hg Ho Ha Hq) as [G [_ Ex]].
    eexists G, _. split; [exact Ex|]. cbn [load_member Member.id Member.name Member.expenses].
    split; [reflexivity|]. split; [exact (proj2 Hm)|].
    rewrite (expenses_of_with_expense db (members db) (MemberRow.id m) amount).
    apply Permutation_sym, Permutation_cons_append.
  - intros before p after E Hnone Hp Hfirst.
    assert (Hq : query_member db gid name = None).
    { unfold query_member. apply find_nowhere. intros x Hx. apply not_true_false.
      intros H. apply (Hnone x Hx). apply named_row. exact H. }
    assert (Hu : query_unnamed_members db gid
                 = p :: filter (fun m => String.eqb (MemberRow.gathering_id m) gid
                                         && like_member (MemberRow.name m)) after).
    { unfold query_unnamed_members. rewrite E. apply filter_first.
      - apply unnamed_row. exact Hp.
      - intros x Hx. apply not_true_false. intros H. apply (Hfirst x Hx).
        apply unnamed_row. exact H. }
    destruct (add_expense_rename db gid name amount g p _ Hg Ho Ha Hq Hu) as [G [_ Ex]].
    exists G, (load_member (with_expense db (update_member_name db (MemberRow.id p) name)
                                         (MemberRow.id p) amount)
                           (MemberRow.mk (MemberRow.id p) name gid)).
    split.
    + rewrite Ex. unfold with_expense at 1.
      rewrite (update_member_name_at db before after p name Hk E), (proj1 Hp).
      reflexivity.
    + cbn [load_member Member.id Member.name Member.expenses MemberRow.id MemberRow.name].
      split; [reflexivity|]. split; [reflexivity|].
      rewrite (expenses_of_with_expense db (update_member_name db (MemberRow.id p) name)
                 (MemberRow.id p) amount).
      apply Permutation_sym, Permutation_cons_append.
  - intros Hnone.
    apply (add_expense_unresolved db gid name amount g Hg Ho Ha).
    + unfold query_member. apply find_nowhere. intros x Hx. apply not_true_false.
      intros H. apply (proj1 (Hnone x Hx)). apply named_row. exact H.
    + destruct (query_unnamed_members db gid) as [|p rest] eqn:Hu; [reflexivity|].
      destruct (unnamed_member_in _ _ _ _ Hu) as [Hin [Hgid Hlike]].
      exfalso. apply (proj2 (Hnone p Hin)). split; assumption.
Qed.

Lemma add_expense_resolves_member_witness :
  exists G M,
    add_expense open_store dinner "Roy" 10
    = (mkStore [GatheringRow.mk dinner 2 OPEN]
               [MemberRow.mk 1 "Roy" dinner; MemberRow.mk 2 "member0002" dinner]
               [Expense.mk 1 1 10] [],
       Ok (G, M))
    /\ Member.id M = 1 /\ Member.name M = "Roy".
Proof.
  assert (Hk : keys_unique open_store).
  { unfold keys_unique. vm_compute. repeat constructor; simpl; intuition discriminate. }
  pose proof (add_expense_resolves_member open_store dinner "Roy" 10
                (GatheringRow.mk dinner 2 OPEN) Hk eq_refl eq_refl eq_refl) as H.
  destruct (proj1 (proj2 H) [] (MemberRow.mk 1 "member0001" dinner)
              [MemberRow.mk 2 "member0002" dinner] eq_refl)
    as [G [M [E [H1 [H2 _]]]]].
  - intros x Hx [_ Hn].
    destruct Hx as [<-|[<-|[]]]; discriminate.
  - split; reflexivity.
  - intros x [].
  - exists G, M. split; [exact E|]. split; [exact H1|exact H2].
Defined.

(** C4 (counterexample). With the rows [member0002], [member0001] in that
    order, the lowest numeric suffix is that of [member0001], but
    [add_expense] renames [member0002], the first row. *)
Lemma first_row_not_lowest_suffix :
  map MemberRow.name (members reordered_store) = ["member0002"; "member0001"]
  /\ lowest_suffix_placeholder reordered_store dinner
     = Some (MemberRow.mk 3 "member0001" dinner)
  /\ map MemberRow.name (members (fst (add_expense reordered_store dinner "Roy" 10)))
     = ["Roy"; "member0001"]
  /\ ~ renames_lowest_suffix reordered_store dinner "Roy" 10.
Proof.
  split; [vm_compute; reflexivity|].
  split; [vm_compute; reflexivity|].
  split; [vm_compute; reflexivity|].
  intros H. specialize (H (MemberRow.mk 3 "member0001" dinner)).
  vm_compute in H. specialize (H eq_refl). discriminate.
Qed.

(** ** Placeholder names and the [LIKE] pattern *)

Lemma prefix_like_prefix (p s : string) :
  String.prefix p s = true -> like_prefix p s = true.
Proof.
  revert s. induction p as [|a p IH]; intros s H; simpl; [reflexivity|].
  destruct s as [|c s]; simpl in H; [discriminate|].
  destruct (ascii_dec a c) as [->|]; [|discriminate].
  rewrite Ascii.eqb_refl. simpl. apply IH. exact H.
Qed.

Lemma string_of_uint_digit (u : Decimal.uint) :
  match NilEmpty.string_of_uint u with
  | EmptyString => True
  | String c _ => is_digit c = true
  end.
Proof.
  destruct u; simpl; auto.
Qed.

Lemma format_04d_digit (i : nat) :
  exists c r, format_04d i = String c r /\ is_digit c = true.
Proof.
  unfold format_04d.
  pose proof (string_of_uint_digit (Nat.to_uint i)) as H.
  destruct (NilEmpty.string_of_uint (Nat.to_uint i)) as [|a [|b [|c [|d r]]]];
    unfold zfill4; simpl; eauto.
Qed.

(** A generated name has a digit right after [member]. *)
Lemma placeholder_name_digit (i : nat) :
  exists c r, placeholder_name i = ("member" ++ String c r)%string /\ is_digit c = true.
Proof.
  destruct (format_04d_digit i) as [c [r [E H]]].
  exists c, r. unfold placeholder_name. rewrite E. split; [reflexivity|exact H].
Qed.

(** C10. Placeholder detection only looks at the prefix.  If an open
    gathering holds a member whose chosen name begins with [member], holds
    no member with a generated name, and holds no member called
    [member_name], then [add_expense] with a positive amount does not fail
    with MemberNotFound: it renames a member that is not a placeholder (the
    first row matching [member%]; the given member when it is the only match)
    to [member_name] and records the expense against it. *)
Theorem prefix_match_renames_real_member (db : Store) (gid name : string) (amount : Q)
  (g : GatheringRow.t) (m : MemberRow.t) :
  query_gathering db gid = Some g ->
  GatheringRow.status g = OPEN ->
  (0 < amount)%Q ->
  query_member db gid name = None ->
  In m (members_of db gid) ->
  String.prefix "member" (MemberRow.name m) = true ->
  (forall m', In m' (members_of db gid) -> forall i, MemberRow.name m' <> placeholder_name i) ->
  exists p rest G M,
    query_unnamed_members db gid = p :: rest
    /\ In p (members_of db gid)
    /\ (forall i, MemberRow.name p <> placeholder_name i)
    /\ add_expense db gid name amount
       = (with_expense db (update_member_name db (MemberRow.id p) name) (MemberRow.id p) amount,
          Ok (G, M))
    /\ Member.id M = MemberRow.id p /\ Member.name M = name
    /\ ((forall m', In m' (members_of db gid) ->
                    like_member (MemberRow.name m') = true -> m' = m) -> p = m).
Proof.
  intros Hg Ho Ha Hm Hin Hpre Hnone.
  assert (Hmu : In m (query_unnamed_members db gid)).
  { unfold members_of in Hin. apply filter_In in Hin. destruct Hin as [Hin Hgid].
    unfold query_unnamed_members. apply filter_In. split; [exact Hin|].
    rewrite Hgid. simpl. apply prefix_like_prefix. exact Hpre. }
  destruct (query_unnamed_members db gid) as [|p rest] eqn:Hu; [contradiction|].
  destruct (unnamed_member_in _ _ _ _ Hu) as [Hp [Hpg Hpl]].
  assert (Hpin : In p (members_of db gid)).
  { unfold members_of. apply filter_In. split; [exact Hp|].
    rewrite Hpg. apply String.eqb_refl. }
  destruct (add_expense_rename db gid name amount g p rest Hg Ho Ha Hm Hu) as [G [_ E]].
  exists p, rest, G. eexists.
  split; [reflexivity|]. split; [exact Hpin|].
  split; [apply (Hnone p Hpin)|].
  split; [exact E|]. simpl.
  split; [reflexivity|]. split; [reflexivity|].
  intros Honly. apply (Honly p Hpin Hpl).
Qed.

Lemma prefix_match_renames_real_member_witness :
  exists G M,
    add_expense staff_store dinner "Roy" 25
    = (with_expense staff_store (update_member_name staff_store 1 "Roy") 1 25, Ok (G, M))
    /\ Member.id M = 1 /\ Member.name M = "Roy".
Proof.
  assert (Hreal : forall m', In m' (members_of staff_store dinner) ->
                  forall i, MemberRow.name m' <> placeholder_name i).
  { intros m' [<-|[]] i E. simpl in E.
    destruct (placeholder_name_digit i) as [c [r [E' Hc]]].
    rewrite E' in E. simpl in E. injection E as <- _. discriminate. }
  destruct (prefix_match_renames_real_member staff_store dinner "Roy" 25
              (GatheringRow.mk dinner 1 OPEN)
              (MemberRow.mk 1 "membership-secretary" dinner)
              eq_refl eq_refl eq_refl eq_refl (or_introl eq_refl) eq_refl Hreal)
    as [p [rest [G [M [Hu [_ [_ [E [H1 [H2 _]]]]]]]]]].
  vm_compute in Hu. injection Hu as <- <-.
  exists G, M. split; [exact E|]. split; [exact H1|exact H2].
Defined.

(** ** The invariant [total_members = number of members] *)

Section TableFacts.

Lemma length_filter_map {A B : Type} (p : B -> bool) (f : A -> B) (l : list A) :
  List.length (filter p (map f l)) = List.length (filter (fun x => p (f x)) l).
Proof.
  induction l as [|x l IH]; simpl; [reflexivity|].
  destruct (p (f x)); simpl; rewrite IH; reflexivity.
Qed.

Lemma filter_twice {A : Type} (p q : A -> bool) (l : list A) :
  filter p (filter q l) = filter (fun x => q x && p x) l.
Proof.
  induction l as [|x l IH]; simpl; [reflexivity|].
  destruct (q x); simpl; [|exact IH].
  destruct (p x); rewrite IH; reflexivity.
Qed.

(** Deleting rows keeps the remaining keys distinct. *)
Lemma keys_unique_filter (keep : MemberRow.t -> bool) (rows : list MemberRow.t) :
  NoDup (map MemberRow.id rows) -> NoDup (map MemberRow.id (filter keep rows)).
Proof.
  induction rows as [|x rows IH]; simpl; intros H; [constructor|].
  inversion H as [|? ? Hx Hl]; subst.
  destruct (keep x); simpl; [|apply IH; exact Hl].
  constructor; [|apply IH; exact Hl].
  intros Hin. apply Hx. apply in_map_iff in Hin. destruct Hin as [y [E Hy]].
  apply filter_In in Hy. rewrite <- E. apply in_map. apply Hy.
Qed.

Lemma key_determines_row (l : list MemberRow.t) (a b : MemberRow.t) :
  NoDup (map MemberRow.id l) -> In a l -> In b l ->
  MemberRow.id a = MemberRow.id b -> a = b.
Proof.
  induction l as [|x l IH]; simpl; intros Hnd Ha Hb E; [contradiction|].
  inversion Hnd as [|? ? Hx Hl]; subst.
  destruct Ha as [->|Ha], Hb as [->|Hb].
  - reflexivity.
  - exfalso. apply Hx. rewrite E. apply in_map. exact Hb.
  - exfalso. apply Hx. rewrite <- E. apply in_map. exact Ha.
  - apply IH; assumption.
Qed.

Lemma next_id_above (ids : list Z) (k : Z) : In k ids -> k < next_id ids.
Proof.
  unfold next_id. induction ids as [|x ids IH]; simpl; intros H; [contradiction|].
  destruct H as [->|H]; [lia|]. specialize (IH H). lia.
Qed.

End TableFacts.

Lemma query_gathering_map (db db' : Store) (F : GatheringRow.t -> GatheringRow.t) (k : string) :
  gatherings db' = map F (gatherings db) ->
  (forall x, GatheringRow.id (F x) = GatheringRow.id x) ->
  query_gathering db' k = option_map F (query_gathering db k).
Proof.
  intros HG HF. unfold query_gathering. rewrite HG, find_map.
  f_equal. apply find_ext. intros x _. rewrite HF. reflexivity.
Qed.

Lemma update_preserves_id (gid : string) (F : GatheringRow.t -> GatheringRow.t) :
  (forall x, GatheringRow.id (F x) = GatheringRow.id x) ->
  forall x, GatheringRow.id (if String.eqb (GatheringRow.id x) gid then F x else x)
            = GatheringRow.id x.
Proof.
  intros HF x. destruct (String.eqb (GatheringRow.id x) gid); [apply HF|reflexivity].
Qed.

(** Tables that agree on [gatherings] and [members]. *)
Lemma store_ok_same_tables (db db' : Store) :
  gatherings db' = gatherings db -> members db' = members db ->
  store_ok db -> store_ok db'.
Proof.
  intros HG HM [Hc Hr Hk]. constructor.
  - intros g Hg. unfold members_of. rewrite HM. apply Hc. rewrite <- HG. exact Hg.
  - intros m Hm. unfold query_gathering. rewrite HG. apply Hr. rewrite <- HM. exact Hm.
  - unfold keys_unique. rewrite HM. exact Hk.
Qed.

(** Rows of [members] rewritten without touching key or owner. *)
Lemma store_ok_members_map (db db' : Store) (f : MemberRow.t -> MemberRow.t) :
  gatherings db' = gatherings db ->
  members db' = map f (members db) ->
  (forall m, MemberRow.id (f m) = MemberRow.id m) ->
  (forall m, MemberRow.gathering_id (f m) = MemberRow.gathering_id m) ->
  store_ok db -> store_ok db'.
Proof.
  intros HG HM Hid Hgid [Hc Hr Hk]. constructor.
  - intros g Hg. rewrite HG in Hg. rewrite (Hc g Hg).
    unfold members_of. rewrite HM, length_filter_map.
    do 2 f_equal. apply filter_ext. intros m. rewrite Hgid. reflexivity.
  - intros m Hm. rewrite HM in Hm. apply in_map_iff in Hm. destruct Hm as [m0 [<- Hm0]].
    rewrite Hgid. unfold query_gathering. rewrite HG. apply (Hr m0 Hm0).
  - unfold keys_unique. rewrite HM, map_map.
    rewrite (map_ext _ MemberRow.id Hid). exact Hk.
Qed.

(** Rows of [gatherings] rewritten without touching key or count. *)
Lemma store_ok_gatherings_map (db db' : Store) (F : GatheringRow.t -> GatheringRow.t) :
  gatherings db' = map F (gatherings db) ->
  members db' = members db ->
  (forall x, GatheringRow.id (F x) = GatheringRow.id x) ->
  (forall x, GatheringRow.total_members (F x) = GatheringRow.total_members x) ->
  store_ok db -> store_ok db'.
Proof.
  intros HG HM Hid Htot [Hc Hr Hk]. constructor.
  - intros g Hg. rewrite HG in Hg. apply in_map_iff in Hg. destruct Hg as [g0 [<- Hg0]].
    rewrite Htot, Hid. unfold members_of. rewrite HM. apply (Hc g0 Hg0).
  - intros m Hm. rewrite HM in Hm.
    rewrite (query_gathering_map db db' F _ HG Hid).
    specialize (Hr m Hm). destruct (query_gathering db (MemberRow.gathering_id m));
      [discriminate|contradiction].
  - unfold keys_unique. rewrite HM. exact Hk.
Qed.

Lemma rename_keeps_key (k : Z) (n : string) (m : MemberRow.t) :
  MemberRow.id (if MemberRow.id m =? k
                then MemberRow.mk (MemberRow.id m) n (MemberRow.gathering_id m) else m)
  = MemberRow.id m.
Proof. destruct (MemberRow.id m =? k); reflexivity. Qed.

Lemma rename_keeps_owner (k : Z) (n : string) (m : MemberRow.t) :
  MemberRow.gathering_id (if MemberRow.id m =? k
                          then MemberRow.mk (MemberRow.id m) n (MemberRow.gathering_id m) else m)
  = MemberRow.gathering_id m.
Proof. destruct (MemberRow.id m =? k); reflexivity. Qed.

Lemma add_expense_preserves (db : Store) (gid name : string) (amount : Q) :
  store_ok db -> store_ok (fst (add_expense db gid name amount)).
Proof.
  intros H. unfold add_expense.
  destruct (Qle_bool amount 0); [exact H|].
  destruct (query_gathering db gid) as [g|]; [|exact H].
  destruct (GatheringStatus_eqb (GatheringRow.status g) CLOSED); [exact H|].
  destruct (query_member db gid name) as [m|].
  - simpl. apply (store_ok_same_tables db); [reflexivity|reflexivity|exact H].
  - destruct (query_unnamed_members db gid) as [|p rest]; [exact H|].
    simpl. eapply (store_ok_members_map db); [reflexivity|reflexivity| | |exact H].
    + apply rename_keeps_key.
    + apply rename_keeps_owner.
Qed.

Lemma record_payment_preserves (db : Store) (gid name : string) (amount : Q) :
  store_ok db -> store_ok (fst (record_payment db gid name amount)).
Proof.
  intros H. unfold record_payment.
  destruct (query_gathering db gid) as [g|]; [|exact H].
  destruct (GatheringStatus_eqb (GatheringRow.status g) CLOSED); [exact H|].
  destruct (query_member db gid name) as [m|]; [|exact H].
  simpl. apply (store_ok_same_tables db); [reflexivity|reflexivity|exact H].
Qed.

Lemma rename_member_preserves (db : Store) (gid old_name new_name : string) :
  store_ok db -> store_ok (fst (rename_member db gid old_name new_name)).
Proof.
  intros H. unfold rename_member.
  destruct (query_gathering db gid) as [g|]; [|exact H].
  destruct (GatheringStatus_eqb (GatheringRow.status g) CLOSED); [exact H|].
  destruct (query_member db gid old_name) as [m|]; [|exact H].
  destruct (query_member db gid new_name) as [m'|]; [exact H|].
  simpl. eapply (store_ok_members_map db); [reflexivity|reflexivity| | |exact H].
  - apply rename_keeps_key.
  - apply rename_keeps_owner.
Qed.

Lemma close_gathering_preserves (db : Store) (gid : string) :
  store_ok db -> store_ok (fst (close_gathering db gid)).
Proof.
  intros H. unfold close_gathering.
  destruct (query_gathering db gid) as [g|]; [|exact H].
  destruct (GatheringStatus_eqb (GatheringRow.status g) CLOSED); [exact H|].
  simpl. eapply (store_ok_gatherings_map db); [reflexivity|reflexivity| | |exact H].
  - intros x. simpl. destruct (String.eqb _ _); reflexivity.
  - intros x. simpl. destruct (String.eqb _ _); reflexivity.
Qed.

Lemma add_member_preserves (db : Store) (gid name : string) :
  store_ok db -> store_ok (fst (add_member db gid name)).
Proof.
  intros H. unfold add_member.
  destruct (query_gathering db gid) as [g|] eqn:Hg; [|exact H].
  destruct (GatheringStatus_eqb (GatheringRow.status g) CLOSED); [exact H|].
  destruct (query_member db gid name) as [m|]; [exact H|].
  destruct (query_gathering_some _ _ _ Hg) as [Hgin Hgid].
  destruct H as [Hc Hr Hk]. simpl.
  set (F := set_total_members (GatheringRow.total_members g + 1)).
  assert (HF : forall x, GatheringRow.id
                 (if String.eqb (GatheringRow.id x) (GatheringRow.id g) then F x else x)
               = GatheringRow.id x)
    by (apply update_preserves_id; reflexivity).
  constructor.
  - intros g' Hg'. simpl in Hg'. unfold update_gathering in Hg'.
    apply in_map_iff in Hg'. destruct Hg' as [g0 [<- Hg0]].
    rewrite HF. unfold members_of. simpl. rewrite filter_app, length_app. simpl.
    destruct (String.eqb_spec (GatheringRow.id g0) (GatheringRow.id g)) as [E|E].
    + simpl. rewrite <- Hgid, <- E, String.eqb_refl. simpl.
      rewrite (Hc g Hgin), E. unfold members_of. lia.
    + destruct (String.eqb_spec gid (GatheringRow.id g0)) as [E'|_]; [congruence|].
      simpl. rewrite (Hc g0 Hg0). unfold members_of. lia.
  - intros m Hm. simpl in Hm.
    erewrite (query_gathering_map db); [|reflexivity|exact HF].
    apply in_app_iff in Hm. destruct Hm as [Hm|[<-|[]]].
    + specialize (Hr m Hm).
      destruct (query_gathering db (MemberRow.gathering_id m)); [discriminate|contradiction].
    + simpl. rewrite Hg. discriminate.
  - unfold keys_unique. simpl. rewrite map_app. simpl.
    apply NoDup_app; [exact Hk|repeat constructor; intros []|].
    intros a Ha [<-|[]]. apply next_id_above in Ha. lia.
Qed.

Lemma remove_member_preserves (db : Store) (gid name : string) :
  store_ok db -> store_ok (fst (remove_member db gid name)).
Proof.
  intros H. unfold remove_member.
  destruct (query_gathering db gid) as [g|] eqn:Hg; [|exact H].
  destruct (GatheringStatus_eqb (GatheringRow.status g) CLOSED); [exact H|].
  destruct (query_member db gid name) as [m|] eqn:Hm; [|exact H].
  destruct (0 <? List.length (expenses_of db (MemberRow.id m)))%nat; [exact H|].
  destruct (0 <? List.length (payments_of db (MemberRow.id m)))%nat; [exact H|].
  destruct (query_gathering_some _ _ _ Hg) as [Hgin Hgid].
  destruct (query_member_some _ _ _ _ Hm) as [Hmin [Hmg _]].
  destruct H as [Hc Hr Hk]. simpl.
  set (F := set_total_members (GatheringRow.total_members g - 1)).
  assert (HF : forall x, GatheringRow.id
                 (if String.eqb (GatheringRow.id x) (GatheringRow.id g) then F x else x)
               = GatheringRow.id x)
    by (apply update_preserves_id; reflexivity).
  destruct (filter_key_unique (members db) m Hk Hmin) as [l1 [l2 [E1 E2]]].
  constructor.
  - intros g' Hg'. simpl in Hg'. unfold update_gathering in Hg'. simpl in Hg'.
    apply in_map_iff in Hg'. destruct Hg' as [g0 [<- Hg0]].
    rewrite HF. unfold members_of. simpl. rewrite E2.
    assert (Hold : forall x, GatheringRow.total_members x
                   = Z.of_nat (List.length (members_of db (GatheringRow.id x)))
                   -> GatheringRow.total_members x
                      = Z.of_nat (List.length
                          (filter (fun m0 => String.eqb (MemberRow.gathering_id m0)
                                                        (GatheringRow.id x)) l1)
                        + (if String.eqb (MemberRow.gathering_id m) (GatheringRow.id x)
                           then 1 else 0)
                        + List.length
                            (filter (fun m0 => String.eqb (MemberRow.gathering_id m0)
                                                          (GatheringRow.id x)) l2))).
    { intros x Hx. rewrite Hx. unfold members_of. rewrite E1, filter_app, length_app. simpl.
      destruct (String.eqb (MemberRow.gathering_id m) (GatheringRow.id x)); simpl; lia. }
    rewrite filter_app, length_app.
    destruct (String.eqb_spec (GatheringRow.id g0) (GatheringRow.id g)) as [E|E].
    + simpl. pose proof (Hold g (Hc g Hgin)) as Hv.
      rewrite Hmg, Hgid, String.eqb_refl in Hv. rewrite E, Hgid. lia.
    + pose proof (Hold g0 (Hc g0 Hg0)) as Hv.
      destruct (String.eqb_spec (MemberRow.gathering_id m) (GatheringRow.id g0)) as [E'|_];
        [congruence|]. lia.
  - intros m' Hm'. simpl in Hm'. apply filter_In in Hm'. destruct Hm' as [Hm' _].
    erewrite (query_gathering_map db); [|reflexivity|exact HF].
    specialize (Hr m' Hm').
    destruct (query_gathering db (MemberRow.gathering_id m')); [discriminate|contradiction].
  - unfold keys_unique. simpl. apply keys_unique_filter. exact Hk.
Qed.

Section Placeholders.

Variables (first_id : Z) (gid : string) (n : Z).

Lemma placeholders_owner (p : MemberRow.t) :
  In p (placeholders first_id gid n) -> MemberRow.gathering_id p = gid.
Proof.
  unfold placeholders. intros H. apply in_map_iff in H.
  destruct H as [i [<- _]]. reflexivity.
Qed.

Lemma placeholders_length :
  List.length (placeholders first_id gid n) = Z.to_nat n.
Proof.
  unfold placeholders. rewrite length_map, length_seq. reflexivity.
Qed.

Lemma placeholders_keys_above (k : Z) :
  In k (map MemberRow.id (placeholders first_id gid n)) -> first_id <= k.
Proof.
  unfold placeholders. rewrite map_map. simpl. intros H.
  apply in_map_iff in H. destruct H as [i [<- Hi]]. apply in_seq in Hi. lia.
Qed.

Lemma placeholders_keys_unique :
  NoDup (map MemberRow.id (placeholders first_id gid n)).
Proof.
  unfold placeholders. rewrite map_map. simpl.
  apply NoDup_map_NoDup_ForallPairs; [|apply seq_NoDup].
  intros i j _ _ E. lia.
Qed.

End Placeholders.

Lemma filter_all {A : Type} (p : A -> bool) (l : list A) :
  (forall x, In x l -> p x = true) -> filter p l = l.
Proof.
  induction l as [|x l IH]; simpl; intros H; [reflexivity|].
  rewrite (H x (or_introl eq_refl)), IH; [reflexivity|].
  intros y Hy. apply H. right. exact Hy.
Qed.

Lemma filter_none {A : Type} (p : A -> bool) (l : list A) :
  (forall x, In x l -> p x = false) -> filter p l = [].
Proof.
  induction l as [|x l IH]; simpl; intros H; [reflexivity|].
  rewrite (H x (or_introl eq_refl)). apply IH.
  intros y Hy. apply H. right. exact Hy.
Qed.

Lemma find_app {A : Type} (p : A -> bool) (l1 l2 : list A) :
  find p (l1 ++ l2) = match find p l1 with Some a => Some a | None => find p l2 end.
Proof.
  induction l1 as [|x l1 IH]; simpl; [reflexivity|].
  destruct (p x); [reflexivity|exact IH].
Qed.

Lemma create_gathering_preserves (db : Store) (gid : string) (n : Z) :
  0 <= n -> store_ok db -> store_ok (fst (create_gathering db gid n)).
Proof.
  intros Hn H. unfold create_gathering.
  destruct (strptime (date_part gid)) as [date|]; [|exact H].
  destruct (query_gathering db gid) as [g|] eqn:Hg; [exact H|].
  destruct (fits_integer n); [|exact H].
  destruct H as [Hc Hr Hk]. simpl.
  set (first := next_id (map MemberRow.id (members db))).
  assert (Hfresh : forall g0, In g0 (gatherings db) -> GatheringRow.id g0 <> gid).
  { intros g0 Hg0 E. pose proof (find_none _ _ Hg g0 Hg0) as Hf. simpl in Hf.
    rewrite E, String.eqb_refl in Hf. discriminate. }
  assert (Hnone : members_of db gid = []).
  { unfold members_of. apply filter_none. intros m Hm.
    destruct (String.eqb_spec (MemberRow.gathering_id m) gid) as [E|_]; [|reflexivity].
    exfalso. apply (Hr m Hm). rewrite E. exact Hg. }
  constructor.
  - intros g' Hg'. simpl in Hg'. unfold members_of. simpl.
    rewrite filter_app, length_app.
    apply in_app_iff in Hg'. destruct Hg' as [Hg'|[<-|[]]].
    + rewrite (filter_none _ (placeholders first gid n)).
      * rewrite (Hc g' Hg'). unfold members_of. simpl. lia.
      * intros p Hp. rewrite (placeholders_owner _ _ _ _ Hp).
        apply String.eqb_neq. intros E. apply (Hfresh g' Hg'). symmetry. exact E.
    + simpl. unfold members_of in Hnone. rewrite Hnone.
      rewrite filter_all.
      * rewrite placeholders_length. simpl. lia.
      * intros p Hp. rewrite (placeholders_owner _ _ _ _ Hp). apply String.eqb_refl.
  - intros m Hm. simpl in Hm. unfold query_gathering. simpl. rewrite find_app.
    apply in_app_iff in Hm. destruct Hm as [Hm|Hm].
    + specialize (Hr m Hm). unfold query_gathering in Hr.
      destruct (find _ (gatherings db)); [discriminate|contradiction].
    + rewrite (placeholders_owner _ _ _ _ Hm).
      unfold query_gathering in Hg. rewrite Hg. simpl.
      rewrite String.eqb_refl. discriminate.
  - unfold keys_unique. simpl. rewrite map_app.
    apply NoDup_app; [exact Hk|apply placeholders_keys_unique|].
    intros a Ha Hp. apply placeholders_keys_above in Hp.
    apply next_id_above in Ha. fold first in Ha. lia.
Qed.

(** The cascade of [session.delete(gathering)]: what is left of [members]
    after deleting the rows [L] by key. *)
Lemma fold_delete_member (L : list MemberRow.t) (db : Store) :
  gatherings (fold_left (fun d m => delete_member d (MemberRow.id m)) L db) = gatherings db
  /\ members (fold_left (fun d m => delete_member d (MemberRow.id m)) L db)
     = filter (fun x => forallb (fun y => negb (MemberRow.id x =? MemberRow.id y)) L)
              (members db).
Proof.
  revert db. induction L as [|y L IH]; intros db; simpl.
  - split; [reflexivity|]. symmetry. apply filter_all. reflexivity.
  - destruct (IH (delete_member db (MemberRow.id y))) as [HG HM].
    split; [exact HG|]. rewrite HM. simpl. apply filter_twice.
Qed.

Lemma delete_gathering_preserves (db : Store) (gid : string) (force : bool) :
  store_ok db -> store_ok (fst (delete_gathering db gid force)).
Proof.
  intros H. unfold delete_gathering.
  destruct (query_gathering db gid) as [g|] eqn:Hg; [|exact H].
  destruct (GatheringStatus_eqb (GatheringRow.status g) CLOSED && negb force); [exact H|].
  destruct H as [Hc Hr Hk]. simpl.
  destruct (fold_delete_member (members_of db (GatheringRow.id g)) db) as [HG HM].
  set (L := members_of db (GatheringRow.id g)) in *.
  set (PL := fun x : MemberRow.t => forallb (fun y => negb (MemberRow.id x =? MemberRow.id y)) L)
    in *.
  assert (Hkeep : forall x, In x (members db) ->
                  MemberRow.gathering_id x <> GatheringRow.id g -> PL x = true).
  { intros x Hx Hne. unfold PL. apply forallb_forall. intros y Hy.
    unfold L, members_of in Hy. apply filter_In in Hy. destruct Hy as [Hy Hyg].
    apply String.eqb_eq in Hyg.
    destruct (Z.eqb_spec (MemberRow.id x) (MemberRow.id y)) as [E|_]; [|reflexivity].
    exfalso. apply Hne. rewrite (key_determines_row _ x y Hk Hx Hy E). exact Hyg. }
  assert (Hgone : forall x, In x (members db) -> PL x = true ->
                  MemberRow.gathering_id x <> GatheringRow.id g).
  { intros x Hx HP E. unfold PL in HP.
    assert (HxL : In x L).
    { unfold L, members_of. apply filter_In. split; [exact Hx|]. apply String.eqb_eq. exact E. }
    pose proof (proj1 (forallb_forall _ _) HP x HxL) as Hf.
    cbv beta in Hf. rewrite Z.eqb_refl in Hf. discriminate. }
  constructor.
  - intros g0 Hg0. simpl in Hg0. rewrite HG in Hg0.
    apply filter_In in Hg0. destruct Hg0 as [Hg0 Hne].
    apply negb_true_iff, String.eqb_neq in Hne.
    rewrite (Hc g0 Hg0). unfold members_of. simpl. rewrite HM, filter_twice.
    do 2 f_equal. apply filter_ext_in. intros x Hx.
    destruct (String.eqb_spec (MemberRow.gathering_id x) (GatheringRow.id g0)) as [E|_].
    + rewrite (Hkeep x Hx); [reflexivity|]. rewrite E. exact Hne.
    + symmetry. apply andb_false_r.
  - intros m Hm. simpl in Hm. rewrite HM in Hm. apply filter_In in Hm.
    destruct Hm as [Hm HP]. pose proof (Hgone m Hm HP) as Hne.
    unfold query_gathering. simpl. rewrite HG, find_filter.
    specialize (Hr m Hm). unfold query_gathering in Hr.
    rewrite (find_ext _ (fun x => String.eqb (GatheringRow.id x) (MemberRow.gathering_id m))).
    + destruct (find _ (gatherings db)); [discriminate|contradiction].
    + intros x _.
      destruct (String.eqb_spec (GatheringRow.id x) (MemberRow.gathering_id m)) as [E|_].
      * rewrite andb_true_r. apply negb_true_iff, String.eqb_neq. congruence.
      * apply andb_false_r.
  - unfold keys_unique. simpl. rewrite HM. apply keys_unique_filter. exact Hk.
Qed.

Lemma step_preserves (db : Store) (c : Call) :
  nonnegative_count c -> store_ok db -> store_ok (step db c).
Proof.
  destruct c; simpl; intros Hc H.
  - apply create_gathering_preserves; assumption.
  - apply add_member_preserves; assumption.
  - apply remove_member_preserves; assumption.
  - apply add_expense_preserves; assumption.
  - apply record_payment_preserves; assumption.
  - apply rename_member_preserves; assumption.
  - apply close_gathering_preserves; assumption.
  - apply delete_gathering_preserves; assumption.
Qed.

Lemma empty_store_ok : store_ok empty_store.
Proof.
  constructor.
  - intros g [].
  - intros m [].
  - constructor.
Qed.

Lemma run_preserves (calls : list Call) (db : Store) :
  Forall nonnegative_count calls -> store_ok db -> store_ok (run calls db).
Proof.
  unfold run. revert db. induction calls as [|c calls IH]; intros db Hcs H; simpl.
  - exact H.
  - inversion Hcs as [|? ? Hc Hcs']; subst.
    apply IH; [exact Hcs'|]. apply step_preserves; assumption.
Qed.

(** C3 (as amended). In every store reached from the empty one by calls of
    the operations, where every [create_gathering] is given a member count
    that is not negative, [total_members] of each gathering is the number of
    members attached to it: [create_gathering] establishes it and every
    operation preserves it, failed calls included. *)
Theorem total_members_in_sync (calls : list Call) :
  Forall nonnegative_count calls ->
  counts_in_sync (run calls empty_store).
Proof.
  intros H. apply (ok_counts _ (run_preserves calls empty_store H empty_store_ok)).
Qed.

Lemma total_members_in_sync_witness :
  counts_in_sync
    (run [CreateGathering dinner 2; AddMember dinner "Charlie";
          RemoveMember dinner "member0001"] empty_store).
Proof.
  apply (total_members_in_sync
           [CreateGathering dinner 2; AddMember dinner "Charlie";
            RemoveMember dinner "member0001"]).
  repeat constructor. simpl. lia.
Defined.

(** C3 (counterexample). [create_gathering] with member count -1 stores
    [total_members = -1] and creates no member. *)
Lemma negative_count_out_of_sync :
  let db := fst (create_gathering empty_store dinner (-1)) in
  is_ok (snd (create_gathering empty_store dinner (-1))) = true
  /\ map GatheringRow.total_members (gatherings db) = [-1]
  /\ members db = []
  /\ ~ counts_in_sync db.
Proof.
  cbv zeta.
  split; [vm_compute; reflexivity|].
  split; [vm_compute; reflexivity|].
  split; [vm_compute; reflexivity|].
  intros H. specialize (H (GatheringRow.mk dinner (-1) OPEN) (or_introl eq_refl)).
  vm_compute in H. discriminate.
Qed.

(** ** The identifier of a gathering *)

Section Splitting.

Lemma split_hyphen_nonempty (s : string) : split_hyphen s <> [].
Proof.
  destruct s as [|c r]; simpl; [discriminate|].
  destruct (Ascii.eqb c hyphen); [discriminate|].
  destruct (split_hyphen r); discriminate.
Qed.

Lemma split_hyphen_components (s : string) :
  Forall (fun c => hyphen_free c = true) (split_hyphen s).
Proof.
  induction s as [|c r IH]; simpl.
  - repeat constructor.
  - destruct (Ascii.eqb c hyphen) eqn:E.
    + constructor; [reflexivity|exact IH].
    + destruct (split_hyphen r) as [|h t].
      * repeat constructor. simpl. rewrite E. reflexivity.
      * inversion IH as [|? ? Hh Ht]; subst.
        constructor; [|exact Ht]. simpl. rewrite E, Hh. reflexivity.
Qed.

Lemma split_hyphen_single (c : string) :
  hyphen_free c = true -> split_hyphen c = [c].
Proof.
  induction c as [|a c IH]; simpl; intros H; [reflexivity|].
  apply andb_true_iff in H. destruct H as [Ha Hc].
  apply negb_true_iff in Ha. rewrite Ha, (IH Hc). reflexivity.
Qed.

Lemma split_hyphen_cons (c r : string) :
  hyphen_free c = true ->
  split_hyphen (c ++ String hyphen r) = c :: split_hyphen r.
Proof.
  induction c as [|a c IH]; simpl; intros H; [reflexivity|].
  apply andb_true_iff in H. destruct H as [Ha Hc].
  apply negb_true_iff in Ha. rewrite Ha, (IH Hc). reflexivity.
Qed.

(** [split] undoes [join] on hyphen-free components. *)
Lemma split_hyphen_concat (l : list string) :
  l <> [] -> Forall (fun c => hyphen_free c = true) l ->
  split_hyphen (String.concat "-" l) = l.
Proof.
  induction l as [|c l IH]; intros Hne Hl; [contradiction|].
  inversion Hl as [|? ? Hc Hl']; subst.
  destruct l as [|c' l].
  - simpl. apply split_hyphen_single. exact Hc.
  - change (String.concat "-" (c :: c' :: l))
      with (c ++ String hyphen (String.concat "-" (c' :: l)))%string.
    rewrite (split_hyphen_cons _ _ Hc), IH; [reflexivity|discriminate|exact Hl'].
Qed.

End Splitting.

Section Regex.

Lemma class_enum (cl : char_class) (c : ascii) :
  cl c = true -> In c (filter cl all_ascii).
Proof.
  intros H. apply filter_In. split; [|exact H].
  unfold all_ascii. apply in_map_iff. exists (nat_of_ascii c).
  split; [apply ascii_nat_embedding|].
  apply in_seq. pose proof (nat_ascii_bounded c). lia.
Qed.

Lemma match_alt_split (alt : list char_class) (s mm rest : string) :
  match_alt alt s = Some (mm, rest) -> s = (mm ++ rest)%string.
Proof.
  revert s mm rest. induction alt as [|cl alt IH]; intros s mm rest H; simpl in H.
  - injection H as <- <-. reflexivity.
  - destruct s as [|c r]; [discriminate|].
    destruct (cl c); [|discriminate].
    destruct (match_alt alt r) as [[m' r']|] eqn:E; [|discriminate].
    injection H as <- <-. simpl. rewrite (IH _ _ _ E). reflexivity.
Qed.

Lemma match_group_inv {A : Type} (alts : list (list char_class)) (s : string)
  (k : string -> string -> option A) (a : A) :
  match_group alts s k = Some a ->
  exists alt mm rest, In alt alts /\ match_alt alt s = Some (mm, rest) /\ k mm rest = Some a.
Proof.
  induction alts as [|alt alts IH]; simpl; intros H; [discriminate|].
  destruct (match_alt alt s) as [[mm rest]|] eqn:E.
  - destruct (k mm rest) as [a'|] eqn:Ek.
    + injection H as <-. exists alt, mm, rest. auto.
    + destruct (IH H) as [alt' [mm' [rest' [Hin Hr]]]]. exists alt', mm', rest'. auto.
  - destruct (IH H) as [alt' [mm' [rest' [Hin Hr]]]]. exists alt', mm', rest'. auto.
Qed.

(** One or two characters taken by an alternative. *)
Lemma match_alt_one (cl : char_class) (s mm rest : string) :
  match_alt [cl] s = Some (mm, rest) ->
  exists c, mm = String c EmptyString /\ cl c = true.
Proof.
  simpl. destruct s as [|c r]; [discriminate|].
  destruct (cl c) eqn:E; [|discriminate].
  intros H. injection H as <- _. exists c. auto.
Qed.

Lemma match_alt_two (cl1 cl2 : char_class) (s mm rest : string) :
  match_alt [cl1; cl2] s = Some (mm, rest) ->
  exists c1 c2, mm = String c1 (String c2 EmptyString) /\ cl1 c1 = true /\ cl2 c2 = true.
Proof.
  simpl. destruct s as [|c1 [|c2 r]]; try discriminate.
  - destruct (cl1 c1); discriminate.
  - destruct (cl1 c1) eqn:E1; [|discriminate].
    destruct (cl2 c2) eqn:E2; [|discriminate].
    intros H. injection H as <- _. exists c1, c2. auto.
Qed.

End Regex.

Ltac enum_class H :=
  apply class_enum in H; vm_compute in H;
  repeat (destruct H as [H|H]); try contradiction; subst.

Lemma month_group_forms (s mm rest : string) (alt : list char_class) :
  In alt re_m -> match_alt alt s = Some (mm, rest) -> mem_string mm month_forms = true.
Proof.
  intros Hin H. unfold re_m in Hin.
  destruct Hin as [<-|[<-|[<-|[]]]].
  - apply match_alt_two in H. destruct H as [c1 [c2 [-> [H1 H2]]]].
    enum_class H1; enum_class H2; reflexivity.
  - apply match_alt_two in H. destruct H as [c1 [c2 [-> [H1 H2]]]].
    enum_class H1; enum_class H2; reflexivity.
  - apply match_alt_one in H. destruct H as [c [-> H1]].
    enum_class H1; reflexivity.
Qed.

Lemma day_group_forms (s mm rest : string) (alt : list char_class) :
  In alt re_d -> match_alt alt s = Some (mm, rest) -> mem_string mm day_forms = true.
Proof.
  intros Hin H. unfold re_d in Hin.
  destruct Hin as [<-|[<-|[<-|[<-|[<-|[]]]]]].
  - apply match_alt_two in H. destruct H as [c1 [c2 [-> [H1 H2]]]].
    enum_class H1; enum_class H2; reflexivity.
  - apply match_alt_two in H. destruct H as [c1 [c2 [-> [H1 H2]]]].
    enum_class H1; enum_class H2; reflexivity.
  - apply match_alt_two in H. destruct H as [c1 [c2 [-> [H1 H2]]]].
    enum_class H1; enum_class H2; reflexivity.
  - apply match_alt_one in H. destruct H as [c [-> H1]].
    enum_class H1; reflexivity.
  - apply match_alt_two in H. destruct H as [c1 [c2 [-> [H1 H2]]]].
    enum_class H1; enum_class H2; reflexivity.
Qed.

Lemma append_empty_r (s : string) : (s ++ "")%string = s.
Proof.
  induction s as [|c s IH]; simpl; [reflexivity|]. rewrite IH. reflexivity.
Qed.

Lemma mem_string_in (s : string) (l : list string) : mem_string s l = true -> In s l.
Proof.
  unfold mem_string. intros H. apply existsb_exists in H.
  destruct H as [x [Hx E]]. apply String.eqb_eq in E. subst. exact Hx.
Qed.

Lemma form_hyphen_free (s : string) (l : list string) :
  forallb hyphen_free l = true -> mem_string s l = true -> hyphen_free s = true.
Proof.
  intros Hl Hs. apply mem_string_in in Hs.
  apply (proj1 (forallb_forall _ _) Hl s Hs).
Qed.

Lemma digit_not_hyphen (c : ascii) : is_digit c = true -> Ascii.eqb c hyphen = false.
Proof.
  intros H. destruct (Ascii.eqb_spec c hyphen) as [->|_]; [|reflexivity].
  vm_compute in H. discriminate.
Qed.

Lemma year_form_digits (Y : string) :
  year_form Y = true ->
  exists a b c d,
    Y = String a (String b (String c (String d EmptyString)))
    /\ is_digit a = true /\ is_digit b = true /\ is_digit c = true /\ is_digit d = true.
Proof.
  destruct Y as [|a [|b [|c [|d [|e r]]]]]; cbn -[is_digit]; try discriminate.
  intros H.
  apply andb_true_iff in H. destruct H as [H Hd].
  apply andb_true_iff in H. destruct H as [H Hc].
  apply andb_true_iff in H. destruct H as [Ha Hb].
  exists a, b, c, d. auto.
Qed.

Lemma year_form_hyphen_free (Y : string) : year_form Y = true -> hyphen_free Y = true.
Proof.
  intros H. destruct (year_form_digits Y H) as [a [b [c [d [-> [Ha [Hb [Hc Hd]]]]]]]].
  simpl. rewrite !digit_not_hyphen by assumption. reflexivity.
Qed.

(** *** What the pattern accepts *)

Lemma match_year (Y r : string) {A : Type} (k : string -> string -> option A) :
  year_form Y = true -> match_group re_Y (Y ++ r) k = k Y r.
Proof.
  intros H. destruct (year_form_digits Y H) as [a [b [c [d [-> [Ha [Hb [Hc Hd]]]]]]]].
  unfold re_Y. cbn -[is_digit]. rewrite Ha, Hb, Hc, Hd.
  destruct (k _ r); reflexivity.
Qed.

Lemma match_month (m r : string) {A : Type} (k : string -> string -> option A) (a : A) :
  mem_string m month_forms = true ->
  k m (String hyphen r) = Some a ->
  match_group re_m (m ++ String hyphen r) k = Some a.
Proof.
  intros H Hk. apply mem_string_in in H. unfold month_forms in H.
  repeat (destruct H as [H|H]; [subst m; cbv in Hk; cbv; rewrite Hk; reflexivity|]).
  contradiction.
Qed.

Lemma match_day (d : string) {A : Type} (k : string -> string -> option A) (a : A) :
  mem_string d day_forms = true ->
  k d EmptyString = Some a ->
  match_group re_d d k = Some a.
Proof.
  intros H Hk. apply mem_string_in in H. unfold day_forms in H.
  repeat (destruct H as [H|H]; [subst d; cbv in Hk; cbv; rewrite Hk; reflexivity|]).
  contradiction.
Qed.

Lemma strptime_accepts (Y m d : string) :
  year_form Y = true ->
  mem_string m month_forms = true ->
  mem_string d day_forms = true ->
  valid_date (int Y) (int m) (int d) = true ->
  strptime (Y ++ String hyphen (m ++ String hyphen d)) = Some (int Y, int m, int d).
Proof.
  intros HY Hm Hd Hv. unfold strptime, format_regex_match.
  rewrite (match_year _ _ _ HY). unfold match_lit at 1. rewrite Ascii.eqb_refl.
  rewrite (match_month m d _ (Y, m, d, EmptyString) Hm).
  - rewrite Hv. reflexivity.
  - unfold match_lit. rewrite Ascii.eqb_refl. apply (match_day d _ _ Hd). reflexivity.
Qed.

(** *** What the pattern requires *)

Lemma match_alt_four (cl : char_class) (s mm rest : string) :
  match_alt [cl; cl; cl; cl] s = Some (mm, rest) ->
  exists a b c d,
    mm = String a (String b (String c (String d EmptyString)))
    /\ cl a = true /\ cl b = true /\ cl c = true /\ cl d = true.
Proof.
  destruct s as [|a s]; simpl; [discriminate|].
  destruct (cl a) eqn:Ea; [|discriminate].
  destruct s as [|b s]; simpl; [discriminate|].
  destruct (cl b) eqn:Eb; [|discriminate].
  destruct s as [|c s]; simpl; [discriminate|].
  destruct (cl c) eqn:Ec; [|discriminate].
  destruct s as [|d s]; simpl; [discriminate|].
  destruct (cl d) eqn:Ed; [|discriminate].
  intros H. injection H as <- _. exists a, b, c, d. auto.
Qed.

Lemma match_year_inv (s : string) {A : Type} (k : string -> string -> option A) (a : A) :
  match_group re_Y s k = Some a ->
  exists Y r, s = (Y ++ r)%string /\ year_form Y = true /\ k Y r = Some a.
Proof.
  intros H. apply match_group_inv in H.
  destruct H as [alt [mm [rest [Hin [Hm Hk]]]]].
  destruct Hin as [<-|[]].
  exists mm, rest. split; [apply (match_alt_split _ _ _ _ Hm)|]. split; [|exact Hk].
  apply match_alt_four in Hm. destruct Hm as [c1 [c2 [c3 [c4 [-> [H1 [H2 [H3 H4]]]]]]]].
  cbn -[is_digit]. rewrite H1, H2, H3, H4. reflexivity.
Qed.

Lemma match_lit_inv (s : string) {A : Type} (k : string -> option A) (a : A) :
  match_lit hyphen s k = Some a ->
  exists r, s = String hyphen r /\ k r = Some a.
Proof.
  unfold match_lit. destruct s as [|c r]; [discriminate|].
  destruct (Ascii.eqb_spec c hyphen) as [->|_]; [|discriminate].
  intros H. exists r. auto.
Qed.

Lemma strptime_requires (s : string) (v : Z * Z * Z) :
  strptime s = Some v ->
  exists Y m d,
    s = (Y ++ String hyphen (m ++ String hyphen d))%string
    /\ year_form Y = true
    /\ mem_string m month_forms = true
    /\ mem_string d day_forms = true
    /\ valid_date (int Y) (int m) (int d) = true.
Proof.
  unfold strptime, format_regex_match. intros H.
  destruct (match_group re_Y s _) as [[[[Y m] d] rest]|] eqn:E; [|discriminate].
  destruct rest; [|discriminate].
  destruct (valid_date (int Y) (int m) (int d)) eqn:Hv; [|discriminate].
  apply match_year_inv in E. destruct E as [Y' [r1 [-> [HY E]]]].
  apply match_lit_inv in E. destruct E as [r2 [-> E]].
  apply match_group_inv in E. destruct E as [altm [m' [r3 [Hinm [Hmm E]]]]].
  apply match_lit_inv in E. destruct E as [r4 [-> E]].
  apply match_group_inv in E. destruct E as [altd [d' [r5 [Hind [Hmd E]]]]].
  injection E as <- <- <- ->.
  exists Y', m', d'.
  rewrite (match_alt_split _ _ _ _ Hmm), (match_alt_split _ _ _ _ Hmd), append_empty_r.
  split; [reflexivity|]. split; [exact HY|].
  split; [apply (month_group_forms _ _ _ _ Hinm Hmm)|].
  split; [apply (day_group_forms _ _ _ _ Hind Hmd)|exact Hv].
Qed.

Lemma Forall_firstn_keep {A : Type} (P : A -> Prop) (n : nat) (l : list A) :
  Forall P l -> Forall P (firstn n l).
Proof.
  revert l. induction n as [|n IH]; intros l H; simpl; [constructor|].
  destruct l as [|x l]; [constructor|].
  inversion H; subst. constructor; [assumption|]. apply IH. assumption.
Qed.

(** The check of [create_gathering], component by component. *)
Lemma date_prefix_ok_iff (gathering_id : string) :
  date_prefix_ok gathering_id = true <-> strptime (date_part gathering_id) <> None.
Proof.
  split.
  - unfold date_prefix_ok, date_part.
    destruct (split_hyphen gathering_id) as [|Y [|m [|d rest]]]; try discriminate.
    intros H.
    apply andb_true_iff in H. destruct H as [H Hv].
    apply andb_true_iff in H. destruct H as [H Hd].
    apply andb_true_iff in H. destruct H as [HY Hm].
    change (String.concat "-" (firstn 3 (Y :: m :: d :: rest)))
      with (Y ++ String hyphen (m ++ String hyphen d))%string.
    rewrite (strptime_accepts Y m d HY Hm Hd Hv). discriminate.
  - intros H. destruct (strptime (date_part gathering_id)) as [v|] eqn:E; [|contradiction].
    clear H. apply strptime_requires in E.
    destruct E as [Y [m [d [E [HY [Hm [Hd Hv]]]]]]].
    assert (HfY := year_form_hyphen_free Y HY).
    assert (Hfm := form_hyphen_free m month_forms eq_refl Hm).
    assert (Hfd := form_hyphen_free d day_forms eq_refl Hd).
    assert (Hparts : split_hyphen (date_part gathering_id) = [Y; m; d]).
    { rewrite E, (split_hyphen_cons _ _ HfY), (split_hyphen_cons _ _ Hfm),
        (split_hyphen_single _ Hfd). reflexivity. }
    assert (Hfirst : split_hyphen (date_part gathering_id)
                     = firstn 3 (split_hyphen gathering_id)).
    { unfold date_part. apply split_hyphen_concat.
      - pose proof (split_hyphen_nonempty gathering_id) as Hne.
        destruct (split_hyphen gathering_id); [contradiction|discriminate].
      - apply Forall_firstn_keep. apply split_hyphen_components. }
    rewrite Hparts in Hfirst. unfold date_prefix_ok.
    destruct (split_hyphen gathering_id) as [|a [|b [|c rest]]]; try discriminate.
    simpl in Hfirst. injection Hfirst as <- <- <-.
    rewrite HY, Hm, Hd, Hv. reflexivity.
Qed.

Lemma days_in_month_le_31 (y m : Z) : days_in_month y m <= 31.
Proof.
  unfold days_in_month.
  destruct (m =? 2); [destruct (is_leap y); lia|].
  destruct ((m =? 4) || (m =? 6) || (m =? 9) || (m =? 11)); lia.
Qed.

Lemma two_digit_month (a b : ascii) :
  is_digit a = true -> is_digit b = true ->
  (1 <=? int (String a (String b EmptyString))) = true ->
  (int (String a (String b EmptyString)) <=? 12) = true ->
  mem_string (String a (String b EmptyString)) month_forms = true.
Proof.
  intros Ha Hb Hlo Hhi.
  enum_class Ha; enum_class Hb;
    first [reflexivity | vm_compute in Hlo; discriminate | vm_compute in Hhi; discriminate].
Qed.

Lemma two_digit_day (a b : ascii) :
  is_digit a = true -> is_digit b = true ->
  (1 <=? int (String a (String b EmptyString))) = true ->
  (int (String a (String b EmptyString)) <=? 31) = true ->
  mem_string (String a (String b EmptyString)) day_forms = true.
Proof.
  intros Ha Hb Hlo Hhi.
  enum_class Ha; enum_class Hb;
    first [reflexivity | vm_compute in Hlo; discriminate | vm_compute in Hhi; discriminate].
Qed.

(** An identifier in the format of the specification passes the check. *)
Lemma conforming_id_accepted (gathering_id : string) :
  conforming_id gathering_id = true -> date_prefix_ok gathering_id = true.
Proof.
  destruct gathering_id as [|y1 [|y2 [|y3 [|y4 [|h1 [|m1 [|m2 [|h2 [|d1 [|d2 [|h3 suffix]]]]]]]]]]];
    try discriminate.
  unfold conforming_id. intros H.
  repeat match type of H with
         | (_ && _) = true => let H' := fresh "H" in
                              apply andb_true_iff in H; destruct H as [H H']
         end.
  repeat match goal with
         | E : Ascii.eqb _ hyphen = true |- _ => apply Ascii.eqb_eq in E; subst
         end.
  set (Y := String y1 (String y2 (String y3 (String y4 EmptyString)))) in *.
  set (M := String m1 (String m2 EmptyString)) in *.
  set (D := String d1 (String d2 EmptyString)) in *.
  assert (HY : year_form Y = true).
  { unfold Y. cbn -[is_digit].
    repeat match goal with Hd : is_digit _ = true |- _ => rewrite Hd end. reflexivity. }
  unfold valid_date in *.
  repeat match goal with
         | E : (_ && _) = true |- _ => let E' := fresh "E" in
                                       apply andb_true_iff in E; destruct E as [E E']
         end.
  assert (HM : mem_string M month_forms = true) by (apply two_digit_month; assumption).
  assert (HD : mem_string D day_forms = true).
  { apply two_digit_day; try assumption.
    change ((int D <=? 31) = true).
    pose proof (days_in_month_le_31 (int Y) (int M)).
    apply Z.leb_le. match goal with E : (int D <=? _) = true |- _ => apply Z.leb_le in E end.
    lia. }
  assert (Hsplit : split_hyphen
                     (Y ++ String hyphen (M ++ String hyphen (D ++ String hyphen suffix)))
                   = Y :: M :: D :: split_hyphen suffix).
  { rewrite (split_hyphen_cons _ _ (year_form_hyphen_free Y HY)),
      (split_hyphen_cons _ _ (form_hyphen_free M month_forms eq_refl HM)),
      (split_hyphen_cons _ _ (form_hyphen_free D day_forms eq_refl HD)). reflexivity. }
  unfold date_prefix_ok.
  change (String y1 (String y2 (String y3 (String y4 (String hyphen
            (String m1 (String m2 (String hyphen (String d1 (String d2
               (String hyphen suffix)))))))))))
    with (Y ++ String hyphen (M ++ String hyphen (D ++ String hyphen suffix)))%string.
  rewrite Hsplit, HY, HM, HD. unfold valid_date. simpl andb.
  repeat match goal with E : _ = true |- _ => rewrite E; clear E end.
  reflexivity.
Qed.

(** C5 (as amended). For an identifier of ASCII characters,
    [create_gathering] fails with InvalidId exactly when the first three
    hyphen-separated components of the id are not a four-digit year, a month
    (one or two digits) and a day (one or two digits, or a blank and a
    digit) that name an existing date; no hyphen or suffix has to follow the
    day.  Every id in the strict format [YYYY-MM-DD-suffix] with an existing
    date passes this check.  An id that passes it and is not already present
    is created when the member count fits the 64-bit [Integer] column;
    otherwise the call fails with the driver's [OverflowError] and the store
    is as before. *)
Theorem create_gathering_checks_date_prefix (db : Store) (gid : string) (n : Z) :
  ascii_only gid = true ->
  (snd (create_gathering db gid n) = Err InvalidId <-> date_prefix_ok gid = false)
  /\ (conforming_id gid = true -> date_prefix_ok gid = true)
  /\ (date_prefix_ok gid = true -> query_gathering db gid = None ->
      -9223372036854775808 <= n <= 9223372036854775807 ->
      exists G, snd (create_gathering db gid n) = Ok (Some G)
                /\ Gathering.id G = gid
                /\ Gathering.total_members G = n
                /\ Gathering.status G = OPEN)
  /\ (date_prefix_ok gid = true -> query_gathering db gid = None ->
      n < -9223372036854775808 \/ 9223372036854775807 < n ->
      create_gathering db gid n = (db, Err Overflow)).
Proof.
  intros _. split; [|split; [|split]].
  - pose proof (date_prefix_ok_iff gid) as Hiff. unfold create_gathering.
    destruct (strptime (date_part gid)) as [v|] eqn:E.
    + assert (Hok : date_prefix_ok gid = true) by (apply Hiff; discriminate).
      rewrite Hok. destruct (query_gathering db gid); [simpl; split; discriminate|].
      destruct (fits_integer n); simpl; split; discriminate.
    + simpl. split; [|reflexivity]. intros _.
      destruct (date_prefix_ok gid); [|reflexivity].
      exfalso. apply (proj1 Hiff eq_refl). reflexivity.
  - apply conforming_id_accepted.
  - intros Hok Hq Hn. apply date_prefix_ok_iff in Hok. unfold create_gathering.
    destruct (strptime (date_part gid)) as [v|]; [|contradiction].
    rewrite Hq.
    replace (fits_integer n) with true
      by (symmetry; unfold fits_integer; apply andb_true_iff; split; apply Z.leb_le; lia).
    simpl. unfold get_gathering, query_gathering. simpl.
    rewrite find_app. unfold query_gathering in Hq. rewrite Hq. simpl.
    rewrite String.eqb_refl. eexists. split; [reflexivity|]. simpl. auto.
  - intros Hok Hq Hn. apply date_prefix_ok_iff in Hok. unfold create_gathering.
    destruct (strptime (date_part gid)) as [v|]; [|contradiction].
    rewrite Hq.
    replace (fits_integer n) with false; [reflexivity|].
    symmetry. unfold fits_integer. apply andb_false_iff.
    destruct Hn as [Hn|Hn]; [left|right]; apply Z.leb_gt; lia.
Qed.

Lemma create_gathering_checks_date_prefix_witness :
  date_prefix_ok friendsbeer = true
  /\ (exists G, snd (create_gathering empty_store friendsbeer 5) = Ok (Some G)
                /\ Gathering.id G = friendsbeer
                /\ Gathering.total_members G = 5
                /\ Gathering.status G = OPEN)
  /\ create_gathering empty_store friendsbeer 9223372036854775808
     = (empty_store, Err Overflow).
Proof.
  pose proof (create_gathering_checks_date_prefix empty_store friendsbeer 5 eq_refl)
    as [_ [H1 [H2 _]]].
  pose proof (create_gathering_checks_date_prefix empty_store friendsbeer
                9223372036854775808 eq_refl) as [_ [_ [_ H3]]].
  split; [apply H1; reflexivity|]. split.
  - apply H2; [reflexivity|reflexivity|lia].
  - apply H3; [reflexivity|reflexivity|right; lia].
Defined.

(** C5 (counterexample). ["2025-03-01"] has no hyphen after the day and
    ["2025-3-1-beer"] has one-digit month and day; neither conforms, both
    are accepted.  An id that conforms and is not present is still refused
    when the member count does not fit the [Integer] column. *)
Lemma lenient_date_prefix :
  conforming_id "2025-03-01" = false
  /\ is_ok (snd (create_gathering empty_store "2025-03-01" 3)) = true
  /\ conforming_id "2025-3-1-beer" = false
  /\ is_ok (snd (create_gathering empty_store "2025-3-1-beer" 3)) = true
  /\ ~ invalid_id_iff_not_conforming empty_store "2025-03-01" 3
  /\ ~ invalid_id_iff_not_conforming empty_store "2025-3-1-beer" 3
  /\ conforming_id friendsbeer = true
  /\ query_gathering empty_store friendsbeer = None
  /\ is_ok (snd (create_gathering empty_store friendsbeer 9223372036854775808)) = false.
Proof.
  repeat (split; [vm_compute; reflexivity|]).
  split; [intros [_ H]; specialize (H eq_refl); vm_compute in H; discriminate|].
  split; [intros [_ H]; specialize (H eq_refl); vm_compute in H; discriminate|].
  repeat split; vm_compute; reflexivity.
Qed.

(** * Further properties of the code *)

(** ** Generated names *)

Lemma int_acc_digit (acc : Z) (c : ascii) (r : string) :
  is_digit c = true -> int_acc acc (String c r) = int_acc (10 * acc + digit_val c) r.
Proof.
  intros H. change (int_acc acc (String c r))
    with (if is_digit c then int_acc (10 * acc + digit_val c) r else int_acc acc r).
  rewrite H. reflexivity.
Qed.

Lemma int_acc_string_of_uint (d : Decimal.uint) (acc : nat) :
  int_acc (Z.of_nat acc) (NilEmpty.string_of_uint d) = Z.of_nat (Nat.of_uint_acc d acc).
Proof.
  revert acc. induction d; intros acc;
    [reflexivity
    |change (NilEmpty.string_of_uint ?u) with (NilEmpty.string_of_uint u);
     cbn [NilEmpty.string_of_uint Nat.of_uint_acc];
     rewrite int_acc_digit by reflexivity;
     rewrite <- IHd, Nat.tail_mul_spec; f_equal;
     unfold digit_val; cbn [nat_of_ascii]; vm_compute (Z.of_nat (nat_of_ascii _)); lia ..].
Qed.

Lemma int_zfill4 (s : string) : int (zfill4 s) = int s.
Proof.
  destruct s as [|a [|b [|c [|d r]]]]; reflexivity.
Qed.

Lemma int_format_04d (i : nat) : int (format_04d i) = Z.of_nat i.
Proof.
  unfold format_04d. rewrite int_zfill4. unfold int.
  pose proof (int_acc_string_of_uint (Nat.to_uint i) 0) as H.
  change (Nat.of_uint_acc (Nat.to_uint i) 0) with (Nat.of_uint (Nat.to_uint i)) in H.
  rewrite Unsigned.of_to in H. exact H.
Qed.

Lemma substring_whole (s : string) : substring 0 (String.length s) s = s.
Proof.
  induction s as [|c s IH]; simpl; [reflexivity|]. rewrite IH. reflexivity.
Qed.

Lemma numeric_suffix_placeholder (i : nat) :
  numeric_suffix (placeholder_name i) = Z.of_nat i.
Proof.
  unfold numeric_suffix, placeholder_name. simpl.
  rewrite Nat.sub_0_r, substring_whole. apply int_format_04d.
Qed.

Lemma placeholder_name_injective (i j : nat) :
  placeholder_name i = placeholder_name j -> i = j.
Proof.
  intros E.
  pose proof (numeric_suffix_placeholder i) as Hi.
  pose proof (numeric_suffix_placeholder j) as Hj.
  rewrite E in Hi. lia.
Qed.

Lemma prefix_append (s t : string) : String.prefix s (s ++ t) = true.
Proof.
  induction s as [|a s IH]; simpl; [destruct t; reflexivity|].
  destruct (ascii_dec a a) as [_|Hne]; [exact IH|contradiction].
Qed.

(** X1. The name generated for the [i]-th member begins with [member], is
    matched by the placeholder pattern, and its suffix read back as a number
    is [i]; two indices never share a name. *)
Theorem placeholder_name_round_trip (i : nat) :
  String.prefix "member" (placeholder_name i) = true
  /\ like_member (placeholder_name i) = true
  /\ numeric_suffix (placeholder_name i) = Z.of_nat i
  /\ forall j, placeholder_name i = placeholder_name j -> i = j.
Proof.
  assert (Hp : String.prefix "member" (placeholder_name i) = true)
    by apply prefix_append.
  split; [exact Hp|]. split; [apply prefix_like_prefix; exact Hp|].
  split; [apply numeric_suffix_placeholder|].
  intros j. apply placeholder_name_injective.
Qed.

Lemma placeholder_name_round_trip_witness :
  numeric_suffix (placeholder_name 3) = 3 /\ 3%nat = 3%nat.
Proof.
  pose proof (placeholder_name_round_trip 3) as [_ [_ [Hs Hi]]].
  split; [exact Hs|]. apply (Hi 3%nat). reflexivity.
Defined.

(** ** Names, owners and keys in reachable stores *)

Section NameFacts.

Lemma NoDup_insert {A : Type} (a : A) (l l' : list A) :
  NoDup (l ++ l') -> ~ In a (l ++ l') -> NoDup (l ++ a :: l').
Proof.
  induction l as [|x l IH]; simpl; intros Hnd Hn.
  - constructor; assumption.
  - inversion Hnd as [|? ? Hx Hl]; subst. constructor.
    + intros Hin. apply in_app_iff in Hin. destruct Hin as [Hin|[->|Hin]].
      * apply Hx. apply in_app_iff. left. exact Hin.
      * apply Hn. left. reflexivity.
      * apply Hx. apply in_app_iff. right. exact Hin.
    + apply IH; [exact Hl|]. intros Hin. apply Hn. right. exact Hin.
Qed.

Lemma field_unique_filter {B : Type} (field : MemberRow.t -> B)
  (keep : MemberRow.t -> bool) (rows : list MemberRow.t) :
  NoDup (map field rows) -> NoDup (map field (filter keep rows)).
Proof.
  induction rows as [|x rows IH]; simpl; intros H; [constructor|].
  inversion H as [|? ? Hx Hl]; subst.
  destruct (keep x); simpl; [|apply IH; exact Hl].
  constructor; [|apply IH; exact Hl].
  intros Hin. apply Hx. apply in_map_iff in Hin. destruct Hin as [y [E Hy]].
  apply filter_In in Hy. rewrite <- E. apply in_map. apply Hy.
Qed.

Lemma filter_of_map {A B : Type} (p : B -> bool) (f : A -> B) (l : list A) :
  filter p (map f l) = map f (filter (fun x => p (f x)) l).
Proof.
  induction l as [|x l IH]; simpl; [reflexivity|].
  destruct (p (f x)); simpl; rewrite IH; reflexivity.
Qed.

Lemma query_member_none (db : Store) (gid name : string) :
  query_member db gid name = None <->
  ~ In name (map MemberRow.name (members_of db gid)).
Proof.
  unfold query_member, members_of. split.
  - intros H Hin. apply in_map_iff in Hin. destruct Hin as [m [E Hm]].
    apply filter_In in Hm. destruct Hm as [Hm Hg].
    pose proof (find_none _ _ H m Hm) as Hf. cbv beta in Hf.
    rewrite Hg, E, String.eqb_refl in Hf. discriminate.
  - intros H. destruct (find _ (members db)) as [m|] eqn:E; [|reflexivity].
    exfalso. apply find_some in E. destruct E as [Hm Hp].
    apply andb_true_iff in Hp. destruct Hp as [Hg Hn]. apply String.eqb_eq in Hn.
    apply H. apply in_map_iff. exists m. split; [exact Hn|].
    apply filter_In. auto.
Qed.

Variables (k : Z) (new_name : string).

Lemma rename_absent_key (rows : list MemberRow.t) :
  ~ In k (map MemberRow.id rows) -> map (rename_row k new_name) rows = rows.
Proof.
  induction rows as [|x rows IH]; simpl; intros H; [reflexivity|].
  unfold rename_row at 1.
  destruct (Z.eqb_spec (MemberRow.id x) k) as [E|_].
  - exfalso. apply H. left. exact E.
  - rewrite IH; [reflexivity|]. intros Hin. apply H. right. exact Hin.
Qed.

Lemma names_after_rename (rows : list MemberRow.t) :
  NoDup (map MemberRow.id rows) ->
  NoDup (map MemberRow.name rows) ->
  ~ In new_name (map MemberRow.name rows) ->
  NoDup (map MemberRow.name (map (rename_row k new_name) rows)).
Proof.
  induction rows as [|x rows IH]; simpl; intros Hk Hn Hnew; [constructor|].
  inversion Hk as [|? ? Hkx Hkl]; subst. inversion Hn as [|? ? Hnx Hnl]; subst.
  unfold rename_row at 1.
  destruct (Z.eqb_spec (MemberRow.id x) k) as [E|E].
  - rewrite rename_absent_key by (rewrite <- E; exact Hkx).
    simpl. constructor; [|exact Hnl]. intros Hin. apply Hnew. right. exact Hin.
  - constructor.
    + intros Hin. apply in_map_iff in Hin. destruct Hin as [y [Ey Hy]].
      apply in_map_iff in Hy. destruct Hy as [z [<- Hz]].
      unfold rename_row in Ey. destruct (MemberRow.id z =? k).
      * simpl in Ey. apply Hnew. left. symmetry. exact Ey.
      * apply Hnx. rewrite <- Ey. apply in_map. exact Hz.
    + apply IH; [exact Hkl|exact Hnl|]. intros Hin. apply Hnew. right. exact Hin.
Qed.

End NameFacts.

Lemma members_of_renamed (db : Store) (k : Z) (new_name x : string) :
  filter (fun m => String.eqb (MemberRow.gathering_id m) x) (update_member_name db k new_name)
  = map (rename_row k new_name) (members_of db x).
Proof.
  unfold update_member_name, members_of. rewrite filter_of_map.
  f_equal. apply filter_ext. intros m. rewrite rename_keeps_owner. reflexivity.
Qed.

(** Tables that keep [gatherings] and [members]. *)
Lemma tables_ok_same_members (db db' : Store) :
  gatherings db' = gatherings db ->
  members db' = members db ->
  (forall e, In e (expenses db') ->
     exists m, In m (members db) /\ MemberRow.id m = Expense.member_id e) ->
  (forall p, In p (payments db') ->
     exists m, In m (members db) /\ MemberRow.id m = Payment.member_id p) ->
  tables_ok db -> tables_ok db'.
Proof.
  intros HG HM He Hp [Hr Hk Hn _ _]. constructor.
  - intros m Hm. unfold query_gathering. rewrite HG. apply Hr. rewrite <- HM. exact Hm.
  - unfold keys_unique. rewrite HM. exact Hk.
  - intros x. unfold members_of. rewrite HM. apply Hn.
  - intros e Hin. rewrite HM. apply He. exact Hin.
  - intros p Hin. rewrite HM. apply Hp. exact Hin.
Qed.

(** Tables in which one row of [members] was renamed to a name that is free
    in its gathering. *)
Lemma tables_ok_renamed (db db' : Store) (p : MemberRow.t) (new_name : string) :
  In p (members db) ->
  query_member db (MemberRow.gathering_id p) new_name = None ->
  gatherings db' = gatherings db ->
  members db' = update_member_name db (MemberRow.id p) new_name ->
  (forall e, In e (expenses db') ->
     exists m, In m (members db) /\ MemberRow.id m = Expense.member_id e) ->
  (forall q, In q (payments db') ->
     exists m, In m (members db) /\ MemberRow.id m = Payment.member_id q) ->
  tables_ok db -> tables_ok db'.
Proof.
  intros Hp Hfree HG HM He Hq [Hr Hk Hn _ _].
  assert (Hown : forall m, In m (members db) ->
            exists m', In m' (members db') /\ MemberRow.id m' = MemberRow.id m).
  { intros m Hm. eexists. split.
    - rewrite HM. unfold update_member_name. apply in_map. exact Hm.
    - apply rename_keeps_key. }
  constructor.
  - intros m Hm. rewrite HM in Hm. unfold update_member_name in Hm.
    apply in_map_iff in Hm. destruct Hm as [m0 [<- Hm0]].
    rewrite rename_keeps_owner. unfold query_gathering. rewrite HG. apply (Hr m0 Hm0).
  - unfold keys_unique. rewrite HM. unfold update_member_name. rewrite map_map.
    rewrite (map_ext _ MemberRow.id (rename_keeps_key _ _)). exact Hk.
  - intros x. unfold members_of at 1. rewrite HM, members_of_renamed.
    destruct (String.eqb_spec (MemberRow.gathering_id p) x) as [<-|Hne].
    + apply names_after_rename.
      * apply keys_unique_filter. exact Hk.
      * apply Hn.
      * apply query_member_none. exact Hfree.
    + rewrite rename_absent_key; [apply Hn|].
      intros Hin. apply in_map_iff in Hin. destruct Hin as [y [Ey Hy]].
      unfold members_of in Hy. apply filter_In in Hy. destruct Hy as [Hy Hg].
      apply String.eqb_eq in Hg. apply Hne.
      rewrite <- (key_determines_row _ y p Hk Hy Hp Ey). exact Hg.
  - intros e Hin. destruct (He e Hin) as [m [Hm E]].
    destruct (Hown m Hm) as [m' [Hm' E']]. exists m'. split; [exact Hm'|]. congruence.
  - intros q Hin. destruct (Hq q Hin) as [m [Hm E]].
    destruct (Hown m Hm) as [m' [Hm' E']]. exists m'. split; [exact Hm'|]. congruence.
Qed.

(** Tables in which rows of [gatherings] were rewritten, keys kept. *)
Lemma tables_ok_gatherings_map (db db' : Store) (F : GatheringRow.t -> GatheringRow.t) :
  gatherings db' = map F (gatherings db) ->
  members db' = members db ->
  expenses db' = expenses db ->
  payments db' = payments db ->
  (forall x, GatheringRow.id (F x) = GatheringRow.id x) ->
  tables_ok db -> tables_ok db'.
Proof.
  intros HG HM HE HP Hid [Hr Hk Hn He Hp]. constructor.
  - intros m Hm. rewrite HM in Hm.
    rewrite (query_gathering_map db db' F _ HG Hid).
    specialize (Hr m Hm). destruct (query_gathering db (MemberRow.gathering_id m));
      [discriminate|contradiction].
  - unfold keys_unique. rewrite HM. exact Hk.
  - intros x. unfold members_of. rewrite HM. apply Hn.
  - intros e Hin. rewrite HM. apply He. rewrite <- HE. exact Hin.
  - intros p Hin. rewrite HM. apply Hp. rewrite <- HP. exact Hin.
Qed.

(** The cascade of one member keeps the tables well formed. *)
Lemma delete_member_keeps_tables (db : Store) (k : Z) :
  tables_ok db -> tables_ok (delete_member db k).
Proof.
  intros [Hr Hk Hn He Hp]. constructor.
  - intros m Hm. simpl in Hm. apply filter_In in Hm. apply (Hr m (proj1 Hm)).
  - unfold keys_unique. simpl. apply keys_unique_filter. exact Hk.
  - intros x. unfold members_of. simpl. rewrite filter_twice.
    rewrite (filter_ext _ (fun m => String.eqb (MemberRow.gathering_id m) x
                                    && negb (MemberRow.id m =? k)))
      by (intros m; apply andb_comm).
    rewrite <- filter_twice. apply field_unique_filter. apply Hn.
  - intros e Hin. simpl in Hin. apply filter_In in Hin. destruct Hin as [Hin Hne].
    destruct (He e Hin) as [m [Hm E]]. exists m. split; [|exact E].
    simpl. apply filter_In. split; [exact Hm|]. rewrite E. exact Hne.
  - intros p Hin. simpl in Hin. apply filter_In in Hin. destruct Hin as [Hin Hne].
    destruct (Hp p Hin) as [m [Hm E]]. exists m. split; [|exact E].
    simpl. apply filter_In. split; [exact Hm|]. rewrite E. exact Hne.
Qed.

Lemma fold_delete_keeps_tables (L : list MemberRow.t) (db : Store) :
  tables_ok db ->
  tables_ok (fold_left (fun d m => delete_member d (MemberRow.id m)) L db).
Proof.
  revert db. induction L as [|y L IH]; intros db H; simpl; [exact H|].
  apply IH. apply delete_member_keeps_tables. exact H.
Qed.

Lemma owned_after_append {R : Type} (owner : R -> Z) (rows : list R) (r : R)
  (ms : list MemberRow.t) (m : MemberRow.t) :
  (forall x, In x rows -> exists m', In m' ms /\ MemberRow.id m' = owner x) ->
  In m ms -> MemberRow.id m = owner r ->
  forall x, In x (rows ++ [r]) -> exists m', In m' ms /\ MemberRow.id m' = owner x.
Proof.
  intros Hold Hm E x Hx. apply in_app_iff in Hx. destruct Hx as [Hx|[<-|[]]].
  - apply Hold. exact Hx.
  - exists m. auto.
Qed.

Lemma add_expense_keeps_tables (db : Store) (gid name : string) (amount : Q) :
  tables_ok db -> tables_ok (fst (add_expense db gid name amount)).
Proof.
  intros H. unfold add_expense.
  destruct (Qle_bool amount 0); [exact H|].
  destruct (query_gathering db gid) as [g|]; [|exact H].
  destruct (GatheringStatus_eqb (GatheringRow.status g) CLOSED); [exact H|].
  destruct (query_member db gid name) as [m|] eqn:Hm.
  - destruct (query_member_some _ _ _ _ Hm) as [Hin _]. simpl.
    apply (tables_ok_same_members db); [reflexivity|reflexivity| |apply (tb_payments _ H)|exact H].
    simpl. apply (owned_after_append Expense.member_id _ _ _ m (tb_expenses _ H) Hin).
    reflexivity.
  - destruct (query_unnamed_members db gid) as [|p rest] eqn:Hu; [exact H|].
    destruct (unnamed_member_in _ _ _ _ Hu) as [Hin [Hg _]]. simpl.
    apply (tables_ok_renamed db _ p name Hin); try reflexivity; try exact H.
    + rewrite Hg. exact Hm.
    + simpl. apply (owned_after_append Expense.member_id _ _ _ p (tb_expenses _ H) Hin).
      reflexivity.
    + apply (tb_payments _ H).
Qed.

Lemma record_payment_keeps_tables (db : Store) (gid name : string) (amount : Q) :
  tables_ok db -> tables_ok (fst (record_payment db gid name amount)).
Proof.
  intros H. unfold record_payment.
  destruct (query_gathering db gid) as [g|]; [|exact H].
  destruct (GatheringStatus_eqb (GatheringRow.status g) CLOSED); [exact H|].
  destruct (query_member db gid name) as [m|] eqn:Hm; [|exact H].
  destruct (query_member_some _ _ _ _ Hm) as [Hin _]. simpl.
  apply (tables_ok_same_members db); [reflexivity|reflexivity|apply (tb_expenses _ H)| |exact H].
  simpl. apply (owned_after_append Payment.member_id _ _ _ m (tb_payments _ H) Hin).
  reflexivity.
Qed.

Lemma rename_member_keeps_tables (db : Store) (gid old_name new_name : string) :
  tables_ok db -> tables_ok (fst (rename_member db gid old_name new_name)).
Proof.
  intros H. unfold rename_member.
  destruct (query_gathering db gid) as [g|]; [|exact H].
  destruct (GatheringStatus_eqb (GatheringRow.status g) CLOSED); [exact H|].
  destruct (query_member db gid old_name) as [m|] eqn:Hm; [|exact H].
  destruct (query_member db gid new_name) as [m'|] eqn:Hn; [exact H|].
  destruct (query_member_some _ _ _ _ Hm) as [Hin [Hg _]]. simpl.
  apply (tables_ok_renamed db _ m new_name Hin); try reflexivity; try exact H.
  - rewrite Hg. exact Hn.
  - apply (tb_expenses _ H).
  - apply (tb_payments _ H).
Qed.

Lemma close_gathering_keeps_tables (db : Store) (gid : string) :
  tables_ok db -> tables_ok (fst (close_gathering db gid)).
Proof.
  intros H. unfold close_gathering.
  destruct (query_gathering db gid) as [g|]; [|exact H].
  destruct (GatheringStatus_eqb (GatheringRow.status g) CLOSED); [exact H|].
  simpl. eapply (tables_ok_gatherings_map db); try reflexivity; [|exact H].
  apply update_preserves_id. reflexivity.
Qed.

Lemma remove_member_keeps_tables (db : Store) (gid name : string) :
  tables_ok db -> tables_ok (fst (remove_member db gid name)).
Proof.
  intros H. unfold remove_member.
  destruct (query_gathering db gid) as [g|]; [|exact H].
  destruct (GatheringStatus_eqb (GatheringRow.status g) CLOSED); [exact H|].
  destruct (query_member db gid name) as [m|]; [|exact H].
  destruct (0 <? List.length (expenses_of db (MemberRow.id m)))%nat; [exact H|].
  destruct (0 <? List.length (payments_of db (MemberRow.id m)))%nat; [exact H|].
  simpl. eapply (tables_ok_gatherings_map (delete_member db (MemberRow.id m)));
    try reflexivity.
  - apply update_preserves_id. reflexivity.
  - apply delete_member_keeps_tables. exact H.
Qed.

Lemma add_member_keeps_tables (db : Store) (gid name : string) :
  tables_ok db -> tables_ok (fst (add_member db gid name)).
Proof.
  intros H. unfold add_member.
  destruct (query_gathering db gid) as [g|] eqn:Hg; [|exact H].
  destruct (GatheringStatus_eqb (GatheringRow.status g) CLOSED); [exact H|].
  destruct (query_member db gid name) as [m|] eqn:Hm; [exact H|].
  destruct H as [Hr Hk Hn He Hp]. simpl.
  assert (HF : forall x, GatheringRow.id
                 (if String.eqb (GatheringRow.id x) (GatheringRow.id g)
                  then set_total_members (GatheringRow.total_members g + 1) x else x)
               = GatheringRow.id x)
    by (apply update_preserves_id; reflexivity).
  constructor.
  - intros m Hin. simpl in Hin.
    erewrite (query_gathering_map db); [|reflexivity|exact HF].
    apply in_app_iff in Hin. destruct Hin as [Hin|[<-|[]]].
    + specialize (Hr m Hin).
      destruct (query_gathering db (MemberRow.gathering_id m)); [discriminate|contradiction].
    + simpl. rewrite Hg. discriminate.
  - unfold keys_unique. simpl. rewrite map_app. simpl.
    apply NoDup_app; [exact Hk|repeat constructor; intros []|].
    intros a Ha [<-|[]]. apply next_id_above in Ha. lia.
  - intros x. unfold members_of. simpl. rewrite filter_app, map_app. simpl.
    destruct (String.eqb_spec gid x) as [<-|_]; simpl.
    + apply NoDup_insert; rewrite app_nil_r; [apply Hn|].
      apply query_member_none. exact Hm.
    + rewrite app_nil_r. apply Hn.
  - intros e Hin. simpl in Hin. destruct (He e Hin) as [m [Hmi E]].
    exists m. split; [|exact E]. simpl. apply in_app_iff. left. exact Hmi.
  - intros p Hin. simpl in Hin. destruct (Hp p Hin) as [m [Hmi E]].
    exists m. split; [|exact E]. simpl. apply in_app_iff. left. exact Hmi.
Qed.

Lemma placeholders_names (first_id : Z) (gid : string) (n : Z) :
  map MemberRow.name (placeholders first_id gid n)
  = map placeholder_name (seq 1 (Z.to_nat n)).
Proof.
  unfold placeholders. rewrite map_map. reflexivity.
Qed.

Lemma placeholders_names_unique (first_id : Z) (gid : string) (n : Z) :
  NoDup (map MemberRow.name (placeholders first_id gid n)).
Proof.
  rewrite placeholders_names.
  apply NoDup_map_NoDup_ForallPairs; [|apply seq_NoDup].
  intros i j _ _ E. apply placeholder_name_injective. exact E.
Qed.

(** A gathering that does not exist has no member rows. *)
Lemma no_members_without_gathering (db : Store) (gid : string) :
  references_ok db -> query_gathering db gid = None -> members_of db gid = [].
Proof.
  intros Hr Hg. unfold members_of. apply filter_none. intros m Hm.
  destruct (String.eqb_spec (MemberRow.gathering_id m) gid) as [E|_]; [|reflexivity].
  exfalso. apply (Hr m Hm). rewrite E. exact Hg.
Qed.

Lemma create_gathering_keeps_tables (db : Store) (gid : string) (n : Z) :
  tables_ok db -> tables_ok (fst (create_gathering db gid n)).
Proof.
  intros H. unfold create_gathering.
  destruct (strptime (date_part gid)) as [date|]; [|exact H].
  destruct (query_gathering db gid) as [g|] eqn:Hg; [exact H|].
  destruct (fits_integer n); [|exact H].
  destruct H as [Hr Hk Hn He Hp]. simpl.
  set (first := next_id (map MemberRow.id (members db))).
  constructor.
  - intros m Hm. simpl in Hm. unfold query_gathering. simpl. rewrite find_app.
    apply in_app_iff in Hm. destruct Hm as [Hm|Hm].
    + specialize (Hr m Hm). unfold query_gathering in Hr.
      destruct (find _ (gatherings db)); [discriminate|contradiction].
    + rewrite (placeholders_owner _ _ _ _ Hm).
      unfold query_gathering in Hg. rewrite Hg. simpl.
      rewrite String.eqb_refl. discriminate.
  - unfold keys_unique. simpl. rewrite map_app.
    apply NoDup_app; [exact Hk|apply placeholders_keys_unique|].
    intros a Ha Hpl. apply placeholders_keys_above in Hpl.
    apply next_id_above in Ha. fold first in Ha. lia.
  - intros x. unfold members_of. simpl. rewrite filter_app, map_app.
    destruct (String.eqb_spec gid x) as [<-|Hne].
    + pose proof (no_members_without_gathering db gid Hr Hg) as Hnone.
      unfold members_of in Hnone. rewrite Hnone. simpl.
      rewrite filter_all.
      * apply placeholders_names_unique.
      * intros p Hpl. rewrite (placeholders_owner _ _ _ _ Hpl). apply String.eqb_refl.
    + rewrite (filter_none _ (placeholders first gid n)).
      * simpl. rewrite app_nil_r. apply Hn.
      * intros p Hpl. rewrite (placeholders_owner _ _ _ _ Hpl).
        apply String.eqb_neq. exact Hne.
  - intros e Hin. simpl in Hin. destruct (He e Hin) as [m [Hmi E]].
    exists m. split; [|exact E]. simpl. apply in_app_iff. left. exact Hmi.
  - intros p Hin. simpl in Hin. destruct (Hp p Hin) as [m [Hmi E]].
    exists m. split; [|exact E]. simpl. apply in_app_iff. left. exact Hmi.
Qed.

(** After the cascade of a gathering, no row of [members] names it. *)
Lemma cascade_removes_members (db : Store) (gid : string) (m : MemberRow.t) :
  In m (members (fold_left (fun d x => delete_member d (MemberRow.id x))
                           (members_of db gid) db)) ->
  In m (members db) /\ MemberRow.gathering_id m <> gid.
Proof.
  destruct (fold_delete_member (members_of db gid) db) as [_ HM].
  rewrite HM. intros Hin. apply filter_In in Hin. destruct Hin as [Hin HP].
  split; [exact Hin|]. intros E.
  assert (HmL : In m (members_of db gid)).
  { unfold members_of. apply filter_In. split; [exact Hin|]. apply String.eqb_eq. exact E. }
  pose proof (proj1 (forallb_forall _ _) HP m HmL) as Hf.
  cbv beta in Hf. rewrite Z.eqb_refl in Hf. discriminate.
Qed.

Lemma delete_gathering_keeps_tables (db : Store) (gid : string) (force : bool) :
  tables_ok db -> tables_ok (fst (delete_gathering db gid force)).
Proof.
  intros H. unfold delete_gathering.
  destruct (query_gathering db gid) as [g|] eqn:Hg; [|exact H].
  destruct (GatheringStatus_eqb (GatheringRow.status g) CLOSED && negb force); [exact H|].
  simpl.
  pose proof (fold_delete_keeps_tables (members_of db (GatheringRow.id g)) db H) as H1.
  destruct (fold_delete_member (members_of db (GatheringRow.id g)) db) as [HG _].
  set (db1 := fold_left _ _ db) in *.
  destruct H1 as [Hr Hk Hn He Hp]. constructor; try assumption.
  intros m Hm. simpl in Hm.
  destruct (cascade_removes_members db (GatheringRow.id g) m Hm) as [_ Hne].
  specialize (Hr m Hm). unfold query_gathering in *. simpl. rewrite find_filter.
  rewrite (find_ext _ (fun x => String.eqb (GatheringRow.id x) (MemberRow.gathering_id m))).
  - exact Hr.
  - intros x _.
    destruct (String.eqb_spec (GatheringRow.id x) (MemberRow.gathering_id m)) as [E|_].
    + rewrite andb_true_r. apply negb_true_iff, String.eqb_neq. congruence.
    + apply andb_false_r.
Qed.

Lemma step_keeps_tables (db : Store) (c : Call) :
  tables_ok db -> tables_ok (step db c).
Proof.
  destruct c; simpl; intros H.
  - apply create_gathering_keeps_tables; assumption.
  - apply add_member_keeps_tables; assumption.
  - apply remove_member_keeps_tables; assumption.
  - apply add_expense_keeps_tables; assumption.
  - apply record_payment_keeps_tables; assumption.
  - apply rename_member_keeps_tables; assumption.
  - apply close_gathering_keeps_tables; assumption.
  - apply delete_gathering_keeps_tables; assumption.
Qed.

Lemma empty_tables_ok : tables_ok empty_store.
Proof.
  constructor.
  - intros m [].
  - constructor.
  - intros x. constructor.
  - intros e [].
  - intros p [].
Qed.

Lemma run_keeps_tables (calls : list Call) (db : Store) :
  tables_ok db -> tables_ok (run calls db).
Proof.
  unfold run. revert db. induction calls as [|c calls IH]; intros db H; simpl.
  - exact H.
  - apply IH. apply step_keeps_tables. exact H.
Qed.

Lemma member_names_unique_in_run (calls : list Call) (gathering_id : string) :
  NoDup (map MemberRow.name (members_of (run calls empty_store) gathering_id)).
Proof.
  apply (tb_names _ (run_keeps_tables calls empty_store empty_tables_ok)).
Qed.

(** X2. Whatever calls are made, in whatever order and whether they return
    or raise, the names of the members of a gathering stay pairwise
    distinct. *)
Theorem member_names_stay_unique (calls : list Call) (gathering_id : string) :
  NoDup (map MemberRow.name (members_of (run calls empty_store) gathering_id))
  /\ forall G, get_gathering (run calls empty_store) gathering_id = Some G ->
                NoDup (map Member.name (Gathering.members G)).
Proof.
  split; [apply member_names_unique_in_run|].
  intros G HG. unfold get_gathering in HG.
  destruct (query_gathering (run calls empty_store) gathering_id) as [g|] eqn:Hg;
    [|discriminate].
  injection HG as <-. simpl. rewrite map_map. simpl.
  apply member_names_unique_in_run.
Qed.

(** X3. Referential integrity in every reachable store: each member row
    belongs to a gathering that exists, and each expense and each payment
    belongs to a member that exists. *)
Theorem rows_stay_owned (calls : list Call) :
  let db := run calls empty_store in
  Forall (fun m => query_gathering db (MemberRow.gathering_id m) <> None) (members db)
  /\ Forall (fun e => In (Expense.member_id e) (map MemberRow.id (members db))) (expenses db)
  /\ Forall (fun p => In (Payment.member_id p) (map MemberRow.id (members db))) (payments db).
Proof.
  pose proof (run_keeps_tables calls empty_store empty_tables_ok) as [Hr _ _ He Hp].
  cbv zeta. split; [|split]; apply Forall_forall.
  - exact Hr.
  - intros e Hin. destruct (He e Hin) as [m [Hm E]]. rewrite <- E. apply in_map. exact Hm.
  - intros p Hin. destruct (Hp p Hin) as [m [Hm E]]. rewrite <- E. apply in_map. exact Hm.
Qed.

(** ** [create_gathering] followed by [get_gathering] *)

(** A key above every key in use has no expense and no payment. *)
Lemma fresh_key_has_no_activity (db : Store) (k : Z) :
  tables_ok db ->
  next_id (map MemberRow.id (members db)) <= k ->
  expenses_of db k = [] /\ payments_of db k = [].
Proof.
  intros H Hk. split.
  - unfold expenses_of. apply filter_none. intros e He.
    destruct (tb_expenses _ H e He) as [m [Hm E]].
    pose proof (next_id_above _ _ (in_map MemberRow.id _ _ Hm)) as Hlt.
    apply Z.eqb_neq. lia.
  - unfold payments_of. apply filter_none. intros p Hp.
    destruct (tb_payments _ H p Hp) as [m [Hm E]].
    pose proof (next_id_above _ _ (in_map MemberRow.id _ _ Hm)) as Hlt.
    apply Z.eqb_neq. lia.
Qed.

Lemma fits_integer_range (n : Z) :
  fits_integer n = true <-> -9223372036854775808 <= n <= 9223372036854775807.
Proof.
  unfold fits_integer. rewrite andb_true_iff, !Z.leb_le. reflexivity.
Qed.

Lemma create_then_get (db : Store) (gid : string) (n : Z) :
  tables_ok db ->
  date_prefix_ok gid = true ->
  query_gathering db gid = None ->
  fits_integer n = true ->
  exists G,
    snd (create_gathering db gid n) = Ok (Some G)
    /\ get_gathering (fst (create_gathering db gid n)) gid = Some G
    /\ Gathering.id G = gid
    /\ Gathering.total_members G = n
    /\ Gathering.status G = OPEN
    /\ map Member.name (Gathering.members G) = map placeholder_name (seq 1 (Z.to_nat n))
    /\ Forall (fun m => Member.expenses m = [] /\ Member.payments m = [])
              (Gathering.members G).
Proof.
  intros H Hok Hq Hn. apply date_prefix_ok_iff in Hok. unfold create_gathering.
  destruct (strptime (date_part gid)) as [v|]; [|contradiction].
  rewrite Hq, Hn. cbn [fst snd].
  set (first := next_id (map MemberRow.id (members db))).
  set (db' := mkStore _ _ _ _).
  assert (Hmem : members_of db' gid = placeholders first gid n).
  { unfold members_of, db'. simpl. rewrite filter_app.
    pose proof (no_members_without_gathering db gid (tb_references _ H) Hq) as Hnone.
    unfold members_of in Hnone. rewrite Hnone. simpl. apply filter_all.
    intros p Hp. rewrite (placeholders_owner _ _ _ _ Hp). apply String.eqb_refl. }
  assert (HG : get_gathering db' gid
               = Some (Gathering.mk gid n OPEN
                         (map (load_member db') (placeholders first gid n)))).
  { unfold get_gathering, query_gathering. unfold db' at 1. simpl.
    rewrite find_app. unfold query_gathering in Hq. rewrite Hq. simpl.
    rewrite String.eqb_refl. simpl. rewrite Hmem. reflexivity. }
  eexists. split; [rewrite HG; reflexivity|]. split; [exact HG|]. simpl.
  split; [reflexivity|]. split; [reflexivity|]. split; [reflexivity|].
  split.
  - rewrite map_map. simpl. apply placeholders_names.
  - apply Forall_forall. intros M HM. apply in_map_iff in HM.
    destruct HM as [p [<- Hp]]. simpl.
    assert (Hkey : first <= MemberRow.id p).
    { apply (placeholders_keys_above first gid n). apply in_map. exact Hp. }
    destruct (fresh_key_has_no_activity db (MemberRow.id p) H Hkey) as [He Hpay].
    split; [exact He|exact Hpay].
Qed.

(** X4. Round trip.  In any reachable store, [create_gathering] with an id
    that passes the date check and is not in use, and with a member count
    that fits the 64-bit [Integer] column, returns the gathering that
    [get_gathering] then finds: open, with the given [total_members], and
    with the members [member0001], [member0002], ... in that order, none of
    which has an expense or a payment. *)
Theorem create_gathering_round_trip (calls : list Call) (gid : string) (n : Z) :
  let db := run calls empty_store in
  date_prefix_ok gid = true ->
  query_gathering db gid = None ->
  -9223372036854775808 <= n <= 9223372036854775807 ->
  exists G,
    snd (create_gathering db gid n) = Ok (Some G)
    /\ get_gathering (fst (create_gathering db gid n)) gid = Some G
    /\ Gathering.id G = gid
    /\ Gathering.total_members G = n
    /\ Gathering.status G = OPEN
    /\ map Member.name (Gathering.members G) = map placeholder_name (seq 1 (Z.to_nat n))
    /\ Forall (fun m => Member.expenses m = [] /\ Member.payments m = [])
              (Gathering.members G).
Proof.
  intros db Hok Hq Hn. apply create_then_get; [|exact Hok|exact Hq|].
  - apply (run_keeps_tables calls empty_store empty_tables_ok).
  - apply fits_integer_range. exact Hn.
Qed.

Lemma create_gathering_round_trip_witness :
  exists G,
    snd (create_gathering closed_store friendsbeer 3) = Ok (Some G)
    /\ map Member.name (Gathering.members G) = ["member0001"; "member0002"; "member0003"].
Proof.
  destruct (create_gathering_round_trip
              [CreateGathering dinner 2; CloseGathering dinner] friendsbeer 3
              eq_refl eq_refl) as [G [H1 [_ [_ [_ [_ [H2 _]]]]]]]; [lia|].
  exists G. split; [exact H1|exact H2].
Defined.

(** ** The lifecycle: closed is final *)

Lemma add_expense_keeps_gatherings (db : Store) (gid name : string) (amount : Q) :
  gatherings (fst (add_expense db gid name amount)) = gatherings db.
Proof.
  unfold add_expense.
  destruct (Qle_bool amount 0); [reflexivity|].
  destruct (query_gathering db gid) as [g|]; [|reflexivity].
  destruct (GatheringStatus_eqb (GatheringRow.status g) CLOSED); [reflexivity|].
  destruct (query_member db gid name); [reflexivity|].
  destruct (query_unnamed_members db gid); reflexivity.
Qed.

Lemma record_payment_keeps_gatherings (db : Store) (gid name : string) (amount : Q) :
  gatherings (fst (record_payment db gid name amount)) = gatherings db.
Proof.
  unfold record_payment.
  destruct (query_gathering db gid) as [g|]; [|reflexivity].
  destruct (GatheringStatus_eqb (GatheringRow.status g) CLOSED); [reflexivity|].
  destruct (query_member db gid name); reflexivity.
Qed.

Lemma rename_member_keeps_gatherings (db : Store) (gid old_name new_name : string) :
  gatherings (fst (rename_member db gid old_name new_name)) = gatherings db.
Proof.
  unfold rename_member.
  destruct (query_gathering db gid) as [g|]; [|reflexivity].
  destruct (GatheringStatus_eqb (GatheringRow.status g) CLOSED); [reflexivity|].
  destruct (query_member db gid old_name); [|reflexivity].
  destruct (query_member db gid new_name); reflexivity.
Qed.

Lemma query_gathering_same_rows (db db' : Store) (gid : string) :
  gatherings db' = gatherings db -> query_gathering db' gid = query_gathering db gid.
Proof.
  intros H. unfold query_gathering. rewrite H. reflexivity.
Qed.

(** Looking a gathering up after the rows of another were filtered out. *)
Lemma query_after_delete_other (rows : list GatheringRow.t) (gid gid' : string) :
  gid' <> gid ->
  find (fun x => String.eqb (GatheringRow.id x) gid)
       (filter (fun x => negb (String.eqb (GatheringRow.id x) gid')) rows)
  = find (fun x => String.eqb (GatheringRow.id x) gid) rows.
Proof.
  intros Hne. rewrite find_filter. apply find_ext. intros x _.
  destruct (String.eqb_spec (GatheringRow.id x) gid) as [E|_].
  - rewrite andb_true_r. apply negb_true_iff, String.eqb_neq. congruence.
  - apply andb_false_r.
Qed.

Lemma query_after_delete_same (rows : list GatheringRow.t) (gid : string) :
  find (fun x => String.eqb (GatheringRow.id x) gid)
       (filter (fun x => negb (String.eqb (GatheringRow.id x) gid)) rows)
  = None.
Proof.
  rewrite find_filter.
  destruct (find _ rows) as [x|] eqn:E; [|reflexivity].
  apply find_some in E. destruct E as [_ E].
  destruct (String.eqb (GatheringRow.id x) gid); discriminate.
Qed.

(** X5. There is no way back from CLOSED.  Whatever call is made next, a
    closed gathering is afterwards found exactly as it was (closed, same
    [total_members]), unless the call is a forced [delete_gathering] of it,
    after which it is not found. *)
Theorem closed_is_final (db : Store) (c : Call) (gid : string) (g : GatheringRow.t) :
  query_gathering db gid = Some g ->
  GatheringRow.status g = CLOSED ->
  query_gathering (step db c) gid = Some g
  \/ (c = DeleteGathering gid true /\ query_gathering (step db c) gid = None).
Proof.
  intros Hg Hc.
  destruct (query_gathering_some _ _ _ Hg) as [_ Hid].
  destruct c as [g' n|g' m|g' m|g' m a|g' m a|g' o nn|g'|g' f]; simpl.
  - left. unfold create_gathering.
    destruct (strptime (date_part g')); [|exact Hg].
    destruct (query_gathering db g') eqn:E; [exact Hg|].
    destruct (fits_integer n); [|exact Hg]. simpl.
    unfold query_gathering. simpl. rewrite find_app.
    unfold query_gathering in Hg. rewrite Hg. reflexivity.
  - left. unfold add_member.
    destruct (query_gathering db g') as [g0|] eqn:E; [|exact Hg].
    destruct (GatheringStatus_eqb (GatheringRow.status g0) CLOSED) eqn:Es; [exact Hg|].
    destruct (query_member db g' m); [exact Hg|]. simpl.
    destruct (query_gathering_some _ _ _ E) as [_ Hid0].
    unfold query_gathering at 1. simpl.
    rewrite (query_after_update_other db (GatheringRow.id g0) gid); [exact Hg|reflexivity|].
    intros Heq. assert (Hsame : g0 = g) by congruence.
    rewrite Hsame, Hc in Es. discriminate.
  - left. unfold remove_member.
    destruct (query_gathering db g') as [g0|] eqn:E; [|exact Hg].
    destruct (GatheringStatus_eqb (GatheringRow.status g0) CLOSED) eqn:Es; [exact Hg|].
    destruct (query_member db g' m) as [m0|]; [|exact Hg].
    destruct (0 <? List.length (expenses_of db (MemberRow.id m0)))%nat; [exact Hg|].
    destruct (0 <? List.length (payments_of db (MemberRow.id m0)))%nat; [exact Hg|].
    simpl. destruct (query_gathering_some _ _ _ E) as [_ Hid0].
    unfold query_gathering at 1. simpl.
    rewrite (query_after_update_other (delete_member db (MemberRow.id m0))
               (GatheringRow.id g0) gid); [exact Hg|reflexivity|].
    intros Heq. assert (Hsame : g0 = g) by congruence.
    rewrite Hsame, Hc in Es. discriminate.
  - left. rewrite (query_gathering_same_rows db _ gid (add_expense_keeps_gatherings _ _ _ _)).
    exact Hg.
  - left. rewrite (query_gathering_same_rows db _ gid (record_payment_keeps_gatherings _ _ _ _)).
    exact Hg.
  - left. rewrite (query_gathering_same_rows db _ gid (rename_member_keeps_gatherings _ _ _ _)).
    exact Hg.
  - left. unfold close_gathering.
    destruct (query_gathering db g') as [g0|] eqn:E; [|exact Hg].
    destruct (GatheringStatus_eqb (GatheringRow.status g0) CLOSED) eqn:Es; [exact Hg|].
    simpl. destruct (query_gathering_some _ _ _ E) as [_ Hid0].
    unfold query_gathering at 1. simpl.
    rewrite (query_after_update_other db (GatheringRow.id g0) gid); [exact Hg|reflexivity|].
    intros Heq. assert (Hsame : g0 = g) by congruence.
    rewrite Hsame, Hc in Es. discriminate.
  - unfold delete_gathering.
    destruct (query_gathering db g') as [g0|] eqn:E; [|left; exact Hg].
    destruct (query_gathering_some _ _ _ E) as [_ Hid0].
    destruct (fold_delete_member (members_of db (GatheringRow.id g0)) db) as [HG _].
    destruct (String.eqb_spec g' gid) as [->|Hne].
    + rewrite Hg in E. injection E as <-. rewrite Hc. simpl.
      destruct f; simpl.
      * right. split; [reflexivity|].
        unfold query_gathering. simpl. rewrite HG, Hid.
        apply query_after_delete_same.
      * left. exact Hg.
    + left. destruct (GatheringStatus_eqb (GatheringRow.status g0) CLOSED && negb f);
        [exact Hg|].
      simpl. unfold query_gathering at 1. simpl. rewrite HG, Hid0.
      rewrite query_after_delete_other; [exact Hg|exact Hne].
Qed.

Lemma closed_is_final_witness :
  query_gathering (step closed_store (AddMember dinner "Eve")) dinner
  = Some (GatheringRow.mk dinner 2 CLOSED).
Proof.
  destruct (closed_is_final closed_store (AddMember dinner "Eve") dinner
              (GatheringRow.mk dinner 2 CLOSED) eq_refl eq_refl) as [H|[H _]].
  - exact H.
  - discriminate H.
Defined.

(** ** Failed calls change nothing *)

Lemma not_closed_is_open (s : GatheringStatus) :
  GatheringStatus_eqb s CLOSED = false -> s = OPEN.
Proof. destruct s; [reflexivity|discriminate]. Qed.

Lemma amount_accepted (amount : Q) : Qle_bool amount 0 = false -> (0 < amount)%Q.
Proof.
  intros H. apply Qnot_le_lt. intros Hle. apply Qle_bool_iff in Hle.
  rewrite Hle in H. discriminate.
Qed.

Lemma add_expense_atomic (db : Store) (gid name : string) (amount : Q) (e : Error) :
  snd (add_expense db gid name amount) = Err e ->
  fst (add_expense db gid name amount) = db /\ internal_error e = false.
Proof.
  destruct (Qle_bool amount 0) eqn:Ea.
  { unfold add_expense. rewrite Ea. simpl. intros H. injection H as <-. auto. }
  destruct (query_gathering db gid) as [g|] eqn:Hg.
  2:{ unfold add_expense. rewrite Ea, Hg. simpl. intros H. injection H as <-. auto. }
  destruct (GatheringStatus_eqb (GatheringRow.status g) CLOSED) eqn:Es.
  { unfold add_expense. rewrite Ea, Hg, Es. simpl. intros H. injection H as <-. auto. }
  pose proof (not_closed_is_open _ Es) as Ho. pose proof (amount_accepted _ Ea) as Hpos.
  destruct (query_member db gid name) as [m|] eqn:Hm.
  { destruct (add_expense_existing db gid name amount g m Hg Ho Hpos Hm) as [G [_ E]].
    rewrite E. simpl. discriminate. }
  destruct (query_unnamed_members db gid) as [|p rest] eqn:Hu.
  { rewrite (add_expense_unresolved db gid name amount g Hg Ho Hpos Hm Hu). simpl.
    intros H. injection H as <-. auto. }
  destruct (add_expense_rename db gid name amount g p rest Hg Ho Hpos Hm Hu) as [G [_ E]].
  rewrite E. simpl. discriminate.
Qed.

Lemma record_payment_atomic (db : Store) (gid name : string) (amount : Q) (e : Error) :
  snd (record_payment db gid name amount) = Err e ->
  fst (record_payment db gid name amount) = db /\ internal_error e = false.
Proof.
  unfold record_payment.
  destruct (query_gathering db gid) as [g|] eqn:Hg;
    [|simpl; intros H; injection H as <-; auto].
  destruct (GatheringStatus_eqb (GatheringRow.status g) CLOSED);
    [simpl; intros H; injection H as <-; auto|].
  destruct (query_member db gid name) as [m|] eqn:Hm;
    [|simpl; intros H; injection H as <-; auto].
  cbn [fst snd].
  set (db' := mkStore _ _ _ _).
  destruct (reload_ok db' gid name g m Hg Hm) as [G [_ E]].
  rewrite E. discriminate.
Qed.

Lemma rename_member_atomic (db : Store) (gid old_name new_name : string) (e : Error) :
  snd (rename_member db gid old_name new_name) = Err e ->
  fst (rename_member db gid old_name new_name) = db /\ internal_error e = false.
Proof.
  unfold rename_member.
  destruct (query_gathering db gid) as [g|] eqn:Hg;
    [|simpl; intros H; injection H as <-; auto].
  destruct (GatheringStatus_eqb (GatheringRow.status g) CLOSED);
    [simpl; intros H; injection H as <-; auto|].
  destruct (query_member db gid old_name) as [m|] eqn:Hm;
    [|simpl; intros H; injection H as <-; auto].
  destruct (query_member db gid new_name) as [m'|] eqn:Hn;
    [simpl; intros H; injection H as <-; auto|].
  cbn [fst snd].
  set (db' := mkStore _ _ _ _).
  destruct (query_member_some _ _ _ _ Hm) as [Hin [Hgid _]].
  pose proof (query_member_renamed db gid new_name m Hn Hin Hgid) as Hq.
  destruct (reload_ok db' gid new_name g _ Hg Hq) as [G [_ E]].
  rewrite E. discriminate.
Qed.

(** X6. Every operation is all or nothing: a call that raises leaves the
    store exactly as it was.  In particular the look-ups made after the
    commit in [add_expense], [record_payment] and [rename_member] never
    fail, so none of their "cannot find member" errors is ever raised. *)
Theorem failed_call_changes_nothing (db : Store) (c : Call) (e : Error) :
  call_failure db c = Some e ->
  step db c = db /\ internal_error e = false.
Proof.
  destruct c as [g n|g m|g m|g m a|g m a|g o nn|g|g f]; simpl.
  - unfold create_gathering.
    destruct (strptime (date_part g)); [|simpl; intros H; injection H as <-; auto].
    destruct (query_gathering db g); simpl; [intros H; injection H as <-; auto|].
    destruct (fits_integer n); simpl; [discriminate|intros H; injection H as <-; auto].
  - unfold add_member.
    destruct (query_gathering db g) as [g0|]; [|simpl; intros H; injection H as <-; auto].
    destruct (GatheringStatus_eqb (GatheringRow.status g0) CLOSED);
      [simpl; intros H; injection H as <-; auto|].
    destruct (query_member db g m); simpl; [intros H; injection H as <-; auto|discriminate].
  - unfold remove_member.
    destruct (query_gathering db g) as [g0|]; [|simpl; intros H; injection H as <-; auto].
    destruct (GatheringStatus_eqb (GatheringRow.status g0) CLOSED);
      [simpl; intros H; injection H as <-; auto|].
    destruct (query_member db g m) as [m0|]; [|simpl; intros H; injection H as <-; auto].
    destruct (0 <? List.length (expenses_of db (MemberRow.id m0)))%nat;
      [simpl; intros H; injection H as <-; auto|].
    destruct (0 <? List.length (payments_of db (MemberRow.id m0)))%nat;
      simpl; [intros H; injection H as <-; auto|discriminate].
  - destruct (snd (add_expense db g m a)) as [r|e'] eqn:E; simpl; [discriminate|].
    intros H. injection H as <-. apply add_expense_atomic. exact E.
  - destruct (snd (record_payment db g m a)) as [r|e'] eqn:E; simpl; [discriminate|].
    intros H. injection H as <-. apply record_payment_atomic. exact E.
  - destruct (snd (rename_member db g o nn)) as [r|e'] eqn:E; simpl; [discriminate|].
    intros H. injection H as <-. apply rename_member_atomic. exact E.
  - unfold close_gathering.
    destruct (query_gathering db g) as [g0|]; [|simpl; intros H; injection H as <-; auto].
    destruct (GatheringStatus_eqb (GatheringRow.status g0) CLOSED);
      simpl; [intros H; injection H as <-; auto|discriminate].
  - unfold delete_gathering.
    destruct (query_gathering db g) as [g0|]; [|simpl; intros H; injection H as <-; auto].
    destruct (GatheringStatus_eqb (GatheringRow.status g0) CLOSED && negb f);
      simpl; [intros H; injection H as <-; auto|discriminate].
Qed.

Lemma failed_call_changes_nothing_witness :
  step open_store (AddMember dinner "member0001") = open_store.
Proof.
  apply (failed_call_changes_nothing open_store (AddMember dinner "member0001")
           DuplicateName eq_refl).
Defined.

(** ** [record_payment] and [rename_member] *)

(** X7. On an open gathering [record_payment] needs a member with exactly
    that name: without one it fails with MemberNotFound and changes nothing,
    placeholders or not.  With one, and for an amount of any sign, it
    adds one payment row for that member and returns the member with the
    same expenses and with, in some order, its earlier payments and the new
    one. *)
Theorem record_payment_spec (db : Store) (gid name : string) (amount : Q)
  (g : GatheringRow.t) :
  query_gathering db gid = Some g ->
  GatheringRow.status g = OPEN ->
  (query_member db gid name = None ->
   record_payment db gid name amount = (db, Err MemberNotFound))
  /\ (forall m, query_member db gid name = Some m ->
      let payment := Payment.mk (next_id (map Payment.id (payments db)))
                                (MemberRow.id m) amount in
      exists G M,
        record_payment db gid name amount
        = (mkStore (gatherings db) (members db) (expenses db) (payments db ++ [payment]),
           Ok (G, M))
        /\ Member.id M = MemberRow.id m /\ Member.name M = name
        /\ Member.expenses M = expenses_of db (MemberRow.id m)
        /\ Permutation (Member.payments M) (payment :: payments_of db (MemberRow.id m))).
Proof.
  intros Hg Ho. split.
  - intros Hm. unfold record_payment. rewrite Hg, Ho, Hm. reflexivity.
  - intros m Hm payment.
    set (db' := mkStore (gatherings db) (members db) (expenses db) (payments db ++ [payment])).
    destruct (reload_ok db' gid name g m Hg Hm) as [G [_ E]].
    destruct (query_member_some _ _ _ _ Hm) as [_ [_ Hn]].
    assert (Hpay : payments_of db' (MemberRow.id m)
                   = (payments_of db (MemberRow.id m) ++ [payment])%list).
    { unfold payments_of, db'. simpl. rewrite filter_app. simpl.
      rewrite Z.eqb_refl. reflexivity. }
    exists G, (load_member db' m). split.
    + unfold record_payment. rewrite Hg, Ho, Hm. simpl. fold payment. fold db'.
      rewrite E. reflexivity.
    + simpl. split; [reflexivity|]. split; [exact Hn|]. split; [reflexivity|].
      rewrite Hpay. apply Permutation_sym, Permutation_cons_append.
Qed.

Lemma record_payment_spec_witness :
  record_payment open_store dinner "Roy" (-10) = (open_store, Err MemberNotFound)
  /\ exists G M,
       snd (record_payment open_store dinner "member0002" (-10)) = Ok (G, M)
       /\ Member.name M = "member0002".
Proof.
  pose proof (record_payment_spec open_store dinner "Roy" (-10)
                (GatheringRow.mk dinner 2 OPEN) eq_refl eq_refl) as H1.
  pose proof (record_payment_spec open_store dinner "member0002" (-10)
                (GatheringRow.mk dinner 2 OPEN) eq_refl eq_refl) as H2.
  split.
  - apply (proj1 H1). reflexivity.
  - destruct (proj2 H2 (MemberRow.mk 2 "member0002" dinner) eq_refl)
      as [G [M [E [_ [Hn _]]]]].
    exists G, M. rewrite E. split; [reflexivity|exact Hn].
Defined.

(** X8. On an open gathering [rename_member] fails with MemberNotFound when
    the old name is absent and with DuplicateName when the new name is taken,
    which includes renaming a member to the name it already has; either way
    nothing changes.  Otherwise only the name of that one row changes and
    the member is returned under its new name with its key, expenses and
    payments untouched. *)
Theorem rename_member_spec (db : Store) (gid old_name new_name : string)
  (g : GatheringRow.t) :
  query_gathering db gid = Some g ->
  GatheringRow.status g = OPEN ->
  (query_member db gid old_name = None ->
   rename_member db gid old_name new_name = (db, Err MemberNotFound))
  /\ (forall m, query_member db gid old_name = Some m ->
        rename_member db gid old_name old_name = (db, Err DuplicateName))
  /\ (forall m m', query_member db gid old_name = Some m ->
        query_member db gid new_name = Some m' ->
        rename_member db gid old_name new_name = (db, Err DuplicateName))
  /\ (forall m, query_member db gid old_name = Some m ->
        query_member db gid new_name = None ->
        exists M,
          rename_member db gid old_name new_name
          = (mkStore (gatherings db) (update_member_name db (MemberRow.id m) new_name)
                     (expenses db) (payments db),
             Ok M)
          /\ Member.id M = MemberRow.id m /\ Member.name M = new_name
          /\ Member.expenses M = expenses_of db (MemberRow.id m)
          /\ Member.payments M = payments_of db (MemberRow.id m)).
Proof.
  intros Hg Ho. split; [|split; [|split]].
  - intros Hm. unfold rename_member. rewrite Hg, Ho, Hm. reflexivity.
  - intros m Hm. unfold rename_member. rewrite Hg, Ho, Hm. reflexivity.
  - intros m m' Hm Hn. unfold rename_member. rewrite Hg, Ho, Hm, Hn. reflexivity.
  - intros m Hm Hn.
    set (db' := mkStore (gatherings db) (update_member_name db (MemberRow.id m) new_name)
                        (expenses db) (payments db)).
    destruct (query_member_some _ _ _ _ Hm) as [Hin [Hgid _]].
    pose proof (query_member_renamed db gid new_name m Hn Hin Hgid) as Hq.
    destruct (reload_ok db' gid new_name g _ Hg Hq) as [G [_ E]].
    eexists. split.
    + unfold rename_member. rewrite Hg, Ho, Hm, Hn. simpl. fold db'. rewrite E. reflexivity.
    + simpl. auto.
Qed.

Lemma rename_member_spec_witness :
  rename_member open_store dinner "member0001" "member0001" = (open_store, Err DuplicateName)
  /\ exists M, snd (rename_member open_store dinner "member0001" "Roy") = Ok M
               /\ Member.name M = "Roy".
Proof.
  pose proof (rename_member_spec open_store dinner "member0001" "Roy"
                (GatheringRow.mk dinner 2 OPEN) eq_refl eq_refl) as H.
  split.
  - apply (proj1 (proj2 H) (MemberRow.mk 1 "member0001" dinner)). reflexivity.
  - destruct (proj2 (proj2 (proj2 H)) (MemberRow.mk 1 "member0001" dinner) eq_refl eq_refl)
      as [M [E [_ [Hn _]]]].
    exists M. rewrite E. split; [reflexivity|exact Hn].
Defined.

(** ** [add_member] *)

Lemma add_member_then_get (db : Store) (gid name : string) (g : GatheringRow.t) :
  tables_ok db ->
  query_gathering db gid = Some g ->
  GatheringRow.status g = OPEN ->
  query_member db gid name = None ->
  let member := MemberRow.mk (next_id (map MemberRow.id (members db))) name gid in
  exists db',
    service_add_member db gid name
    = (db', Ok (Some (Gathering.mk gid (GatheringRow.total_members g + 1) OPEN
                        (map (load_member db) (members_of db gid)
                         ++ [Member.mk (MemberRow.id member) name gid [] []])),
                member))
    /\ members db' = (members db ++ [member])%list
    /\ expenses db' = expenses db /\ payments db' = payments db.
Proof.
  intros H Hg Ho Hm member.
  destruct (query_gathering_some _ _ _ Hg) as [_ Hid].
  unfold service_add_member, add_member. rewrite Hg, Ho, Hm. simpl.
  fold member.
  set (db' := mkStore _ _ _ _).
  exists db'. split; [|auto].
  assert (Hq : query_gathering db' gid
               = Some (set_total_members (GatheringRow.total_members g + 1) g)).
  { unfold query_gathering, db'. simpl. rewrite Hid.
    apply (query_after_update_same db gid g); [reflexivity|exact Hg]. }
  destruct (fresh_key_has_no_activity db (MemberRow.id member) H (Z.le_refl _)) as [He Hp].
  unfold get_gathering. rewrite Hq. simpl. rewrite Hid, Ho.
  assert (Hmem : map (load_member db') (members_of db' gid)
                 = (map (load_member db) (members_of db gid)
                    ++ [Member.mk (MemberRow.id member) name gid [] []])%list).
  { unfold members_of, db'. simpl. rewrite filter_app, map_app. simpl.
    rewrite String.eqb_refl. simpl. f_equal.
    unfold load_member. simpl.
    unfold expenses_of, payments_of in *. simpl in *. rewrite He, Hp. reflexivity. }
  rewrite Hmem. reflexivity.
Qed.

(** X9. In any reachable store, adding a member under a name that is free
    in an open gathering returns the gathering with [total_members] one
    higher and with the new member last, after the members that were there,
    the new one without expenses or payments; a name that is taken fails
    with DuplicateName and a missing gathering with NotFound, both without
    any change. *)
Theorem add_member_spec (calls : list Call) (gid name : string) :
  let db := run calls empty_store in
  (query_gathering db gid = None -> service_add_member db gid name = (db, Err NotFound))
  /\ (forall g m, query_gathering db gid = Some g -> GatheringRow.status g = OPEN ->
        query_member db gid name = Some m ->
        service_add_member db gid name = (db, Err DuplicateName))
  /\ (forall g, query_gathering db gid = Some g -> GatheringRow.status g = OPEN ->
        query_member db gid name = None ->
        let member := MemberRow.mk (next_id (map MemberRow.id (members db))) name gid in
        exists db',
          service_add_member db gid name
          = (db', Ok (Some (Gathering.mk gid (GatheringRow.total_members g + 1) OPEN
                              (map (load_member db) (members_of db gid)
                               ++ [Member.mk (MemberRow.id member) name gid [] []])),
                      member))
          /\ members db' = (members db ++ [member])%list
          /\ expenses db' = expenses db /\ payments db' = payments db).
Proof.
  intros db. split; [|split].
  - intros Hg. unfold service_add_member, add_member. rewrite Hg. reflexivity.
  - intros g m Hg Ho Hm. unfold service_add_member, add_member. rewrite Hg, Ho, Hm.
    reflexivity.
  - intros g Hg Ho Hm. apply (add_member_then_get db gid name g); try assumption.
    apply (run_keeps_tables calls empty_store empty_tables_ok).
Qed.

Lemma add_member_spec_witness :
  service_add_member open_store dinner "member0002" = (open_store, Err DuplicateName)
  /\ exists db' G m, service_add_member open_store dinner "Charlie" = (db', Ok (Some G, m))
                     /\ Gathering.total_members G = 3.
Proof.
  pose proof (add_member_spec [CreateGathering dinner 2] dinner "member0002") as H1.
  pose proof (add_member_spec [CreateGathering dinner 2] dinner "Charlie") as H2.
  cbv zeta in H1, H2. split.
  - apply (proj1 (proj2 H1) (GatheringRow.mk dinner 2 OPEN)
             (MemberRow.mk 2 "member0002" dinner)); reflexivity.
  - destruct (proj2 (proj2 H2) (GatheringRow.mk dinner 2 OPEN) eq_refl eq_refl eq_refl)
      as [db' [E _]].
    eexists db', _, _. split; [exact E|reflexivity].
Defined.

(** ** [delete_gathering] *)

Lemma fold_delete_activity (L : list MemberRow.t) (db : Store) :
  expenses (fold_left (fun d m => delete_member d (MemberRow.id m)) L db)
  = filter (fun e => forallb (fun y => negb (Expense.member_id e =? MemberRow.id y)) L)
           (expenses db)
  /\ payments (fold_left (fun d m => delete_member d (MemberRow.id m)) L db)
     = filter (fun p => forallb (fun y => negb (Payment.member_id p =? MemberRow.id y)) L)
              (payments db).
Proof.
  revert db. induction L as [|y L IH]; intros db; simpl.
  - split; symmetry; apply filter_all; reflexivity.
  - destruct (IH (delete_member db (MemberRow.id y))) as [HE HP].
    split; [rewrite HE|rewrite HP]; simpl; apply filter_twice.
Qed.

(** Members of other gatherings survive the cascade with their rows. *)
Lemma cascade_spares_key (db : Store) (gid : string) (m : MemberRow.t) :
  keys_unique db ->
  In m (members db) -> MemberRow.gathering_id m <> gid ->
  forallb (fun y => negb (MemberRow.id m =? MemberRow.id y)) (members_of db gid) = true.
Proof.
  intros Hk Hm Hne. apply forallb_forall. intros y Hy.
  unfold members_of in Hy. apply filter_In in Hy. destruct Hy as [Hy Hyg].
  apply String.eqb_eq in Hyg.
  destruct (Z.eqb_spec (MemberRow.id m) (MemberRow.id y)) as [E|_]; [|reflexivity].
  exfalso. apply Hne. rewrite (key_determines_row _ m y Hk Hm Hy E). exact Hyg.
Qed.

Lemma delete_gathering_effect (db : Store) (gid : string) (force : bool) (g : GatheringRow.t) :
  tables_ok db ->
  query_gathering db gid = Some g ->
  GatheringRow.status g = OPEN \/ force = true ->
  exists db',
    delete_gathering db gid force = (db', Ok tt)
    /\ get_gathering db' gid = None
    /\ members_of db' gid = []
    /\ Forall (fun m => expenses_of db' (MemberRow.id m) = []
                        /\ payments_of db' (MemberRow.id m) = []) (members_of db gid)
    /\ (forall gid', gid' <> gid -> get_gathering db' gid' = get_gathering db gid').
Proof.
  intros H Hg Hallowed.
  destruct (query_gathering_some _ _ _ Hg) as [_ Hid].
  assert (Hguard : GatheringStatus_eqb (GatheringRow.status g) CLOSED && negb force = false).
  { destruct Hallowed as [->| ->]; [reflexivity|]. apply andb_false_r. }
  unfold delete_gathering. rewrite Hg, Hguard, Hid.
  destruct (fold_delete_member (members_of db gid) db) as [HG HM].
  destruct (fold_delete_activity (members_of db gid) db) as [HE HP].
  set (db1 := fold_left _ (members_of db gid) db) in *.
  set (db' := mkStore _ _ _ _).
  exists db'. split; [reflexivity|].
  assert (Hq : forall gid', gid' <> gid -> query_gathering db' gid' = query_gathering db gid').
  { intros gid' Hne. unfold query_gathering, db'. simpl. rewrite HG.
    apply query_after_delete_other. intros E. apply Hne. symmetry. exact E. }
  split; [|split; [|split]].
  - unfold get_gathering, query_gathering, db'. simpl. rewrite HG.
    rewrite query_after_delete_same. reflexivity.
  - unfold members_of, db'. simpl. apply filter_none. intros m Hm.
    destruct (cascade_removes_members db gid m Hm) as [_ Hne].
    apply String.eqb_neq. exact Hne.
  - apply Forall_forall. intros m Hm. unfold expenses_of, payments_of, db'. simpl.
    rewrite HE, HP, !filter_twice. split; apply filter_none; intros x _.
    + destruct (Z.eqb_spec (Expense.member_id x) (MemberRow.id m)) as [E|_];
        [|apply andb_false_r].
      rewrite andb_true_r. apply not_true_is_false. intros Hall.
      pose proof (proj1 (forallb_forall _ _) Hall m Hm) as Hf. cbv beta in Hf.
      rewrite E, Z.eqb_refl in Hf. discriminate.
    + destruct (Z.eqb_spec (Payment.member_id x) (MemberRow.id m)) as [E|_];
        [|apply andb_false_r].
      rewrite andb_true_r. apply not_true_is_false. intros Hall.
      pose proof (proj1 (forallb_forall _ _) Hall m Hm) as Hf. cbv beta in Hf.
      rewrite E, Z.eqb_refl in Hf. discriminate.
  - intros gid' Hne. unfold get_gathering. rewrite (Hq gid' Hne).
    destruct (query_gathering db gid') as [g'|] eqn:Hg'; [|reflexivity].
    destruct (query_gathering_some _ _ _ Hg') as [_ Hid'].
    f_equal. f_equal. rewrite Hid'.
    assert (Hmem : members_of db' gid' = members_of db gid').
    { unfold members_of, db'. simpl. rewrite HM, filter_twice.
      apply filter_ext_in. intros m Hm.
      destruct (String.eqb_spec (MemberRow.gathering_id m) gid') as [E|_];
        [|apply andb_false_r].
      rewrite andb_true_r. apply (cascade_spares_key db gid m (tb_keys _ H) Hm). congruence. }
    rewrite Hmem. apply map_ext_in. intros m Hm.
    unfold members_of in Hm. apply filter_In in Hm. destruct Hm as [Hm Hgm].
    apply String.eqb_eq in Hgm.
    assert (Hspare := cascade_spares_key db gid m (tb_keys _ H) Hm
                        ltac:(congruence)).
    unfold load_member. f_equal.
    + unfold expenses_of, db'. simpl. rewrite HE, filter_twice.
      apply filter_ext. intros e.
      destruct (Z.eqb_spec (Expense.member_id e) (MemberRow.id m)) as [E|_];
        [|apply andb_false_r].
      rewrite andb_true_r, E. exact Hspare.
    + unfold payments_of, db'. simpl. rewrite HP, filter_twice.
      apply filter_ext. intros p.
      destruct (Z.eqb_spec (Payment.member_id p) (MemberRow.id m)) as [E|_];
        [|apply andb_false_r].
      rewrite andb_true_r, E. exact Hspare.
Qed.

(** X10. [delete_gathering] fails with NotFound on a missing gathering and
    with GatheringClosed on a closed one unless forced, changing nothing.
    Otherwise, in any reachable store, the gathering is gone afterwards
    together with its members and all their expenses and payments, and every
    other gathering is loaded exactly as before. *)
Theorem delete_gathering_spec (calls : list Call) (gid : string) (force : bool) :
  let db := run calls empty_store in
  (query_gathering db gid = None -> delete_gathering db gid force = (db, Err NotFound))
  /\ (forall g, query_gathering db gid = Some g ->
        GatheringRow.status g = CLOSED -> force = false ->
        delete_gathering db gid force = (db, Err GatheringClosed))
  /\ (forall g, query_gathering db gid = Some g ->
        GatheringRow.status g = OPEN \/ force = true ->
        exists db',
          delete_gathering db gid force = (db', Ok tt)
          /\ get_gathering db' gid = None
          /\ members_of db' gid = []
          /\ Forall (fun m => expenses_of db' (MemberRow.id m) = []
                              /\ payments_of db' (MemberRow.id m) = []) (members_of db gid)
          /\ (forall gid', gid' <> gid -> get_gathering db' gid' = get_gathering db gid')).
Proof.
  intros db. split; [|split].
  - intros Hg. unfold delete_gathering. rewrite Hg. reflexivity.
  - intros g Hg Hc ->. unfold delete_gathering. rewrite Hg, Hc. reflexivity.
  - intros g Hg Ha. apply (delete_gathering_effect db gid force g); try assumption.
    apply (run_keeps_tables calls empty_store empty_tables_ok).
Qed.

Lemma delete_gathering_spec_witness :
  delete_gathering closed_store dinner false = (closed_store, Err GatheringClosed)
  /\ exists db', delete_gathering closed_store dinner true = (db', Ok tt)
                 /\ get_gathering db' dinner = None.
Proof.
  pose proof (delete_gathering_spec [CreateGathering dinner 2; CloseGathering dinner]
                dinner false) as H1.
  pose proof (delete_gathering_spec [CreateGathering dinner 2; CloseGathering dinner]
                dinner true) as H2.
  cbv zeta in H1, H2. split.
  - apply (proj1 (proj2 H1) (GatheringRow.mk dinner 2 CLOSED)); reflexivity.
  - destruct (proj2 (proj2 H2) (GatheringRow.mk dinner 2 CLOSED) eq_refl
                (or_intror eq_refl)) as [db' [E [Hn _]]].
    exists db'. split; [exact E|exact Hn].
Defined.

(** ** What [calculate_reimbursements] returns *)

Section Dicts.

Context {V : Type}.

Lemma dict_set_fresh (d : dict V) (k : string) (v : V) :
  ~ In k (map fst d) -> dict_set d k v = (d ++ [(k, v)])%list.
Proof.
  induction d as [|[k' v'] d IH]; simpl; intros H; [reflexivity|].
  destruct (String.eqb_spec k' k) as [E|_].
  - exfalso. apply H. left. exact E.
  - rewrite IH; [reflexivity|]. intros Hin. apply H. right. exact Hin.
Qed.

Lemma dict_get_entry {A : Type} (key : A -> string) (val : A -> V) (l : list A) (x : A) :
  NoDup (map key l) -> In x l ->
  dict_get (map (fun a => (key a, val a)) l) (key x) = Some (val x).
Proof.
  induction l as [|a l IH]; simpl; intros Hnd Hin; [contradiction|].
  inversion Hnd as [|? ? Ha Hl]; subst.
  destruct Hin as [->|Hin].
  - rewrite String.eqb_refl. reflexivity.
  - destruct (String.eqb_spec (key a) (key x)) as [E|_].
    + exfalso. apply Ha. rewrite E. apply in_map. exact Hin.
    + apply IH; assumption.
Qed.

(** Assigning under pairwise distinct keys that are new to the dict adds one
    entry per assignment, in order. *)
Lemma fold_dict_set {A : Type} (key : A -> string) (val : A -> V) (l : list A) (acc : dict V) :
  NoDup (map key l) ->
  (forall a, In a l -> ~ In (key a) (map fst acc)) ->
  fold_left (fun d a => dict_set d (key a) (val a)) l acc
  = (acc ++ map (fun a => (key a, val a)) l)%list.
Proof.
  revert acc. induction l as [|a l IH]; intros acc Hnd Hacc; simpl.
  - rewrite app_nil_r. reflexivity.
  - inversion Hnd as [|? ? Ha Hl]; subst.
    rewrite (dict_set_fresh acc (key a) (val a)) by (apply Hacc; left; reflexivity).
    rewrite IH; [rewrite <- app_assoc; reflexivity|exact Hl|].
    intros b Hb Hin. rewrite map_app in Hin. apply in_app_iff in Hin.
    destruct Hin as [Hin|[E|[]]].
    + apply (Hacc b (or_intror Hb) Hin).
    + simpl in E. apply Ha. rewrite E. apply in_map. exact Hb.
Qed.

End Dicts.

Lemma loaded_names (db : Store) (rows : list MemberRow.t) :
  map Member.name (map (load_member db) rows) = map MemberRow.name rows.
Proof.
  rewrite map_map. reflexivity.
Qed.

Lemma get_gathering_members (db : Store) (gid : string) (G : Gathering.t) :
  get_gathering db gid = Some G ->
  exists g, query_gathering db gid = Some g
            /\ G = Gathering.mk gid (GatheringRow.total_members g) (GatheringRow.status g)
                     (map (load_member db) (members_of db gid)).
Proof.
  unfold get_gathering. destruct (query_gathering db gid) as [g|] eqn:Hg; [|discriminate].
  destruct (query_gathering_some _ _ _ Hg) as [_ Hid]. rewrite Hid.
  intros H. injection H as <-. exists g. auto.
Qed.

Lemma reimbursements_of_unique (g : Gathering.t) (e : Q) :
  NoDup (map Member.name (Gathering.members g)) ->
  Gathering.expense_per_member g = Ok e ->
  reimbursements g
  = Ok (map (fun m => (Member.name m,
                       (e - Member.total_expenses m + Member.total_payments m)%Q))
            (Gathering.members g)).
Proof.
  intros Hnd He. unfold reimbursements. rewrite He. simpl. f_equal.
  apply (fold_dict_set Member.name
           (fun m => (e - Member.total_expenses m + Member.total_payments m)%Q)
           (Gathering.members g) [] Hnd).
  intros a _ [].
Qed.

(** X11. In any reachable store [calculate_reimbursements] of an existing
    gathering returns exactly one entry per member, in the order of the
    members and keyed by their names, each holding the share minus the
    member's expenses plus the member's payments; no entry overwrites
    another. *)
Theorem calculate_reimbursements_entries (calls : list Call) (gid : string) (G : Gathering.t) :
  let db := run calls empty_store in
  get_gathering db gid = Some G ->
  exists e d,
    Gathering.expense_per_member G = Ok e
    /\ calculate_reimbursements db gid = Ok d
    /\ d = map (fun m => (Member.name m,
                          (e - Member.total_expenses m + Member.total_payments m)%Q))
               (Gathering.members G)
    /\ Forall (fun m => dict_get d (Member.name m)
                        = Some (e - Member.total_expenses m + Member.total_payments m)%Q)
              (Gathering.members G).
Proof.
  intros db HG.
  destruct (expense_per_member_total G) as [e He].
  assert (Hnd : NoDup (map Member.name (Gathering.members G))).
  { destruct (get_gathering_members db gid G HG) as [g [_ ->]]. simpl.
    rewrite loaded_names. apply member_names_unique_in_run. }
  exists e. eexists. split; [exact He|].
  unfold calculate_reimbursements. rewrite HG.
  split; [apply (reimbursements_of_unique G e Hnd He)|]. split; [reflexivity|].
  apply Forall_forall. intros m Hm.
  apply (dict_get_entry Member.name
           (fun m => (e - Member.total_expenses m + Member.total_payments m)%Q)
           (Gathering.members G) m Hnd Hm).
Qed.

Lemma member_names_stay_unique_witness :
  NoDup (map Member.name (Gathering.members prepaid_gathering)).
Proof.
  apply (proj2 (member_names_stay_unique
                  [CreateGathering dinner 1; RecordPayment dinner "member0001" 10] dinner)
           prepaid_gathering).
  reflexivity.
Defined.

Lemma calculate_reimbursements_entries_witness :
  exists e d,
    Gathering.expense_per_member prepaid_gathering = Ok e
    /\ calculate_reimbursements prepaid_store dinner = Ok d
    /\ List.length d = 1%nat.
Proof.
  destruct (calculate_reimbursements_entries
              [CreateGathering dinner 1; RecordPayment dinner "member0001" 10] dinner
              prepaid_gathering eq_refl) as [e [d [He [Hd [E _]]]]].
  exists e, d. split; [exact He|]. split; [exact Hd|]. rewrite E. reflexivity.
Defined.

(** ** [close_gathering] *)

Lemma close_gathering_effect (db : Store) (gid : string) (g : GatheringRow.t) :
  query_gathering db gid = Some g ->
  GatheringRow.status g = OPEN ->
  let db' := mkStore (update_gathering db gid (set_status CLOSED))
                     (members db) (expenses db) (payments db) in
  close_gathering db gid
  = (db', Ok (Some (Gathering.mk gid (GatheringRow.total_members g) CLOSED
                      (map (load_member db) (members_of db gid)))))
  /\ query_gathering db' gid = Some (set_status CLOSED g).
Proof.
  intros Hg Ho db'.
  destruct (query_gathering_some _ _ _ Hg) as [_ Hid].
  assert (Hq : query_gathering db' gid = Some (set_status CLOSED g)).
  { apply (query_after_update_same db gid g); [reflexivity|exact Hg]. }
  split; [|exact Hq].
  unfold close_gathering. rewrite Hg, Ho. cbn [GatheringStatus_eqb]. rewrite Hid.
  fold db'. unfold get_gathering. rewrite Hq. cbn [set_status GatheringRow.id
    GatheringRow.total_members GatheringRow.status]. rewrite Hid. reflexivity.
Qed.

(** X16. [close_gathering] fails with NotFound for an unknown gathering and
    with AlreadyClosed for a closed one, the store unchanged.  On an open
    gathering it returns the gathering with status CLOSED and with the
    member count, the members, their expenses and their payments as
    [get_gathering] showed them before; it touches no member, expense or
    payment row and no other gathering, and [get_gathering] afterwards
    returns what the call returned. *)
Theorem close_gathering_spec (db : Store) (gid : string) :
  (query_gathering db gid = None -> close_gathering db gid = (db, Err NotFound))
  /\ (forall g, query_gathering db gid = Some g -> GatheringRow.status g = CLOSED ->
        close_gathering db gid = (db, Err AlreadyClosed))
  /\ (forall G, get_gathering db gid = Some G -> Gathering.status G = OPEN ->
        let G' := Gathering.mk (Gathering.id G) (Gathering.total_members G) CLOSED
                               (Gathering.members G) in
        exists db',
          close_gathering db gid = (db', Ok (Some G'))
          /\ get_gathering db' gid = Some G'
          /\ members db' = members db
          /\ expenses db' = expenses db
          /\ payments db' = payments db
          /\ (forall gid', gid' <> gid -> get_gathering db' gid' = get_gathering db gid')).
Proof.
  split; [|split].
  - intros Hg. unfold close_gathering. rewrite Hg. reflexivity.
  - intros g Hg Hc. unfold close_gathering. rewrite Hg, Hc. reflexivity.
  - intros G HG Ho G'.
    destruct (get_gathering_members _ _ _ HG) as [g [Hg E]]. subst G.
    cbn [Gathering.status] in Ho. subst G'.
    cbn [Gathering.id Gathering.total_members Gathering.members].
    destruct (close_gathering_effect db gid g Hg Ho) as [Hc Hq].
    eexists. split; [exact Hc|].
    split.
    + unfold get_gathering. rewrite Hq.
      destruct (query_gathering_some _ _ _ Hg) as [_ Hid].
      cbn [set_status GatheringRow.id GatheringRow.total_members GatheringRow.status].
      rewrite Hid. reflexivity.
    + repeat split. intros gid' Hne. unfold get_gathering.
      replace (query_gathering
                 (mkStore (update_gathering db gid (set_status CLOSED))
                          (members db) (expenses db) (payments db)) gid')
        with (query_gathering db gid');
        [reflexivity|].
      symmetry. apply (query_after_update_other db gid gid'); [reflexivity|exact Hne].
Qed.

Lemma close_gathering_spec_witness :
  close_gathering empty_store dinner = (empty_store, Err NotFound)
  /\ exists db', close_gathering open_store dinner
                 = (db', Ok (Some (Gathering.mk dinner 2 CLOSED
                       [Member.mk 1 "member0001" dinner [] [];
                        Member.mk 2 "member0002" dinner [] []]))).
Proof.
  split.
  - apply (proj1 (close_gathering_spec empty_store dinner)). reflexivity.
  - destruct (proj2 (proj2 (close_gathering_spec open_store dinner))
                (Gathering.mk dinner 2 OPEN
                   [Member.mk 1 "member0001" dinner [] []; Member.mk 2 "member0002" dinner [] []])
                eq_refl eq_refl) as [db' [E _]].
    exists db'. exact E.
Defined.

(** ** [list_gatherings] *)

Lemma query_gathering_none (db : Store) (gid : string) :
  query_gathering db gid = None <-> ~ In gid (map GatheringRow.id (gatherings db)).
Proof.
  unfold query_gathering. split.
  - intros H Hin. apply in_map_iff in Hin. destruct Hin as [g [E Hg]].
    pose proof (find_none _ _ H g Hg) as Hf. cbv beta in Hf.
    rewrite E, String.eqb_refl in Hf. discriminate.
  - intros H. destruct (find _ (gatherings db)) as [g|] eqn:E; [|reflexivity].
    exfalso. apply find_some in E. destruct E as [Hg E]. apply String.eqb_eq in E.
    apply H. rewrite <- E. apply in_map. exact Hg.
Qed.

Lemma ids_after_update (db : Store) (gid : string) (F : GatheringRow.t -> GatheringRow.t) :
  (forall x, GatheringRow.id (F x) = GatheringRow.id x) ->
  map GatheringRow.id (update_gathering db gid F) = map GatheringRow.id (gatherings db).
Proof.
  intros HF. unfold update_gathering. rewrite map_map. apply map_ext.
  apply update_preserves_id. exact HF.
Qed.

Lemma ids_after_delete (keep : GatheringRow.t -> bool) (rows : list GatheringRow.t) :
  NoDup (map GatheringRow.id rows) -> NoDup (map GatheringRow.id (filter keep rows)).
Proof.
  induction rows as [|g rows IH]; cbn [filter map]; intros H; [constructor|].
  apply NoDup_cons_iff in H. destruct H as [Hg Hrows].
  destruct (keep g); cbn [map]; [|exact (IH Hrows)].
  apply NoDup_cons; [|exact (IH Hrows)].
  intros Hin. apply Hg. apply in_map_iff in Hin. destruct Hin as [x [E Hx]].
  apply filter_In in Hx. rewrite <- E. apply in_map. exact (proj1 Hx).
Qed.

Lemma step_keeps_gathering_ids (db : Store) (c : Call) :
  gathering_ids_unique db -> gathering_ids_unique (step db c).
Proof.
  unfold gathering_ids_unique. intros H. destruct c as [g n|g m|g m|g m a|g m a|g o n|g|g f];
    cbn [step].
  - unfold create_gathering.
    destruct (strptime (date_part g)); [|exact H].
    destruct (query_gathering db g) eqn:Hq; [exact H|].
    destruct (fits_integer n); [|exact H]. cbn [fst gatherings].
    rewrite map_app. cbn [map GatheringRow.id].
    rewrite <- (app_nil_r (map GatheringRow.id (gatherings db))) in H.
    apply NoDup_insert; [exact H|].
    rewrite app_nil_r. apply query_gathering_none. exact Hq.
  - unfold add_member.
    destruct (query_gathering db g) as [r|]; [|exact H].
    destruct (GatheringStatus_eqb (GatheringRow.status r) CLOSED); [exact H|].
    destruct (query_member db g m); [exact H|]. cbn [fst gatherings].
    rewrite ids_after_update; [exact H|reflexivity].
  - unfold remove_member.
    destruct (query_gathering db g) as [r|]; [|exact H].
    destruct (GatheringStatus_eqb (GatheringRow.status r) CLOSED); [exact H|].
    destruct (query_member db g m) as [x|]; [|exact H].
    destruct (0 <? List.length (expenses_of db (MemberRow.id x)))%nat; [exact H|].
    destruct (0 <? List.length (payments_of db (MemberRow.id x)))%nat; [exact H|].
    cbn [fst gatherings].
    rewrite ids_after_update; [exact H|reflexivity].
  - rewrite add_expense_keeps_gatherings. exact H.
  - rewrite record_payment_keeps_gatherings. exact H.
  - rewrite rename_member_keeps_gatherings. exact H.
  - unfold close_gathering.
    destruct (query_gathering db g) as [r|]; [|exact H].
    destruct (GatheringStatus_eqb (GatheringRow.status r) CLOSED); [exact H|].
    cbn [fst gatherings]. rewrite ids_after_update; [exact H|reflexivity].
  - unfold delete_gathering.
    destruct (query_gathering db g) as [r|]; [|exact H].
    destruct (GatheringStatus_eqb (GatheringRow.status r) CLOSED && negb f); [exact H|].
    cbn [fst gatherings].
    rewrite (proj1 (fold_delete_member _ db)). apply ids_after_delete. exact H.
Qed.

Lemma run_keeps_gathering_ids (calls : list Call) (db : Store) :
  gathering_ids_unique db -> gathering_ids_unique (run calls db).
Proof.
  unfold run. revert db. induction calls as [|c calls IH]; intros db H; cbn [fold_left].
  - exact H.
  - apply IH. apply step_keeps_gathering_ids. exact H.
Qed.

Lemma unique_id_finds_row (rows : list GatheringRow.t) (g : GatheringRow.t) :
  NoDup (map GatheringRow.id rows) -> In g rows ->
  find (fun x => String.eqb (GatheringRow.id x) (GatheringRow.id g)) rows = Some g.
Proof.
  induction rows as [|x rows IH]; intros Hnd Hin; [destruct Hin|].
  cbn [map] in Hnd. apply NoDup_cons_iff in Hnd. destruct Hnd as [Hx Hrows].
  cbn [find]. destruct (String.eqb_spec (GatheringRow.id x) (GatheringRow.id g)) as [E|E].
  - destruct Hin as [->|Hin]; [reflexivity|].
    exfalso. apply Hx. rewrite E. apply in_map. exact Hin.
  - destruct Hin as [->|Hin]; [congruence|]. apply IH; assumption.
Qed.

(** X17. In a store reached by calls, [list_gatherings] lists every
    gathering once: the ids of the listed rows are pairwise distinct, an id
    is listed exactly when [get_gathering] finds a gathering for it, and the
    gathering found for a listed row carries that row's id, member count and
    status. *)
Theorem list_gatherings_lists_each_once (calls : list Call) :
  let db := run calls empty_store in
  NoDup (map GatheringRow.id (list_gatherings db))
  /\ (forall gid, In gid (map GatheringRow.id (list_gatherings db))
                  <-> get_gathering db gid <> None)
  /\ Forall (fun g => exists G,
               get_gathering db (GatheringRow.id g) = Some G
               /\ Gathering.id G = GatheringRow.id g
               /\ Gathering.total_members G = GatheringRow.total_members g
               /\ Gathering.status G = GatheringRow.status g)
            (list_gatherings db).
Proof.
  intros db.
  assert (Hu : gathering_ids_unique db).
  { apply run_keeps_gathering_ids. constructor. }
  unfold list_gatherings. split; [exact Hu|]. split.
  - intros gid. unfold get_gathering.
    destruct (query_gathering db gid) as [g|] eqn:Hq.
    + split; [discriminate|]. intros _.
      destruct (query_gathering_some _ _ _ Hq) as [Hin Hid].
      rewrite <- Hid. apply in_map. exact Hin.
    + split; [|intros H; contradiction].
      intros Hin. exfalso. apply (proj1 (query_gathering_none db gid) Hq). exact Hin.
  - apply Forall_forall. intros g Hg. eexists. unfold get_gathering.
    unfold query_gathering. rewrite (unique_id_finds_row _ g Hu Hg).
    split; [reflexivity|]. repeat split.
Qed.

Lemma list_gatherings_lists_each_once_witness :
  In dinner (map GatheringRow.id (list_gatherings open_store)).
Proof.
  apply (proj2 (proj1 (proj2 (list_gatherings_lists_each_once [CreateGathering dinner 2]))
                  dinner)).
  discriminate.
Defined.

(** ** [get_payment_summary] *)

Lemma summary_entry_value (g : Gathering.t) (e : Q) (m : Member.t) :
  Gathering.expense_per_member g = Ok e ->
  exists entry,
    summary_entry g m = Ok entry
    /\ Summary.expenses entry = Member.total_expenses m
    /\ Summary.paid entry = Member.total_payments m
    /\ member_balance m g = Ok (Summary.balance entry)
    /\ member_status m g = Ok (Summary.status entry).
Proof.
  intros He.
  assert (Hb : member_balance m g
               = Ok (Member.total_expenses m + Member.total_payments m - e)%Q).
  { unfold member_balance. rewrite He. reflexivity. }
  unfold summary_entry, member_status. rewrite Hb. cbv beta iota delta [bind].
  destruct (Qlt_le_dec _ _); [|destruct (Qlt_le_dec _ _)];
    eexists; repeat split; reflexivity.
Qed.

Lemma summary_members_fold (g : Gathering.t) (entry_of : Member.t -> Summary.entry)
  (ms : list Member.t) (acc : dict Summary.entry) :
  (forall m, In m ms -> summary_entry g m = Ok (entry_of m)) ->
  summary_members g ms acc
  = Ok (fold_left (fun d m => dict_set d (Member.name m) (entry_of m)) ms acc).
Proof.
  revert acc. induction ms as [|m ms IH]; intros acc H; cbn [summary_members fold_left].
  - reflexivity.
  - rewrite (H m (or_introl eq_refl)). cbv beta iota delta [bind].
    apply IH. intros x Hx. apply H. right. exact Hx.
Qed.

(** X18. [get_payment_summary] fails with NotFound for an unknown gathering.
    For a gathering of a store reached by calls it never raises, and the
    summary holds the expenses total and the share per member of the
    gathering and exactly one entry per member, in the order of the members
    and keyed by their names, made of the member's [total_expenses],
    [total_payments], [balance] and [status]. *)
Theorem get_payment_summary_entries (calls : list Call) (gid : string) :
  let db := run calls empty_store in
  (get_gathering db gid = None -> get_payment_summary db gid = Err NotFound)
  /\ (forall G, get_gathering db gid = Some G ->
      exists s,
        get_payment_summary db gid = Ok s
        /\ Summary.total_expenses s = Gathering.total_expenses G
        /\ Gathering.expense_per_member G = Ok (Summary.expense_per_member s)
        /\ map fst (Summary.members s) = map Member.name (Gathering.members G)
        /\ Forall (fun m => exists entry,
                     dict_get (Summary.members s) (Member.name m) = Some entry
                     /\ Summary.expenses entry = Member.total_expenses m
                     /\ Summary.paid entry = Member.total_payments m
                     /\ member_balance m G = Ok (Summary.balance entry)
                     /\ member_status m G = Ok (Summary.status entry))
                  (Gathering.members G)).
Proof.
  intros db. split.
  - intros H. unfold get_payment_summary. rewrite H. reflexivity.
  - intros G HG.
    destruct (expense_per_member_total G) as [e He].
    assert (Hnd : NoDup (map Member.name (Gathering.members G))).
    { destruct (get_gathering_members db gid G HG) as [g [_ ->]].
      cbn [Gathering.members]. rewrite loaded_names. apply member_names_unique_in_run. }
    set (entry_of := fun m => match summary_entry G m with
                              | Ok entry => entry
                              | Err _ => Summary.mkEntry 0 0 0 EmptyString
                              end).
    assert (Hentry : forall m, summary_entry G m = Ok (entry_of m)).
    { intros m. unfold entry_of.
      destruct (summary_entry_value G e m He) as [entry [E _]]. rewrite E. reflexivity. }
    eexists. unfold get_payment_summary. rewrite HG, He. cbv beta iota delta [bind].
    rewrite (summary_members_fold G entry_of _ [] (fun m _ => Hentry m)).
    rewrite (fold_dict_set Member.name entry_of (Gathering.members G) [] Hnd)
      by (intros a _ []).
    cbn [List.app]. split; [reflexivity|].
    cbn [Summary.total_expenses Summary.expense_per_member Summary.members].
    split; [reflexivity|]. split; [reflexivity|].
    split; [rewrite map_map; reflexivity|].
    apply Forall_forall. intros m Hm. exists (entry_of m).
    split; [apply (dict_get_entry Member.name entry_of (Gathering.members G) m Hnd Hm)|].
    destruct (summary_entry_value G e m He) as [entry [E Hrest]].
    rewrite Hentry in E. injection E as <-. exact Hrest.
Qed.

Lemma get_payment_summary_entries_witness :
  get_payment_summary empty_store dinner = Err NotFound
  /\ exists s, get_payment_summary prepaid_store dinner = Ok s
               /\ map fst (Summary.members s) = ["member0001"].
Proof.
  split.
  - apply (proj1 (get_payment_summary_entries [] dinner)). reflexivity.
  - destruct (proj2 (get_payment_summary_entries
                       [CreateGathering dinner 1; RecordPayment dinner "member0001" 10] dinner)
                prepaid_gathering eq_refl) as [s [E [_ [_ [Hn _]]]]].
    exists s. split; [exact E|exact Hn].
Defined.

(** ** [GatheringService.remove_member] *)

Lemma loaded_after_removal (db : Store) (k : Z) (rows : list MemberRow.t) :
  expenses_of db k = [] -> payments_of db k = [] ->
  map (load_member (delete_member db k)) rows = map (load_member db) rows.
Proof.
  intros He Hp. apply map_ext. intros x.
  unfold load_member, expenses_of, payments_of, delete_member. cbn [expenses payments].
  rewrite (filter_negb_none _ _ He), (filter_negb_none _ _ Hp). reflexivity.
Qed.

Lemma members_of_after_removal (db : Store) (gid : string) (k : Z) :
  members_of (delete_member db k) gid
  = filter (fun x => negb (MemberRow.id x =? k)) (members_of db gid).
Proof.
  unfold members_of, delete_member. cbn [members]. rewrite !filter_twice.
  apply filter_ext. intros x. apply andb_comm.
Qed.

(** X19. In a store reached by calls, removing by name a member without
    expenses or payments from an open gathering returns the gathering with a
    member count one lower and with exactly that member taken out of the
    list of members, the others in their order and with their expenses and
    payments; nobody of that name is left in it. *)
Theorem service_remove_member_spec (calls : list Call) (gid name : string)
  (g : GatheringRow.t) (m : MemberRow.t) :
  let db := run calls empty_store in
  query_gathering db gid = Some g ->
  GatheringRow.status g = OPEN ->
  query_member db gid name = Some m ->
  expenses_of db (MemberRow.id m) = [] ->
  payments_of db (MemberRow.id m) = [] ->
  exists db' l1 l2,
    members_of db gid = (l1 ++ m :: l2)%list
    /\ service_remove_member db gid name
       = (db', Ok (Some (Gathering.mk gid (GatheringRow.total_members g - 1) OPEN
                           (map (load_member db) (l1 ++ l2)))))
    /\ ~ In name (map MemberRow.name (l1 ++ l2)).
Proof.
  intros db Hg Ho Hm He Hp.
  pose proof (run_keeps_tables calls empty_store empty_tables_ok) as Hok. fold db in Hok.
  destruct (query_gathering_some _ _ _ Hg) as [_ Hid].
  destruct (query_member_some _ _ _ _ Hm) as [Hin [Hgid Hname]].
  assert (Hmem : In m (members_of db gid)).
  { unfold members_of. apply filter_In. split; [exact Hin|].
    rewrite Hgid. apply String.eqb_refl. }
  destruct (filter_key_unique (members_of db gid) m
              (keys_unique_filter _ _ (tb_keys _ Hok)) Hmem) as [l1 [l2 [E1 E2]]].
  eexists. exists l1, l2. split; [exact E1|]. split.
  - unfold service_remove_member, remove_member. rewrite Hg, Ho, Hm.
    cbn [GatheringStatus_eqb]. rewrite He, Hp. cbn [List.length Nat.ltb Nat.leb].
    rewrite Hid. unfold get_gathering.
    set (db1 := delete_member db (MemberRow.id m)).
    set (db' := mkStore _ (members db1) (expenses db1) (payments db1)).
    assert (Hq : query_gathering db' gid
                 = Some (set_total_members (GatheringRow.total_members g - 1) g)).
    { apply (query_after_update_same db1 gid g); [reflexivity|exact Hg]. }
    rewrite Hq. cbn [set_total_members GatheringRow.id GatheringRow.total_members
      GatheringRow.status]. rewrite Hid, Ho.
    change (members_of db' gid) with (members_of db1 gid).
    replace (map (load_member db') (members_of db1 gid))
      with (map (load_member db1) (members_of db1 gid)) by reflexivity.
    unfold db1. rewrite members_of_after_removal, E2.
    rewrite (loaded_after_removal db (MemberRow.id m) _ He Hp). reflexivity.
  - pose proof (tb_names _ Hok gid) as Hnd. rewrite E1, map_app in Hnd.
    cbn [map] in Hnd. apply NoDup_remove_2 in Hnd.
    rewrite Hname in Hnd. rewrite map_app. exact Hnd.
Qed.

Lemma service_remove_member_spec_witness :
  exists db' l1 l2,
    members_of open_store dinner = (l1 ++ MemberRow.mk 1 "member0001" dinner :: l2)%list
    /\ service_remove_member open_store dinner "member0001"
       = (db', Ok (Some (Gathering.mk dinner (2 - 1) OPEN
                           (map (load_member open_store) (l1 ++ l2)))))
    /\ ~ In "member0001" (map MemberRow.name (l1 ++ l2)).
Proof.
  apply (service_remove_member_spec [CreateGathering dinner 2] dinner "member0001"
           (GatheringRow.mk dinner 2 OPEN) (MemberRow.mk 1 "member0001" dinner));
    reflexivity.
Defined.
